(** * MHCam: TTTR record decoding, scan synchronisation and pixel accumulation

    A shallow embedding of the record pipeline of the MultiHarp camera
    adapter ([src/MHCam_withgalvo/MHCam.cpp]): [Interpret_TTTR],
    [TranslateRecord], [GetPixnumInLine], [ResizeImageBuffer], the
    [OnPixelType] handler and the record loop of [start_acq]; then further
    parts of the same file: the geometry handlers, [start_acq] as a whole,
    [GenerateMHTestPattern], the regions of interest, the exposure
    sequences and the sequence thread, the mode handlers, the status and
    saving handlers, [SnapImage], and the string utilities and the
    scan-status handler of [SocketGalvo].

    Conventions.
    - C integers are [Z] with the wrap-around written out.  The adapter is
      built for Windows (it includes [winsock2.h], [windows.h], [direct.h]),
      so [int] and [long] are 32-bit signed, [unsigned int] is 32-bit and
      [uint64_t] is 64-bit.  Signed results are reduced with [i32]
      (two's complement), unsigned ones with [u32] / [u64].
    - C division and remainder truncate towards zero: [Z.quot], [Z.rem].
    - An operation whose behaviour the language leaves undefined (division
      by zero, access outside the pixel array) makes the enclosing function
      return [None].
    - Logging ([sprintf] / [LogMessage]) has no effect on the modelled state
      and is left out.
    - A loop that the code may never leave is run on the answers of a given
      number of rounds; the result [Running] says that the loop has
      not been left. *)

From stdpp Require Import base option list strings.
From Stdlib Require Import ZArith Lia DecimalString.

Local Open Scope Z_scope.

(** ** Machine integers *)

Module CInt.

Definition u32 (z : Z) : Z := z mod 2 ^ 32.
Definition u64 (z : Z) : Z := z mod 2 ^ 64.
Definition i32 (z : Z) : Z := (z + 2 ^ 31) mod 2 ^ 32 - 2 ^ 31.
Definition u8 (z : Z) : Z := z mod 2 ^ 8.
Definition u16 (z : Z) : Z := z mod 2 ^ 16.

Definition in_u32 (z : Z) : Prop := 0 <= z < 2 ^ 32.
Definition in_u64 (z : Z) : Prop := 0 <= z < 2 ^ 64.
Definition in_i32 (z : Z) : Prop := - 2 ^ 31 <= z < 2 ^ 31.

End CInt.
Import CInt.

(** ** [Interpret_TTTR]: the T3 record layout *)

Record TTTR := mkTTTR {
  sync : Z;
  tcspc : Z;
  channel : Z;
  special : bool
}.

Definition nsync_mask : Z := 0x00003ff.
Definition tcspc_mask : Z := 0x0007fff.
Definition chan_mask : Z := 0x000003f.
Definition special_mask : Z := 0x0000001.
Definition nsync_shift : Z := 0.
Definition tcspc_shift : Z := 10.
Definition chan_shift : Z := 25.
Definition special_shift : Z := 31.

(** The four out-parameters of the C++ function are returned as a record.
    The last assignment converts an [unsigned int] to [bool]: non-zero is
    [true]. *)
Definition Interpret_TTTR (record : Z) : TTTR :=
  {| sync := Z.land (Z.shiftr record nsync_shift) nsync_mask;
     tcspc := Z.land (Z.shiftr record tcspc_shift) tcspc_mask;
     channel := Z.land (Z.shiftr record chan_shift) chan_mask;
     special := negb (Z.land (Z.shiftr record special_shift) special_mask =? 0) |}.


(** ** The image buffer *)

(** Modelled from the spec: the [ImgBuffer] class belongs to the host
    framework and is not among the sources; only its uses are.  Following
    the data model ("a flat array of [width*height] samples at 1 or 2 bytes
    per sample"), a buffer is its three dimensions and a flat byte array of
    [Width * Height * Depth] bytes which [Resize] and [ResetPixels] zero. *)
Record ImgBuffer := mkImgBuffer {
  Width : Z;
  Height : Z;
  Depth : Z;
  GetPixels : list Z
}.

Definition ImgBuffer_empty : ImgBuffer :=
  {| Width := 0; Height := 0; Depth := 0; GetPixels := [] |}.

Definition Resize (xSize ySize pixDepth : Z) : ImgBuffer :=
  {| Width := xSize; Height := ySize; Depth := pixDepth;
     GetPixels := replicate (Z.to_nat (xSize * ySize * pixDepth)) 0 |}.

Definition ResetPixels (img : ImgBuffer) : ImgBuffer :=
  {| Width := Width img; Height := Height img; Depth := Depth img;
     GetPixels := replicate (length (GetPixels img)) 0 |}.

Definition SetPixels (mem : list Z) (img : ImgBuffer) : ImgBuffer :=
  {| Width := Width img; Height := Height img; Depth := Depth img;
     GetPixels := mem |}.

(** *** Access to the byte array

    [rawShorts[i]] on an [unsigned char*] reads byte [i]; on an
    [unsigned short*] it reads bytes [2i] (low) and [2i+1] (high): the
    target is little-endian.  A read outside the array gives [None]. *)
Definition load8 (mem : list Z) (i : Z) : option Z :=
  if 0 <=? i then mem !! Z.to_nat i else None.

Definition store8 (mem : list Z) (i v : Z) : list Z :=
  <[Z.to_nat i := v]> mem.

Definition load16 (mem : list Z) (i : Z) : option Z :=
  lo ← load8 mem (2 * i);
  hi ← load8 mem (2 * i + 1);
  Some (lo + 256 * hi).

Definition store16 (mem : list Z) (i v : Z) : list Z :=
  store8 (store8 mem (2 * i) (v mod 256)) (2 * i + 1) (v / 256).

(** [if (rawShorts[target_px] != maxValue) rawShorts[target_px] += 1;]
    with [maxValue = 255] on bytes. *)
Definition increment8 (mem : list Z) (target_px : Z) : option (list Z) :=
  v ← load8 mem target_px;
  if v =? 255 then Some mem else Some (store8 mem target_px (u8 (v + 1))).

(** The same with [maxValue = 65535] on 16-bit samples. *)
Definition increment16 (mem : list Z) (target_px : Z) : option (list Z) :=
  v ← load16 mem target_px;
  if v =? 65535 then Some mem else Some (store16 mem target_px (u16 (v + 1))).

(** ** The camera object *)

Definition g_PixelType_8bit : string := "8bit".
Definition g_PixelType_16bit : string := "16bit".
Definition MAX_N_CHANNELS : Z := 8.

Inductive RetCode :=
| DEVICE_OK
| DEVICE_ERR
| DEVICE_CAMERA_BUSY_ACQUIRING
| ERR_UNKNOWN_MODE.

(** The members of [MH_camera] that the record pipeline reads or writes, under
    their source names.  [PixelType] is the value of the host property
    [MM::g_Keyword_PixelType], which [GetProperty] reads back. *)
Record MH_camera := mkMH_camera {
  bitDepth_ : Z;
  nComponents_ : Z;
  binSize_ : Z;
  n_scanPixels_X_ : Z;
  n_scanPixels_Y_ : Z;
  n_beams_X_ : Z;
  n_beams_Y_ : Z;
  cameraCCDXSize_ : Z;
  cameraCCDYSize_ : Z;
  pixel_dwelltime_ps_ : Z;
  MeasDesc_GlobalResolution_ : Z;
  last_line_start_ : Z;
  last_line_end_ : Z;
  current_line_ : Z;
  n_frame_repeats_ : Z;
  n_frame_tracker_ : Z;
  overflow_counter_ : Z;
  frame_active_ : bool;
  PixelType : string;
  img_ : ImgBuffer;
  live_rates : list Z
}.

Definition set_bitDepth_ (v : Z) (c : MH_camera) : MH_camera :=
  mkMH_camera v (nComponents_ c) (binSize_ c) (n_scanPixels_X_ c)
    (n_scanPixels_Y_ c) (n_beams_X_ c) (n_beams_Y_ c) (cameraCCDXSize_ c)
    (cameraCCDYSize_ c) (pixel_dwelltime_ps_ c) (MeasDesc_GlobalResolution_ c)
    (last_line_start_ c) (last_line_end_ c) (current_line_ c)
    (n_frame_repeats_ c) (n_frame_tracker_ c) (overflow_counter_ c)
    (frame_active_ c) (PixelType c) (img_ c) (live_rates c).

Definition set_nComponents_ (v : Z) (c : MH_camera) : MH_camera :=
  mkMH_camera (bitDepth_ c) v (binSize_ c) (n_scanPixels_X_ c)
    (n_scanPixels_Y_ c) (n_beams_X_ c) (n_beams_Y_ c) (cameraCCDXSize_ c)
    (cameraCCDYSize_ c) (pixel_dwelltime_ps_ c) (MeasDesc_GlobalResolution_ c)
    (last_line_start_ c) (last_line_end_ c) (current_line_ c)
    (n_frame_repeats_ c) (n_frame_tracker_ c) (overflow_counter_ c)
    (frame_active_ c) (PixelType c) (img_ c) (live_rates c).

Definition set_pixel_dwelltime_ps_ (v : Z) (c : MH_camera) : MH_camera :=
  mkMH_camera (bitDepth_ c) (nComponents_ c) (binSize_ c) (n_scanPixels_X_ c)
    (n_scanPixels_Y_ c) (n_beams_X_ c) (n_beams_Y_ c) (cameraCCDXSize_ c)
    (cameraCCDYSize_ c) v (MeasDesc_GlobalResolution_ c)
    (last_line_start_ c) (last_line_end_ c) (current_line_ c)
    (n_frame_repeats_ c) (n_frame_tracker_ c) (overflow_counter_ c)
    (frame_active_ c) (PixelType c) (img_ c) (live_rates c).

Definition set_last_line_start_ (v : Z) (c : MH_camera) : MH_camera :=
  mkMH_camera (bitDepth_ c) (nComponents_ c) (binSize_ c) (n_scanPixels_X_ c)
    (n_scanPixels_Y_ c) (n_beams_X_ c) (n_beams_Y_ c) (cameraCCDXSize_ c)
    (cameraCCDYSize_ c) (pixel_dwelltime_ps_ c) (MeasDesc_GlobalResolution_ c)
    v (last_line_end_ c) (current_line_ c)
    (n_frame_repeats_ c) (n_frame_tracker_ c) (overflow_counter_ c)
    (frame_active_ c) (PixelType c) (img_ c) (live_rates c).

Definition set_last_line_end_ (v : Z) (c : MH_camera) : MH_camera :=
  mkMH_camera (bitDepth_ c) (nComponents_ c) (binSize_ c) (n_scanPixels_X_ c)
    (n_scanPixels_Y_ c) (n_beams_X_ c) (n_beams_Y_ c) (cameraCCDXSize_ c)
    (cameraCCDYSize_ c) (pixel_dwelltime_ps_ c) (MeasDesc_GlobalResolution_ c)
    (last_line_start_ c) v (current_line_ c)
    (n_frame_repeats_ c) (n_frame_tracker_ c) (overflow_counter_ c)
    (frame_active_ c) (PixelType c) (img_ c) (live_rates c).

Definition set_current_line_ (v : Z) (c : MH_camera) : MH_camera :=
  mkMH_camera (bitDepth_ c) (nComponents_ c) (binSize_ c) (n_scanPixels_X_ c)
    (n_scanPixels_Y_ c) (n_beams_X_ c) (n_beams_Y_ c) (cameraCCDXSize_ c)
    (cameraCCDYSize_ c) (pixel_dwelltime_ps_ c) (MeasDesc_GlobalResolution_ c)
    (last_line_start_ c) (last_line_end_ c) v
    (n_frame_repeats_ c) (n_frame_tracker_ c) (overflow_counter_ c)
    (frame_active_ c) (PixelType c) (img_ c) (live_rates c).

Definition set_n_frame_tracker_ (v : Z) (c : MH_camera) : MH_camera :=
  mkMH_camera (bitDepth_ c) (nComponents_ c) (binSize_ c) (n_scanPixels_X_ c)
    (n_scanPixels_Y_ c) (n_beams_X_ c) (n_beams_Y_ c) (cameraCCDXSize_ c)
    (cameraCCDYSize_ c) (pixel_dwelltime_ps_ c) (MeasDesc_GlobalResolution_ c)
    (last_line_start_ c) (last_line_end_ c) (current_line_ c)
    (n_frame_repeats_ c) v (overflow_counter_ c)
    (frame_active_ c) (PixelType c) (img_ c) (live_rates c).

Definition set_overflow_counter_ (v : Z) (c : MH_camera) : MH_camera :=
  mkMH_camera (bitDepth_ c) (nComponents_ c) (binSize_ c) (n_scanPixels_X_ c)
    (n_scanPixels_Y_ c) (n_beams_X_ c) (n_beams_Y_ c) (cameraCCDXSize_ c)
    (cameraCCDYSize_ c) (pixel_dwelltime_ps_ c) (MeasDesc_GlobalResolution_ c)
    (last_line_start_ c) (last_line_end_ c) (current_line_ c)
    (n_frame_repeats_ c) (n_frame_tracker_ c) v
    (frame_active_ c) (PixelType c) (img_ c) (live_rates c).

Definition set_frame_active_ (v : bool) (c : MH_camera) : MH_camera :=
  mkMH_camera (bitDepth_ c) (nComponents_ c) (binSize_ c) (n_scanPixels_X_ c)
    (n_scanPixels_Y_ c) (n_beams_X_ c) (n_beams_Y_ c) (cameraCCDXSize_ c)
    (cameraCCDYSize_ c) (pixel_dwelltime_ps_ c) (MeasDesc_GlobalResolution_ c)
    (last_line_start_ c) (last_line_end_ c) (current_line_ c)
    (n_frame_repeats_ c) (n_frame_tracker_ c) (overflow_counter_ c)
    v (PixelType c) (img_ c) (live_rates c).

Definition set_PixelType (v : string) (c : MH_camera) : MH_camera :=
  mkMH_camera (bitDepth_ c) (nComponents_ c) (binSize_ c) (n_scanPixels_X_ c)
    (n_scanPixels_Y_ c) (n_beams_X_ c) (n_beams_Y_ c) (cameraCCDXSize_ c)
    (cameraCCDYSize_ c) (pixel_dwelltime_ps_ c) (MeasDesc_GlobalResolution_ c)
    (last_line_start_ c) (last_line_end_ c) (current_line_ c)
    (n_frame_repeats_ c) (n_frame_tracker_ c) (overflow_counter_ c)
    (frame_active_ c) v (img_ c) (live_rates c).

Definition set_img_ (v : ImgBuffer) (c : MH_camera) : MH_camera :=
  mkMH_camera (bitDepth_ c) (nComponents_ c) (binSize_ c) (n_scanPixels_X_ c)
    (n_scanPixels_Y_ c) (n_beams_X_ c) (n_beams_Y_ c) (cameraCCDXSize_ c)
    (cameraCCDYSize_ c) (pixel_dwelltime_ps_ c) (MeasDesc_GlobalResolution_ c)
    (last_line_start_ c) (last_line_end_ c) (current_line_ c)
    (n_frame_repeats_ c) (n_frame_tracker_ c) (overflow_counter_ c)
    (frame_active_ c) (PixelType c) v (live_rates c).

Definition set_live_rates (v : list Z) (c : MH_camera) : MH_camera :=
  mkMH_camera (bitDepth_ c) (nComponents_ c) (binSize_ c) (n_scanPixels_X_ c)
    (n_scanPixels_Y_ c) (n_beams_X_ c) (n_beams_Y_ c) (cameraCCDXSize_ c)
    (cameraCCDYSize_ c) (pixel_dwelltime_ps_ c) (MeasDesc_GlobalResolution_ c)
    (last_line_start_ c) (last_line_end_ c) (current_line_ c)
    (n_frame_repeats_ c) (n_frame_tracker_ c) (overflow_counter_ c)
    (frame_active_ c) (PixelType c) (img_ c) v.

(** The constructor's member initialisers; [img_] is default-constructed and
    the loop in [Initialize] zeroes [live_rates]. *)
Definition MH_camera_ctor : MH_camera :=
  {| bitDepth_ := 16;
     nComponents_ := 1;
     binSize_ := 1;
     n_scanPixels_X_ := 120;
     n_scanPixels_Y_ := 80;
     n_beams_X_ := 2;
     n_beams_Y_ := 3;
     cameraCCDXSize_ := 240;
     cameraCCDYSize_ := 240;
     pixel_dwelltime_ps_ := 100000000;
     MeasDesc_GlobalResolution_ := 12618;
     last_line_start_ := 0;
     last_line_end_ := 100000000000000000;
     current_line_ := -99;
     n_frame_repeats_ := 1;
     n_frame_tracker_ := 0;
     overflow_counter_ := 0;
     frame_active_ := false;
     PixelType := g_PixelType_16bit;
     img_ := ImgBuffer_empty;
     live_rates := replicate (Z.to_nat MAX_N_CHANNELS) 0 |}.

(** ** [ResizeImageBuffer] and the [OnPixelType] handler *)

(** [byteDepth] starts at 0 and is set only for the two known pixel types.
    [GetProperty] on the pixel-type property, which [Initialize] creates
    before the first call, succeeds and yields [PixelType].  The quotients
    are [long] and are converted to the [unsigned] parameters of [Resize]. *)
Definition ResizeImageBuffer (c : MH_camera) : option (RetCode * MH_camera) :=
  let pixelType := PixelType c in
  let byteDepth :=
    if String.eqb pixelType g_PixelType_8bit then 1
    else if String.eqb pixelType g_PixelType_16bit then 2
    else 0 in
  if binSize_ c =? 0 then None
  else
    Some (DEVICE_OK,
          set_img_ (Resize (u32 (i32 (cameraCCDXSize_ c ÷ binSize_ c)))
                           (u32 (i32 (cameraCCDYSize_ c ÷ binSize_ c)))
                           byteDepth) c).

(** The [MM::AfterSet] case of [OnPixelType]; [capturing] is the value of
    [IsCapturing()] and [pixelType] the string the property was set to. *)
Definition OnPixelType_AfterSet (capturing : bool) (pixelType : string)
    (c : MH_camera) : RetCode * MH_camera :=
  if capturing then (DEVICE_CAMERA_BUSY_ACQUIRING, c)
  else
    let c := set_PixelType pixelType c in
    if String.eqb pixelType g_PixelType_8bit then
      let c := set_nComponents_ 1 c in
      let c := set_img_ (Resize (Width (img_ c)) (Height (img_ c)) 1) c in
      let c := set_bitDepth_ 8 c in
      (DEVICE_OK, c)
    else if String.eqb pixelType g_PixelType_16bit then
      let c := set_nComponents_ 1 c in
      let c := set_img_ (Resize (Width (img_ c)) (Height (img_ c)) 2) c in
      let c := set_bitDepth_ 16 c in
      (DEVICE_OK, c)
    else
      let c := set_nComponents_ 1 c in
      let c := set_img_ (Resize (Width (img_ c)) (Height (img_ c)) 1) c in
      let c := set_PixelType g_PixelType_8bit c in
      let c := set_bitDepth_ 8 c in
      (ERR_UNKNOWN_MODE, c).

(** The object after the constructor and the [ResizeImageBuffer] call of
    [Initialize]. *)
Definition MH_camera_initialized : MH_camera :=
  match ResizeImageBuffer MH_camera_ctor with
  | Some (_, c) => c
  | None => MH_camera_ctor
  end.

(** ** [GetPixnumInLine] *)

(** [(int)pn / n_beams_X_]: the cast applies to [pn] alone, then the [int]
    is divided by a [long]. *)
Definition GetPixnumInLine (c : MH_camera) (timestamp linestart_timestamp : Z)
    : option Z :=
  let time_into_line_ps := u64 (timestamp - linestart_timestamp) in
  if pixel_dwelltime_ps_ c =? 0 then None
  else
    let pn := time_into_line_ps ÷ pixel_dwelltime_ps_ c in
    if n_beams_X_ c =? 0 then None
    else
      let pixnum := i32 (i32 pn ÷ n_beams_X_ c) in
      if pixnum >=? cameraCCDXSize_ c
      then Some (i32 (cameraCCDXSize_ c - 1))
      else Some pixnum.

(** ** [TranslateRecord] *)

(** Lines 2395-2396: the absolute time of a record in picoseconds. *)
Definition timestamp_ps (c : MH_camera) (nsync : Z) : Z :=
  let overflowtime := u64 (overflow_counter_ c * 1024) in
  u64 (u64 (nsync + overflowtime) * MeasDesc_GlobalResolution_ c).

(** Lines 2443-2448: the shift of a channel's beam in the composite image.
    [5 - channel] is computed on [unsigned int] and stored in an [int]. *)
Definition beam_shift (c : MH_camera) (channel : Z) : option (Z * Z) :=
  let tmpchan := i32 (u32 (5 - channel)) in
  if n_beams_Y_ c =? 0 then None
  else
    let x_shift := i32 (i32 (tmpchan ÷ n_beams_Y_ c) * n_scanPixels_X_ c) in
    let y_shift := i32 (i32 (Z.rem tmpchan (n_beams_Y_ c)) * n_scanPixels_Y_ c) in
    Some (x_shift, y_shift).

(** Lines 2472-2488: the write into the pixel array, selected by the
    pixel-type property; any other pixel type writes nothing. *)
Definition accumulate (c : MH_camera) (target_px : Z) : option MH_camera :=
  if String.eqb (PixelType c) g_PixelType_8bit then
    mem ← increment8 (GetPixels (img_ c)) target_px;
    Some (set_img_ (SetPixels mem (img_ c)) c)
  else if String.eqb (PixelType c) g_PixelType_16bit then
    mem ← increment16 (GetPixels (img_ c)) target_px;
    Some (set_img_ (SetPixels mem (img_ c)) c)
  else Some c.

(** Lines 2443-2463: the index [target_px] of a photon in the pixel array. *)
Definition photon_target (r : TTTR) (timestamp : Z) (c : MH_camera)
    : option Z :=
  '(x_shift, y_shift) ← beam_shift c (channel r);
  pixnum ← GetPixnumInLine c timestamp (last_line_start_ c);
  let x_px := i32 (pixnum + x_shift) in
  let y_px := i32 (current_line_ c + y_shift) in
  Some (i32 (x_px + i32 (y_px * cameraCCDXSize_ c))).

(** The [else] branch of [TranslateRecord]: an ordinary photon record. *)
Definition translate_photon (r : TTTR) (timestamp : Z) (c : MH_camera)
    : option MH_camera :=
  if (last_line_end_ c <? last_line_start_ c) && negb (channel r =? 6) then
    if current_line_ c >=? 0 then
      target_px ← photon_target r timestamp c;
      accumulate c target_px
    else Some c
  else Some c.

(** The [switch] on the channel of a special record. *)
Definition translate_special (r : TTTR) (timestamp : Z) (c : MH_camera)
    : option MH_camera :=
  match channel r with
  | 1 =>
      let c := set_last_line_end_ timestamp c in
      if u64 (cameraCCDXSize_ c) =? 0 then None
      else
        Some (set_pixel_dwelltime_ps_
                (u64 (last_line_end_ c - last_line_start_ c)
                   ÷ u64 (cameraCCDXSize_ c)) c)
  | 2 =>
      let c := set_last_line_start_ timestamp c in
      let c := if frame_active_ c
               then set_current_line_ (i32 (current_line_ c + 1)) c
               else c in
      let c := if current_line_ c >? cameraCCDYSize_ c
               then set_frame_active_ false c
               else c in
      Some c
  | 3 | 4 =>
      let c := set_current_line_ (-1) c in
      let c := set_frame_active_ true c in
      let c := set_n_frame_tracker_ (i32 (n_frame_tracker_ c + 1)) c in
      Some c
  | 63 =>
      Some (set_overflow_counter_ (u32 (overflow_counter_ c + sync r)) c)
  | _ => Some c
  end.

Definition TranslateRecord (val : Z) (c : MH_camera) : option MH_camera :=
  let r := Interpret_TTTR val in
  let timestamp := timestamp_ps c (sync r) in
  if special r then translate_special r timestamp c
  else translate_photon r timestamp c.

(** ** The record loop of [start_acq] *)

(** Lines 2930-2944: the trackers are reset before the measurement starts. *)
Definition start_acq_reset (c : MH_camera) : option MH_camera :=
  if n_frame_repeats_ c =? 0 then None
  else
    let c := if Z.rem (n_frame_tracker_ c) (n_frame_repeats_ c) =? 0
             then set_img_ (ResetPixels (img_ c)) c
             else c in
    let c := set_overflow_counter_ 0 c in
    let c := set_current_line_ (-1) c in
    let c := set_frame_active_ false c in
    let c := set_last_line_start_ 0 c in
    let c := set_last_line_end_ 0 c in
    Some (set_live_rates (replicate (Z.to_nat MAX_N_CHANNELS) 0) c).

(** [live_rates[chan] += 1] on an [unsigned int] array. *)
Definition bump_rate (rates : list Z) (chan : Z) : option (list Z) :=
  v ← rates !! Z.to_nat chan;
  Some (<[Z.to_nat chan := u32 (v + 1)]> rates).

(** Lines 3057-3062: the body of the [for] loop over one batch. *)
Definition start_acq_record (record : Z) (c : MH_camera) : option MH_camera :=
  let chan := Z.land (Z.shiftr record 25) 0x000003f in
  c ← TranslateRecord record c;
  if chan <? MAX_N_CHANNELS then
    rates ← bump_rate (live_rates c) chan;
    Some (set_live_rates rates c)
  else Some c.

(** Lines 3056-3063: the records of a batch, in arrival order. *)
Fixpoint start_acq_batch (buffer : list Z) (c : MH_camera) : option MH_camera :=
  match buffer with
  | [] => Some c
  | record :: rest => c' ← start_acq_record record c; start_acq_batch rest c'
  end.

(** The object when the record loop is entered for the first time. *)
Definition MH_camera_started : option MH_camera :=
  start_acq_reset MH_camera_initialized.

Definition MH_camera_loop_entry : MH_camera :=
  default MH_camera_initialized MH_camera_started.

(** ** Predicates of the statements *)

(** The timebase members hold values of their C types, and the sync period
    is small enough for a 42-bit sync count times the period to fit in 64
    bits (the constructor's 12618 ps is never reassigned). *)
Definition timebase_ok (c : MH_camera) : Prop :=
  in_u32 (overflow_counter_ c) /\ 0 <= MeasDesc_GlobalResolution_ c <= 2 ^ 22.

(** [n] successive increments of the sample at one index. *)
Fixpoint repeat_increment (incr : list Z -> Z -> option (list Z)) (n : nat)
    (mem : list Z) (i : Z) : option (list Z) :=
  match n with
  | O => Some mem
  | S n' => mem' ← incr mem i; repeat_increment incr n' mem' i
  end.

(** [n] successive photons on the sample at one index: the write of lines
    2472-2488, [n] times. *)
Fixpoint repeat_accumulate (n : nat) (c : MH_camera) (target_px : Z)
    : option MH_camera :=
  match n with
  | O => Some c
  | S n' => c' ← accumulate c target_px; repeat_accumulate n' c' target_px
  end.


(** Kinds of records, by their decoded fields. *)
Definition is_photon (val : Z) : Prop :=
  special (Interpret_TTTR val) = false.

Definition is_marker (ch val : Z) : Prop :=
  special (Interpret_TTTR val) = true /\ channel (Interpret_TTTR val) = ch.

Definition is_frame_start (val : Z) : Prop :=
  is_marker 3 val \/ is_marker 4 val.

(** The state in which [start_acq] enters its record loop. *)
Definition post_reset (c : MH_camera) : Prop :=
  exists c_prev, start_acq_reset c_prev = Some c.

(** What no record changes: the composite size and the length of the rate
    table. *)
Definition same_frame_size (c c' : MH_camera) : Prop :=
  cameraCCDXSize_ c' = cameraCCDXSize_ c /\
  cameraCCDYSize_ c' = cameraCCDYSize_ c /\
  length (live_rates c') = length (live_rates c).

(** The index [TranslateRecord] computes for the raw photon record [val]. *)
Definition record_target (val : Z) (c : MH_camera) : option Z :=
  let r := Interpret_TTTR val in
  photon_target r (timestamp_ps c (sync r)) c.

(** No frame has started: the line index is the reset value and the frame
    is inactive. *)
Definition idle (c : MH_camera) : Prop :=
  current_line_ c = -1 /\ frame_active_ c = false.

(** The frame is active on line [line], in a camera of the frame size of
    [c_ref]. *)
Definition scanning (line : Z) (c_ref c : MH_camera) : Prop :=
  current_line_ c = line /\ frame_active_ c = true /\
  same_frame_size c_ref c.

(** * Further members and operations of the camera *)

(** ** Property handlers *)

(** The action a property handler is called for; every handler of the
    adapter tests for [MM::BeforeGet] and [MM::AfterSet] only. *)
Inductive ActionType :=
| BeforeGet
| AfterSet
| OtherAction.

Definition set_n_scanPixels_X_ (v : Z) (c : MH_camera) : MH_camera :=
  mkMH_camera (bitDepth_ c) (nComponents_ c) (binSize_ c) v
    (n_scanPixels_Y_ c) (n_beams_X_ c) (n_beams_Y_ c) (cameraCCDXSize_ c)
    (cameraCCDYSize_ c) (pixel_dwelltime_ps_ c) (MeasDesc_GlobalResolution_ c)
    (last_line_start_ c) (last_line_end_ c) (current_line_ c)
    (n_frame_repeats_ c) (n_frame_tracker_ c) (overflow_counter_ c)
    (frame_active_ c) (PixelType c) (img_ c) (live_rates c).

Definition set_n_scanPixels_Y_ (v : Z) (c : MH_camera) : MH_camera :=
  mkMH_camera (bitDepth_ c) (nComponents_ c) (binSize_ c) (n_scanPixels_X_ c)
    v (n_beams_X_ c) (n_beams_Y_ c) (cameraCCDXSize_ c) (cameraCCDYSize_ c)
    (pixel_dwelltime_ps_ c) (MeasDesc_GlobalResolution_ c)
    (last_line_start_ c) (last_line_end_ c) (current_line_ c)
    (n_frame_repeats_ c) (n_frame_tracker_ c) (overflow_counter_ c)
    (frame_active_ c) (PixelType c) (img_ c) (live_rates c).

Definition set_n_beams_X_ (v : Z) (c : MH_camera) : MH_camera :=
  mkMH_camera (bitDepth_ c) (nComponents_ c) (binSize_ c) (n_scanPixels_X_ c)
    (n_scanPixels_Y_ c) v (n_beams_Y_ c) (cameraCCDXSize_ c)
    (cameraCCDYSize_ c) (pixel_dwelltime_ps_ c) (MeasDesc_GlobalResolution_ c)
    (last_line_start_ c) (last_line_end_ c) (current_line_ c)
    (n_frame_repeats_ c) (n_frame_tracker_ c) (overflow_counter_ c)
    (frame_active_ c) (PixelType c) (img_ c) (live_rates c).

Definition set_n_beams_Y_ (v : Z) (c : MH_camera) : MH_camera :=
  mkMH_camera (bitDepth_ c) (nComponents_ c) (binSize_ c) (n_scanPixels_X_ c)
    (n_scanPixels_Y_ c) (n_beams_X_ c) v (cameraCCDXSize_ c)
    (cameraCCDYSize_ c) (pixel_dwelltime_ps_ c) (MeasDesc_GlobalResolution_ c)
    (last_line_start_ c) (last_line_end_ c) (current_line_ c)
    (n_frame_repeats_ c) (n_frame_tracker_ c) (overflow_counter_ c)
    (frame_active_ c) (PixelType c) (img_ c) (live_rates c).

Definition set_cameraCCDXSize_ (v : Z) (c : MH_camera) : MH_camera :=
  mkMH_camera (bitDepth_ c) (nComponents_ c) (binSize_ c) (n_scanPixels_X_ c)
    (n_scanPixels_Y_ c) (n_beams_X_ c) (n_beams_Y_ c) v (cameraCCDYSize_ c)
    (pixel_dwelltime_ps_ c) (MeasDesc_GlobalResolution_ c)
    (last_line_start_ c) (last_line_end_ c) (current_line_ c)
    (n_frame_repeats_ c) (n_frame_tracker_ c) (overflow_counter_ c)
    (frame_active_ c) (PixelType c) (img_ c) (live_rates c).

Definition set_cameraCCDYSize_ (v : Z) (c : MH_camera) : MH_camera :=
  mkMH_camera (bitDepth_ c) (nComponents_ c) (binSize_ c) (n_scanPixels_X_ c)
    (n_scanPixels_Y_ c) (n_beams_X_ c) (n_beams_Y_ c) (cameraCCDXSize_ c) v
    (pixel_dwelltime_ps_ c) (MeasDesc_GlobalResolution_ c)
    (last_line_start_ c) (last_line_end_ c) (current_line_ c)
    (n_frame_repeats_ c) (n_frame_tracker_ c) (overflow_counter_ c)
    (frame_active_ c) (PixelType c) (img_ c) (live_rates c).

(** [OnPixelType]: [MM::BeforeGet] reports the pixel type that goes with
    the bytes per pixel of the buffer, [MM::AfterSet] is
    [OnPixelType_AfterSet], any other action returns [DEVICE_ERR]. *)
Definition OnPixelType (eAct : ActionType) (capturing : bool)
    (pixelType : string) (c : MH_camera) : RetCode * MH_camera :=
  match eAct with
  | AfterSet => OnPixelType_AfterSet capturing pixelType c
  | BeforeGet =>
      let bytesPerPixel := Depth (img_ c) in
      if bytesPerPixel =? 1 then (DEVICE_OK, set_PixelType g_PixelType_8bit c)
      else if bytesPerPixel =? 2
           then (DEVICE_OK, set_PixelType g_PixelType_16bit c)
           else (DEVICE_OK, set_PixelType g_PixelType_8bit c)
  | OtherAction => (DEVICE_ERR, c)
  end.

(** Modelled from the spec: [img_.Resize(xSize, ySize)], the two-argument
    overload of the host's [ImgBuffer], keeps the depth of the buffer.  Here
    it is applied to the composite size over the binning, as all four
    geometry handlers do. *)
Definition resize_to_composite (c : MH_camera) : option MH_camera :=
  if binSize_ c =? 0 then None
  else
    Some (set_img_ (Resize (u32 (i32 (cameraCCDXSize_ c ÷ binSize_ c)))
                           (u32 (i32 (cameraCCDYSize_ c ÷ binSize_ c)))
                           (Depth (img_ c))) c).

Definition Onn_beams_X (eAct : ActionType) (value : Z) (c : MH_camera)
    : option (RetCode * MH_camera) :=
  match eAct with
  | AfterSet =>
      if (value <? 1) || (8 <? value) then Some (DEVICE_ERR, c)
      else if negb (value =? n_beams_X_ c) then
        let c := set_n_beams_X_ value c in
        let c := set_cameraCCDXSize_
                   (i32 (n_scanPixels_X_ c * n_beams_X_ c)) c in
        c ← resize_to_composite c; Some (DEVICE_OK, c)
      else Some (DEVICE_OK, c)
  | _ => Some (DEVICE_OK, c)
  end.

Definition Onn_beams_Y (eAct : ActionType) (value : Z) (c : MH_camera)
    : option (RetCode * MH_camera) :=
  match eAct with
  | AfterSet =>
      if (value <? 1) || (8 <? value) then Some (DEVICE_ERR, c)
      else if negb (value =? n_beams_Y_ c) then
        let c := set_n_beams_Y_ value c in
        let c := set_cameraCCDYSize_
                   (i32 (n_scanPixels_Y_ c * n_beams_Y_ c)) c in
        c ← resize_to_composite c; Some (DEVICE_OK, c)
      else Some (DEVICE_OK, c)
  | _ => Some (DEVICE_OK, c)
  end.

(** After its [if], [Onn_scanPixels_X] writes the new value to a property of
    the parent hub through the pointer [GetParentHub()] returns, for every
    action; [has_hub] says that this pointer is not null. *)
Definition Onn_scanPixels_X (eAct : ActionType) (value : Z) (has_hub : bool)
    (c : MH_camera) : option (RetCode * MH_camera) :=
  let after_hub (c : MH_camera) :=
    if has_hub then Some (DEVICE_OK, c) else None in
  match eAct with
  | AfterSet =>
      if (value <? 16) || (33000 <? value) then Some (DEVICE_ERR, c)
      else if negb (value =? n_scanPixels_X_ c) then
        let c := set_n_scanPixels_X_ value c in
        let c := set_cameraCCDXSize_
                   (i32 (n_scanPixels_X_ c * n_beams_X_ c)) c in
        c ← resize_to_composite c; after_hub c
      else after_hub c
  | _ => after_hub c
  end.

Definition Onn_scanPixels_Y (eAct : ActionType) (value : Z) (c : MH_camera)
    : option (RetCode * MH_camera) :=
  match eAct with
  | AfterSet =>
      if (value <? 16) || (33000 <? value) then Some (DEVICE_ERR, c)
      else if negb (value =? n_scanPixels_Y_ c) then
        let c := set_n_scanPixels_Y_ value c in
        let c := set_cameraCCDYSize_
                   (i32 (n_scanPixels_Y_ c * n_beams_Y_ c)) c in
        c ← resize_to_composite c; Some (DEVICE_OK, c)
      else Some (DEVICE_OK, c)
  | _ => Some (DEVICE_OK, c)
  end.

(** ** Predicates of the further properties *)

(** The number of records of a batch whose channel field is [ch]. *)
Definition count_channel (ch : Z) (buffer : list Z) : Z :=
  Z.of_nat
    (length (filter (fun v => channel (Interpret_TTTR v) = ch) buffer)).

(** The composite image is the grid of beams, each of the scan size, and its
    sample indices fit an [int]. *)
Definition geometry_ok (c : MH_camera) : Prop :=
  0 < n_scanPixels_X_ c /\ 0 < n_scanPixels_Y_ c /\
  0 < n_beams_X_ c /\ 0 < n_beams_Y_ c /\
  cameraCCDXSize_ c = n_scanPixels_X_ c * n_beams_X_ c /\
  cameraCCDYSize_ c = n_scanPixels_Y_ c * n_beams_Y_ c /\
  cameraCCDXSize_ c * cameraCCDYSize_ c < 2 ^ 31.

(** Every element of the pixel array is a byte. *)
Definition bytes_ok (mem : list Z) : Prop :=
  Forall (fun b => 0 <= b < 256) mem.

(** The pixel array holds one sample of the width named by the pixel-type
    property for every pixel of the composite image. *)
Definition buffer_ok (c : MH_camera) : Prop :=
  bytes_ok (GetPixels (img_ c)) /\
  ((PixelType c = g_PixelType_8bit /\
    Z.of_nat (length (GetPixels (img_ c)))
    = cameraCCDXSize_ c * cameraCCDYSize_ c) \/
   (PixelType c = g_PixelType_16bit /\
    Z.of_nat (length (GetPixels (img_ c)))
    = 2 * (cameraCCDXSize_ c * cameraCCDYSize_ c))).

(** The sample at index [i], of the width named by the pixel-type
    property. *)
Definition sample (c : MH_camera) (i : Z) : option Z :=
  if String.eqb (PixelType c) g_PixelType_8bit
  then load8 (GetPixels (img_ c)) i
  else load16 (GetPixels (img_ c)) i.

Definition ceiling (c : MH_camera) : Z :=
  if String.eqb (PixelType c) g_PixelType_8bit then 255 else 65535.

(** [bytes_ok] as a test. *)
Definition bytes_okb (mem : list Z) : bool :=
  forallb (fun b => (0 <=? b) && (b <? 256)) mem.

(** The members that configure the camera and the shape of its buffer. *)
Definition same_configuration (c c' : MH_camera) : Prop :=
  bitDepth_ c' = bitDepth_ c /\
  nComponents_ c' = nComponents_ c /\
  binSize_ c' = binSize_ c /\
  n_scanPixels_X_ c' = n_scanPixels_X_ c /\
  n_scanPixels_Y_ c' = n_scanPixels_Y_ c /\
  n_beams_X_ c' = n_beams_X_ c /\
  n_beams_Y_ c' = n_beams_Y_ c /\
  cameraCCDXSize_ c' = cameraCCDXSize_ c /\
  cameraCCDYSize_ c' = cameraCCDYSize_ c /\
  MeasDesc_GlobalResolution_ c' = MeasDesc_GlobalResolution_ c /\
  n_frame_repeats_ c' = n_frame_repeats_ c /\
  PixelType c' = PixelType c /\
  Width (img_ c') = Width (img_ c) /\
  Height (img_ c') = Height (img_ c) /\
  Depth (img_ c') = Depth (img_ c) /\
  length (GetPixels (img_ c')) = length (GetPixels (img_ c)).

(** The pixel-type property names the depth of the buffer. *)
Definition pixel_type_consistent (c : MH_camera) : Prop :=
  (PixelType c = g_PixelType_8bit /\ Depth (img_ c) = 1) \/
  (PixelType c = g_PixelType_16bit /\ Depth (img_ c) = 2).

(** The beam and scan counts are in the ranges their handlers accept and
    the composite size is their product. *)
Definition axes_ok (c : MH_camera) : Prop :=
  1 <= n_beams_X_ c <= 8 /\ 1 <= n_beams_Y_ c <= 8 /\
  16 <= n_scanPixels_X_ c <= 33000 /\ 16 <= n_scanPixels_Y_ c <= 33000 /\
  cameraCCDXSize_ c = n_scanPixels_X_ c * n_beams_X_ c /\
  cameraCCDYSize_ c = n_scanPixels_Y_ c * n_beams_Y_ c.

(** The buffer has the composite size over the binning, and its pixel array
    the matching length. *)
Definition full_frame (c : MH_camera) : Prop :=
  0 < binSize_ c /\
  Width (img_ c) = cameraCCDXSize_ c / binSize_ c /\
  Height (img_ c) = cameraCCDYSize_ c / binSize_ c /\
  length (GetPixels (img_ c))
  = Z.to_nat (Width (img_ c) * Height (img_ c) * Depth (img_ c)).

(** * Further parts of the adapter *)

(** How a call that loops ends: it returns a value, or it is still in its
    loop after the rounds that were looked at. *)
Inductive Run (A : Type) :=
| Returned (a : A)
| Running.

Arguments Returned {A} a.
Arguments Running {A}.

(** ** [start_acq] as a whole *)

(** What the hardware and the file system answer in one round of the
    [while] loop: the return code of [MH_GetFlags] and whether the flags
    have [FLAG_FIFOFULL] set, the return code of [MH_ReadFiFo] and the
    [nRecords] records it put into [buffer], whether [fwrite] wrote them
    all, and the return code and the status of [MH_CTCStatus]. *)
Record Poll := mkPoll {
  GetFlags_retcode : Z;
  flags_FIFOFULL : bool;
  ReadFiFo_retcode : Z;
  ReadFiFo_buffer : list Z;
  fwrite_ok : bool;
  CTCStatus_retcode : Z;
  ctcstatus : Z
}.

(** Where the [while] loop is left: at one of the two labels, or not at all
    within the rounds given. *)
Inductive LoopExit :=
| goto_stoptttr
| goto_fail
| still_polling.

(** Lines 3019-3103.  [polls] are the answers of the rounds to come. *)
Fixpoint start_acq_loop (saving_ : bool) (polls : list Poll) (c : MH_camera)
    : option (LoopExit * MH_camera) :=
  match polls with
  | [] => Some (still_polling, c)
  | p :: polls =>
      if GetFlags_retcode p <? 0 then Some (goto_fail, c)
      else if flags_FIFOFULL p then Some (goto_stoptttr, c)
      else if ReadFiFo_retcode p <? 0 then Some (goto_stoptttr, c)
      else if negb (Z.of_nat (length (ReadFiFo_buffer p)) =? 0) then
        c ← start_acq_batch (ReadFiFo_buffer p) c;
        if saving_ && negb (fwrite_ok p) then Some (goto_stoptttr, c)
        else start_acq_loop saving_ polls c
      else if CTCStatus_retcode p <? 0 then Some (goto_fail, c)
      else if negb (ctcstatus p =? 0) then Some (goto_stoptttr, c)
      else start_acq_loop saving_ polls c
  end.

(** The member [FILE* fpout] ([MHCam.h], line 381).  No constructor gives it
    a value, [fopen] in [start_acq] is the only assignment to it, and
    [fclose] leaves it pointing to the closed stream. *)
Inductive FILE_ptr :=
| fpout_indeterminate
| fpout_NULL
| fpout_open
| fpout_closed.

(** Lines 3126-3145, from the label [fail] on: with [saving_] set,
    [if (fpout) fclose(fpout)].  Reading a pointer that never got a value,
    and closing a stream that is closed already, are undefined. *)
Definition start_acq_fail (saving_ : bool) (fpout : FILE_ptr) (c : MH_camera)
    : option (Run RetCode * FILE_ptr * MH_camera) :=
  let c := set_current_line_ (-99) c in
  if saving_ then
    match fpout with
    | fpout_indeterminate => None
    | fpout_NULL => Some (Returned DEVICE_OK, fpout_NULL, c)
    | fpout_open => Some (Returned DEVICE_OK, fpout_closed, c)
    | fpout_closed => None
    end
  else Some (Returned DEVICE_OK, fpout, c).

(** [start_acq]: [StartMeas_retcode] is the return code of [MH_StartMeas],
    [fopen_ok] says that the output file could be opened, and [fpout] is the
    file pointer as the calls before have left it.  The result of
    [MH_StopMeas] is only logged, so both labels lead to the same end.  The
    function returns [DEVICE_OK] when it returns; it is [Running] when the
    loop has not been left after the last of [polls].  The exposure that
    [GetExposure] gives is taken to fit an [int]. *)
Definition start_acq (StartMeas_retcode : Z) (saving_ fopen_ok : bool)
    (fpout : FILE_ptr) (polls : list Poll) (c : MH_camera)
    : option (Run RetCode * FILE_ptr * MH_camera) :=
  c ← start_acq_reset c;
  if StartMeas_retcode <? 0 then start_acq_fail saving_ fpout c
  else
    let fpout := if saving_
                 then (if fopen_ok then fpout_open else fpout_NULL)
                 else fpout in
    if saving_ && negb fopen_ok then start_acq_fail saving_ fpout c
    else
      '(exit, c) ← start_acq_loop saving_ polls c;
      match exit with
      | still_polling => Some (Running, fpout, c)
      | _ => start_acq_fail saving_ fpout c
      end.

(** The loop goes on after the round [p]. *)
Definition continues (saving_ : bool) (p : Poll) : bool :=
  (0 <=? GetFlags_retcode p) && negb (flags_FIFOFULL p) &&
  (0 <=? ReadFiFo_retcode p) &&
  match ReadFiFo_buffer p with
  | [] => (0 <=? CTCStatus_retcode p) && (ctcstatus p =? 0)
  | _ :: _ => negb saving_ || fwrite_ok p
  end.

(** The records of the round [p] that reach [TranslateRecord]. *)
Definition processed (p : Poll) : list Z :=
  if (0 <=? GetFlags_retcode p) && negb (flags_FIFOFULL p) &&
     (0 <=? ReadFiFo_retcode p)
  then ReadFiFo_buffer p else [].

(** A round that delivers [records], and one that finds the FIFO empty and
    the measurement time over. *)
Definition poll_records (records : list Z) : Poll :=
  mkPoll 0 false 0 records true 0 0.

Definition poll_done : Poll := mkPoll 0 false 0 [] true 0 1.

(** ** [GenerateMHTestPattern] *)

(** [rawShorts[i] = v] on bytes and on 16-bit samples; a write outside the
    array is undefined. *)
Definition write8 (mem : list Z) (i v : Z) : option (list Z) :=
  if (0 <=? i) && (i <? Z.of_nat (length mem))
  then Some (store8 mem i v) else None.

Definition write16 (mem : list Z) (i v : Z) : option (list Z) :=
  if (0 <=? i) && (2 * i + 1 <? Z.of_nat (length mem))
  then Some (store16 mem i v) else None.

Definition check_stride : Z := 50.

(** The two branches of [GenerateMHTestPattern] are the same loops, on
    [unsigned char] with [maxValue = 255] and on [unsigned short] with
    [maxValue = 65535]; [load], [write] and [cast] are the access to a
    sample and the conversion to its type.  The quotient by [check_stride]
    is [unsigned] and is converted to [int]; the index [x + y * width] is
    [unsigned]. *)
Definition pattern_pixel (load : list Z -> Z -> option Z)
    (write : list Z -> Z -> Z -> option (list Z)) (maxValue : Z)
    (cast : Z -> Z) (x y width : Z) (rawShorts : list Z) : option (list Z) :=
  if y =? 0 then
    if Z.rem (i32 (x ÷ check_stride)) 2 =? 0
    then write rawShorts x (cast 0)
    else write rawShorts x (cast maxValue)
  else
    if Z.rem (i32 (y ÷ check_stride)) 2 =? 0 then
      v ← load rawShorts x;
      write rawShorts (u32 (x + u32 (y * width))) (cast v)
    else
      v ← load rawShorts x;
      write rawShorts (u32 (x + u32 (y * width))) (cast (i32 (maxValue - v))).

(** The inner loop from [x] on, for [n] more pixels. *)
Fixpoint pattern_row (load : list Z -> Z -> option Z)
    (write : list Z -> Z -> Z -> option (list Z)) (maxValue : Z)
    (cast : Z -> Z) (n : nat) (x y width : Z) (rawShorts : list Z)
    : option (list Z) :=
  match n with
  | O => Some rawShorts
  | S n' =>
      rawShorts ← pattern_pixel load write maxValue cast x y width rawShorts;
      pattern_row load write maxValue cast n' (u32 (x + 1)) y width rawShorts
  end.

(** The outer loop from [y] on, for [n] more rows. *)
Fixpoint pattern_rows (load : list Z -> Z -> option Z)
    (write : list Z -> Z -> Z -> option (list Z)) (maxValue : Z)
    (cast : Z -> Z) (n : nat) (y width : Z) (rawShorts : list Z)
    : option (list Z) :=
  match n with
  | O => Some rawShorts
  | S n' =>
      rawShorts ← pattern_row load write maxValue cast (Z.to_nat width) 0 y
                    width rawShorts;
      pattern_rows load write maxValue cast n' (u32 (y + 1)) width rawShorts
  end.

(** [1 << GetBitDepth()] is evaluated first; a shift of an [int] by 32 or
    more is undefined. *)
Definition GenerateMHTestPattern (c : MH_camera) : option (bool * MH_camera) :=
  let width := Width (img_ c) in
  let height := Height (img_ c) in
  let pixelType := PixelType c in
  if 32 <=? u32 (bitDepth_ c) then None
  else if String.eqb pixelType g_PixelType_8bit then
    mem ← pattern_rows load8 write8 255 u8 (Z.to_nat height) 0 width
            (GetPixels (img_ c));
    Some (true, set_img_ (SetPixels mem (img_ c)) c)
  else if String.eqb pixelType g_PixelType_16bit then
    mem ← pattern_rows load16 write16 65535 u16 (Z.to_nat height) 0 width
            (GetPixels (img_ c));
    Some (true, set_img_ (SetPixels mem (img_ c)) c)
  else Some (true, c).

(** The buffer holds [Width * Height] samples of [Depth] bytes, and the
    sizes are those of [unsigned] values. *)
Definition buffer_shape (c : MH_camera) : Prop :=
  0 <= Width (img_ c) < 2 ^ 32 /\ 0 <= Height (img_ c) < 2 ^ 32 /\
  Width (img_ c) * Height (img_ c) < 2 ^ 32 /\
  Z.of_nat (length (GetPixels (img_ c)))
  = Width (img_ c) * Height (img_ c) * Depth (img_ c).

(** The value of the test pattern at column [x] of row [y]. *)
Definition checker (maxValue x y : Z) : Z :=
  if Z.even (x / check_stride + y / check_stride) then 0 else maxValue.

(** ** Regions of interest *)

(** The [ImgBuffer::Resize(xSize, ySize)] overload keeps the depth. *)
Definition Resize_xy (xSize ySize : Z) (img : ImgBuffer) : ImgBuffer :=
  Resize xSize ySize (Depth img).

(** The camera with the members of the region of interest: the origin and
    the four vectors of the multiple regions. *)
Record MH_camera_roi := mkMH_camera_roi {
  camera : MH_camera;
  roiX_ : Z;
  roiY_ : Z;
  multiROIXs_ : list Z;
  multiROIYs_ : list Z;
  multiROIWidths_ : list Z;
  multiROIHeights_ : list Z
}.

Definition clear_multiROI (s : MH_camera_roi) : MH_camera_roi :=
  {| camera := camera s; roiX_ := roiX_ s; roiY_ := roiY_ s;
     multiROIXs_ := []; multiROIYs_ := [];
     multiROIWidths_ := []; multiROIHeights_ := [] |}.

Definition set_camera (c : MH_camera) (s : MH_camera_roi) : MH_camera_roi :=
  {| camera := c; roiX_ := roiX_ s; roiY_ := roiY_ s;
     multiROIXs_ := multiROIXs_ s; multiROIYs_ := multiROIYs_ s;
     multiROIWidths_ := multiROIWidths_ s;
     multiROIHeights_ := multiROIHeights_ s |}.

Definition set_roi (x y : Z) (s : MH_camera_roi) : MH_camera_roi :=
  {| camera := camera s; roiX_ := x; roiY_ := y;
     multiROIXs_ := multiROIXs_ s; multiROIYs_ := multiROIYs_ s;
     multiROIWidths_ := multiROIWidths_ s;
     multiROIHeights_ := multiROIHeights_ s |}.

Definition push_back_multiROI (x y w h : Z) (s : MH_camera_roi)
    : MH_camera_roi :=
  {| camera := camera s; roiX_ := roiX_ s; roiY_ := roiY_ s;
     multiROIXs_ := multiROIXs_ s ++ [x]; multiROIYs_ := multiROIYs_ s ++ [y];
     multiROIWidths_ := multiROIWidths_ s ++ [w];
     multiROIHeights_ := multiROIHeights_ s ++ [h] |}.

(** The result of [ResizeImageBuffer] is not looked at. *)
Definition SetROI (x y xSize ySize : Z) (s : MH_camera_roi)
    : option (RetCode * MH_camera_roi) :=
  let s := clear_multiROI s in
  if (xSize =? 0) && (ySize =? 0) then
    '(_, c) ← ResizeImageBuffer (camera s);
    Some (DEVICE_OK, set_roi 0 0 (set_camera c s))
  else
    let c := set_img_ (Resize_xy xSize ySize (img_ (camera s))) (camera s) in
    Some (DEVICE_OK, set_roi x y (set_camera c s)).

(** The four out-parameters [x], [y], [xSize], [ySize], in this order. *)
Definition GetROI (s : MH_camera_roi) : RetCode * (Z * Z * Z * Z) :=
  (DEVICE_OK,
   (roiX_ s, roiY_ s, Width (img_ (camera s)), Height (img_ (camera s)))).

Definition ClearROI (s : MH_camera_roi) : option (RetCode * MH_camera_roi) :=
  '(_, c) ← ResizeImageBuffer (camera s);
  Some (DEVICE_OK, clear_multiROI (set_roi 0 0 (set_camera c s))).

Definition IsMultiROISet (s : MH_camera_roi) : bool :=
  Z.of_nat (length (multiROIXs_ s)) >? 0.

Definition GetMultiROICount (s : MH_camera_roi) : RetCode * Z :=
  (DEVICE_OK, u32 (Z.of_nat (length (multiROIXs_ s)))).

(** The locals [minX], [minY], [maxX], [maxY] of [SetMultiROI]. *)
Record Bounds := mkBounds {
  minX : Z;
  minY : Z;
  maxX : Z;
  maxY : Z
}.

Definition UINT_MAX : Z := 4294967295.

(** The [for] loop of [SetMultiROI] from index [i] on, for [n] more rounds.
    The four arrays are read at [i]; a read outside an array is undefined.
    The sums are [unsigned int]. *)
Fixpoint SetMultiROI_loop (n : nat) (i : Z) (xs ys widths heights : list Z)
    (s : MH_camera_roi) (b : Bounds) : option (MH_camera_roi * Bounds) :=
  match n with
  | O => Some (s, b)
  | S n' =>
      x ← xs !! Z.to_nat i;
      y ← ys !! Z.to_nat i;
      w ← widths !! Z.to_nat i;
      h ← heights !! Z.to_nat i;
      let s := push_back_multiROI x y w h s in
      let b := if minX b >? x then mkBounds x (minY b) (maxX b) (maxY b)
               else b in
      let b := if minY b >? y then mkBounds (minX b) y (maxX b) (maxY b)
               else b in
      let b := if u32 (x + w) >? maxX b
               then mkBounds (minX b) (minY b) (u32 (x + w)) (maxY b)
               else b in
      let b := if u32 (y + h) >? maxY b
               then mkBounds (minX b) (minY b) (maxX b) (u32 (y + h))
               else b in
      SetMultiROI_loop n' (u32 (i + 1)) xs ys widths heights s b
  end.

Definition SetMultiROI (xs ys widths heights : list Z) (numROIs : Z)
    (s : MH_camera_roi) : option (RetCode * MH_camera_roi) :=
  let s := clear_multiROI s in
  '(s, b) ← SetMultiROI_loop (Z.to_nat numROIs) 0 xs ys widths heights s
              (mkBounds UINT_MAX UINT_MAX 0 0);
  let c := set_img_ (Resize_xy (u32 (maxX b - minX b)) (u32 (maxY b - minY b))
                       (img_ (camera s))) (camera s) in
  Some (DEVICE_OK, set_roi (minX b) (minY b) (set_camera c s)).

(** Return codes of the host that the record pipeline does not use. *)
Inductive DeviceCode :=
| Code (r : RetCode)
| DEVICE_INTERNAL_INCONSISTENCY
| DEVICE_UNSUPPORTED_COMMAND.

(** [a[i] = v] on a caller's array; a write outside the array is
    undefined. *)
Definition array_set (a : list Z) (i v : Z) : option (list Z) :=
  if (0 <=? i) && (i <? Z.of_nat (length a))
  then Some (<[Z.to_nat i := v]> a) else None.

(** The four out-arrays and [*length] of [GetMultiROI]. *)
Record MultiROI_out := mkMultiROI_out {
  out_xs : list Z;
  out_ys : list Z;
  out_widths : list Z;
  out_heights : list Z;
  out_length : Z
}.

Fixpoint GetMultiROI_loop (n : nat) (i : Z) (s : MH_camera_roi)
    (o : MultiROI_out) : option MultiROI_out :=
  match n with
  | O => Some o
  | S n' =>
      x ← multiROIXs_ s !! Z.to_nat i;
      xs ← array_set (out_xs o) i x;
      y ← multiROIYs_ s !! Z.to_nat i;
      ys ← array_set (out_ys o) i y;
      w ← multiROIWidths_ s !! Z.to_nat i;
      widths ← array_set (out_widths o) i w;
      h ← multiROIHeights_ s !! Z.to_nat i;
      heights ← array_set (out_heights o) i h;
      GetMultiROI_loop n' (u32 (i + 1)) s
        (mkMultiROI_out xs ys widths heights (out_length o))
  end.

Definition GetMultiROI (o : MultiROI_out) (s : MH_camera_roi)
    : option (DeviceCode * MultiROI_out) :=
  let roiCount := u32 (Z.of_nat (length (multiROIXs_ s))) in
  if roiCount >? out_length o then Some (DEVICE_INTERNAL_INCONSISTENCY, o)
  else
    o ← GetMultiROI_loop (Z.to_nat roiCount) 0 s o;
    Some (Code DEVICE_OK,
          mkMultiROI_out (out_xs o) (out_ys o) (out_widths o) (out_heights o)
            roiCount).

(** A region starts and ends inside the [unsigned int] range. *)
Definition region_ok (x w : Z) : Prop := 0 <= x /\ 0 <= w /\ x + w < 2 ^ 32.

(** The state and the bounds after the [for] loop of [SetMultiROI] has run
    over the regions [xs], [ys], [widths], [heights]. *)
Definition multiROI_pushed (xs ys widths heights : list Z)
    (s : MH_camera_roi) : MH_camera_roi :=
  {| camera := camera s; roiX_ := roiX_ s; roiY_ := roiY_ s;
     multiROIXs_ := multiROIXs_ s ++ xs; multiROIYs_ := multiROIYs_ s ++ ys;
     multiROIWidths_ := multiROIWidths_ s ++ widths;
     multiROIHeights_ := multiROIHeights_ s ++ heights |}.

Definition bounds_of (xs ys widths heights : list Z) (b : Bounds) : Bounds :=
  {| minX := fold_left Z.min xs (minX b);
     minY := fold_left Z.min ys (minY b);
     maxX := fold_left Z.max (map u32 (zip_with Z.add xs widths)) (maxX b);
     maxY := fold_left Z.max (map u32 (zip_with Z.add ys heights)) (maxY b) |}.

(** The camera after the constructor and [Initialize]: no region is set. *)
Definition MH_camera_roi_initialized : MH_camera_roi :=
  {| camera := MH_camera_initialized; roiX_ := 0; roiY_ := 0;
     multiROIXs_ := []; multiROIYs_ := [];
     multiROIWidths_ := []; multiROIHeights_ := [] |}.

(** The caller's array [dst] after elements [i] to [i + n - 1] of [src] have
    been copied to the same indices. *)
Definition copied (i n : nat) (src dst : list Z) : list Z :=
  take i dst ++ take n (drop i src) ++ drop (i + n) dst.

(** ** Exposure sequences *)

Section ExposureSequence.

(** The exposures are [double] values that the adapter stores and hands
    back without computing on them. *)
Variable double : Type.

Record MH_camera_sequence := mkMH_camera_sequence {
  isSequenceable_ : bool;
  sequenceMaxLength_ : Z;
  sequenceRunning_ : bool;
  sequenceIndex_ : Z;
  exposureSequence_ : list double
}.

Definition set_isSequenceable_ (v : bool) (s : MH_camera_sequence)
    : MH_camera_sequence :=
  mkMH_camera_sequence v (sequenceMaxLength_ s) (sequenceRunning_ s)
    (sequenceIndex_ s) (exposureSequence_ s).

Definition set_sequenceRunning_ (v : bool) (s : MH_camera_sequence)
    : MH_camera_sequence :=
  mkMH_camera_sequence (isSequenceable_ s) (sequenceMaxLength_ s) v
    (sequenceIndex_ s) (exposureSequence_ s).

Definition set_sequenceIndex_ (v : Z) (s : MH_camera_sequence)
    : MH_camera_sequence :=
  mkMH_camera_sequence (isSequenceable_ s) (sequenceMaxLength_ s)
    (sequenceRunning_ s) v (exposureSequence_ s).

Definition set_exposureSequence_ (v : list double) (s : MH_camera_sequence)
    : MH_camera_sequence :=
  mkMH_camera_sequence (isSequenceable_ s) (sequenceMaxLength_ s)
    (sequenceRunning_ s) (sequenceIndex_ s) v.

(** [GetExposure] is the value that [GetExposure()] returns.
    [exposureSequence_[sequenceIndex_]] outside the vector is undefined;
    [sequenceIndex_] is an [unsigned long]. *)
Definition GetSequenceExposure (GetExposure : double)
    (s : MH_camera_sequence) : option (double * MH_camera_sequence) :=
  if Z.of_nat (length (exposureSequence_ s)) =? 0 then Some (GetExposure, s)
  else
    exposure ← exposureSequence_ s !! Z.to_nat (sequenceIndex_ s);
    let s := set_sequenceIndex_ (u32 (sequenceIndex_ s + 1)) s in
    let s := if sequenceIndex_ s >=? Z.of_nat (length (exposureSequence_ s))
             then set_sequenceIndex_ 0 s else s in
    Some (exposure, s).

Definition IsExposureSequenceable (s : MH_camera_sequence) : RetCode * bool :=
  (DEVICE_OK, isSequenceable_ s).

(** [nrEvents] is written only when the command is supported. *)
Definition GetExposureSequenceMaxLength (nrEvents : Z)
    (s : MH_camera_sequence) : DeviceCode * Z :=
  if negb (isSequenceable_ s) then (DEVICE_UNSUPPORTED_COMMAND, nrEvents)
  else (Code DEVICE_OK, sequenceMaxLength_ s).

Definition StartExposureSequence (s : MH_camera_sequence)
    : DeviceCode * MH_camera_sequence :=
  if negb (isSequenceable_ s) then (DEVICE_UNSUPPORTED_COMMAND, s)
  else (Code DEVICE_OK, set_sequenceRunning_ true s).

Definition StopExposureSequence (s : MH_camera_sequence)
    : DeviceCode * MH_camera_sequence :=
  if negb (isSequenceable_ s) then (DEVICE_UNSUPPORTED_COMMAND, s)
  else
    (Code DEVICE_OK, set_sequenceIndex_ 0 (set_sequenceRunning_ false s)).

Definition ClearExposureSequence (s : MH_camera_sequence)
    : DeviceCode * MH_camera_sequence :=
  if negb (isSequenceable_ s) then (DEVICE_UNSUPPORTED_COMMAND, s)
  else (Code DEVICE_OK, set_exposureSequence_ [] s).

Definition AddToExposureSequence (exposureTime_ms : double)
    (s : MH_camera_sequence) : DeviceCode * MH_camera_sequence :=
  if negb (isSequenceable_ s) then (DEVICE_UNSUPPORTED_COMMAND, s)
  else
    (Code DEVICE_OK,
     set_exposureSequence_ (exposureSequence_ s ++ [exposureTime_ms]) s).

Definition SendExposureSequence (s : MH_camera_sequence) : DeviceCode :=
  if negb (isSequenceable_ s) then DEVICE_UNSUPPORTED_COMMAND
  else Code DEVICE_OK.

(** [OnIsSequenceable]: the second component is the value of the property
    after the call. *)
Definition OnIsSequenceable (eAct : ActionType) (value : string)
    (s : MH_camera_sequence) : RetCode * string * MH_camera_sequence :=
  match eAct with
  | BeforeGet =>
      (DEVICE_OK, if negb (isSequenceable_ s) then "No" else "Yes", s)%string
  | AfterSet =>
      let s := set_isSequenceable_ false s in
      let s := if String.eqb value "Yes" then set_isSequenceable_ true s
               else s in
      (DEVICE_OK, value, s)
  | OtherAction => (DEVICE_OK, value, s)
  end.

(** [k] calls of [GetSequenceExposure] in a row, with the exposures they
    return. *)
Fixpoint GetSequenceExposure_times (k : nat) (GetExposure : double)
    (s : MH_camera_sequence) : option (list double * MH_camera_sequence) :=
  match k with
  | O => Some ([], s)
  | S k' =>
      '(exposure, s) ← GetSequenceExposure GetExposure s;
      '(exposures, s) ← GetSequenceExposure_times k' GetExposure s;
      Some (exposure :: exposures, s)
  end.

(** [AddToExposureSequence] for each of [exposures], in order. *)
Definition AddToExposureSequence_all (exposures : list double)
    (s : MH_camera_sequence) : MH_camera_sequence :=
  foldl (fun s exposureTime_ms => (AddToExposureSequence exposureTime_ms s).2)
    s exposures.

End ExposureSequence.

Arguments isSequenceable_ {double} _.
Arguments sequenceMaxLength_ {double} _.
Arguments sequenceRunning_ {double} _.
Arguments sequenceIndex_ {double} _.
Arguments exposureSequence_ {double} _.
Arguments mkMH_camera_sequence {double} _ _ _ _ _.
Arguments set_isSequenceable_ {double} _ _.
Arguments set_sequenceRunning_ {double} _ _.
Arguments set_sequenceIndex_ {double} _ _.
Arguments set_exposureSequence_ {double} _ _.
Arguments GetSequenceExposure {double} _ _.
Arguments IsExposureSequenceable {double} _.
Arguments GetExposureSequenceMaxLength {double} _ _.
Arguments StartExposureSequence {double} _.
Arguments StopExposureSequence {double} _.
Arguments ClearExposureSequence {double} _.
Arguments AddToExposureSequence {double} _ _.
Arguments SendExposureSequence {double} _.
Arguments OnIsSequenceable {double} _ _ _.
Arguments GetSequenceExposure_times {double} _ _ _.
Arguments AddToExposureSequence_all {double} _ _.

(** ** The mode and the decay-or-rates handlers *)

Definition g_MH_Test : string := "MH Test Pattern".
Definition g_MH_Histo : string := "MH Histogram".
Definition g_MH_Image : string := "MH Image".
Definition MODE_MH_TEST : Z := 0.
Definition MODE_MH_HISTO : Z := 1.
Definition MODE_MH_IMAGE : Z := 2.

(** The handlers below take the value of the property and the member they
    govern, and return both after the call. *)
Definition OnMode (eAct : ActionType) (value : string) (mode_ : Z)
    : RetCode * string * Z :=
  match eAct with
  | BeforeGet =>
      let val :=
        if mode_ =? MODE_MH_TEST then g_MH_Test
        else if mode_ =? MODE_MH_HISTO then g_MH_Histo
        else if mode_ =? MODE_MH_IMAGE then g_MH_Image
        else g_MH_Test in
      (DEVICE_OK, val, mode_)
  | AfterSet =>
      let val := value in
      if String.eqb val g_MH_Test then (DEVICE_OK, value, MODE_MH_TEST)
      else if String.eqb val g_MH_Histo then (DEVICE_OK, value, MODE_MH_HISTO)
      else if String.eqb val g_MH_Image then (DEVICE_OK, value, MODE_MH_IMAGE)
      else (DEVICE_OK, value, MODE_MH_TEST)
  | OtherAction => (DEVICE_OK, value, mode_)
  end.

Definition OnDecOrRat (eAct : ActionType) (value : string)
    (rates_or_decays_ : bool) : RetCode * string * bool :=
  match eAct with
  | BeforeGet =>
      let current_val := if rates_or_decays_ then "Rates" else "Decays" in
      (DEVICE_OK, current_val, rates_or_decays_)%string
  | AfterSet =>
      let choice := value in
      if String.eqb choice "Decay" then (DEVICE_OK, value, false)
      else (DEVICE_OK, value, true)
  | OtherAction => (DEVICE_OK, value, rates_or_decays_)
  end.

(** ** The string utilities of [SocketGalvo] *)

(** [source.find(target)]: the position of the first occurrence, [None] for
    [string::npos]. *)
Definition find (source target : string) : option nat :=
  String.index 0 target source.

(** [destination.replace(pos, len, replacement)] for [pos] within
    [destination]; it throws [std::out_of_range] otherwise, which is
    [None]. *)
Definition replace (pos len : nat) (replacement destination : string)
    : option string :=
  if (String.length destination <? pos)%nat then None
  else
    Some (String.append (String.substring 0 pos destination)
            (String.append replacement
               (String.substring (pos + len)
                  (String.length destination - (pos + len)) destination))).

(** The [while] loop of [replace_str] for at most [rounds] rounds.  The
    condition looks at [source], the body changes [destination]. *)
Fixpoint replace_str_loop (rounds : nat) (source target replacement
    destination : string) : option (Run string) :=
  match find source target with
  | None => Some (Returned destination)
  | Some pos =>
      match rounds with
      | O => Some Running
      | S rounds' =>
          destination ← replace pos (String.length target) replacement
                          destination;
          replace_str_loop rounds' source target replacement destination
      end
  end.

Definition replace_str (rounds : nat) (source target replacement : string)
    : option (Run string) :=
  replace_str_loop rounds source target replacement source.

(** [prep_json]: the eight calls of [replace_str], whose results are
    dropped; [calls] pairs each placeholder with the [std::to_string] of the
    argument that goes with it. *)
Fixpoint prep_json_calls (rounds : nat) (json_output : string)
    (calls : list (string * string)) : option (Run string) :=
  match calls with
  | [] => Some (Returned json_output)
  | (target, replacement) :: calls =>
      r ← replace_str rounds json_output target replacement;
      match r with
      | Returned _ => prep_json_calls rounds json_output calls
      | Running => Some Running
      end
  end.

Definition prep_json (rounds : nat) (json_template : string)
    (scan_pixels_per_axis_X scan_pixels_per_axis_Y microns_per_pixel
     time_per_image n_images flyback_fraction magnification
     scans_per_image : string) : option (Run string) :=
  let json_output := json_template in
  prep_json_calls rounds json_output
    [("p_p_a_X_value", scan_pixels_per_axis_X);
     ("p_p_a_Y_value", scan_pixels_per_axis_Y);
     ("m_p_p_value", microns_per_pixel);
     ("t_p_i_value", time_per_image);
     ("n_im_value", n_images);
     ("f_frac_value", flyback_fraction);
     ("mag_value", magnification);
     ("s_p_i_value", scans_per_image)]%string.

(** The template that [SocketGalvo::Initialize] sets; [dq] is the double
    quote. *)
Definition dq : string := String (Ascii.ascii_of_nat 34) EmptyString.

Definition json_template_ : string :=
  String.concat dq
    ["{"; "pixels_per_axisX"; ":p_p_a_X_value,"; "microns_per_pixel";
     ":m_p_p_value,"; "time_per_image"; ":t_p_i_value,"; "images";
     ":n_im_value,"; "flyback_fraction"; ":f_frac_value,"; "magnification";
     ":mag_value,"; "scans_per_image"; ":s_p_i_value,"; "pixels_per_axisY";
     ":p_p_a_Y_value}"]%string.

(** The placeholders of [prep_json] that occur in a template. *)
Definition occurring (json_template : string) : list string :=
  filter (fun target => is_Some (find json_template target))
    ["p_p_a_X_value"; "p_p_a_Y_value"; "m_p_p_value"; "t_p_i_value";
     "n_im_value"; "f_frac_value"; "mag_value"; "s_p_i_value"]%string.

(** ** [send_on_socket]: the frame of a message *)

(** [std::to_string] of an [int]: its decimal digits, after a minus sign
    for a negative one. *)
Definition to_string (n : Z) : string :=
  NilZero.string_of_int (Z.to_int n).

(** [count] copies of the character ['0']. *)
Fixpoint zeros (count : nat) : string :=
  match count with
  | O => EmptyString
  | S count' => String (Ascii.ascii_of_nat 48) (zeros count')
  end.

(** What [strlen] measures: the characters before the first NUL. *)
Fixpoint c_str (s : string) : string :=
  match s with
  | EmptyString => EmptyString
  | String ch s' =>
      if Ascii.eqb ch Ascii.zero then EmptyString else String ch (c_str s')
  end.

Definition CRLF : string :=
  String (Ascii.ascii_of_nat 13) (String (Ascii.ascii_of_nat 10) EmptyString).

(** [number_of_zeros] is [unsigned int]: [4 - cmd_len_padded.length()] wraps
    when the length has more than four digits. *)
Definition number_of_zeros (message_string : string) : Z :=
  let cmd_len := i32 (Z.of_nat (String.length message_string)) in
  let cmd_len_padded := to_string cmd_len in
  u32 (4 - Z.of_nat (String.length cmd_len_padded)).

(** The bytes that [send_on_socket] hands to [send], and its return value.
    The results of [WSAStartup], [socket], [connect] and [send] are only
    written to [std::cerr]. *)
Definition send_on_socket (message_string : string) : string * Z :=
  let cmd_len := i32 (Z.of_nat (String.length message_string)) in
  let cmd_len_padded := to_string cmd_len in
  let cmd_len_padded :=
    String.append (zeros (Z.to_nat (number_of_zeros message_string)))
      cmd_len_padded in
  let message_string :=
    String.append cmd_len_padded (String.append message_string CRLF) in
  (c_str message_string, 0).

(** Reading a decimal number, as the receiver of a frame does with its
    first four bytes. *)
Definition read_decimal (s : string) : option Z :=
  Z.of_uint <$> NilEmpty.uint_of_string s.

(** The length field that [send_on_socket] builds for [cmd_len]. *)
Definition length_field (cmd_len : Z) : string :=
  let digits := to_string cmd_len in
  String.append
    (zeros (Z.to_nat (u32 (4 - Z.of_nat (String.length digits))))) digits.

Definition length_field_ok (cmd_len : Z) : bool :=
  Nat.eqb (String.length (length_field cmd_len)) 4 &&
  String.eqb (c_str (length_field cmd_len)) (length_field cmd_len) &&
  bool_decide (read_decimal (length_field cmd_len) = Some cmd_len).

Definition five_digits (cmd_len : Z) : bool :=
  Nat.eqb (String.length (to_string cmd_len)) 5.

(** [P] holds for the [count] integers from [start] on. *)
Fixpoint all_from (P : Z -> bool) (start : Z) (count : nat) : bool :=
  match count with
  | O => true
  | S count' => P start && all_from P (start + 1) count'
  end.

(** ** The scan-status handler of [SocketGalvo] *)

Definition sg_command_template_ : string := "command1".

(** [start_scan]: the frame handed to [send], and [DEVICE_OK]. *)
Definition start_scan : string * RetCode :=
  ((send_on_socket sg_command_template_).1, DEVICE_OK).

(** The state that [On_SG_Status] works on: the value of the property,
    [SG_Status_] and the frames sent so far, the latest first. *)
Record SocketGalvo := mkSocketGalvo {
  ScanStatus : string;
  SG_Status_ : Z;
  sent : list string
}.

(** [OnPropertiesChanged_ret] is what the host's [OnPropertiesChanged]
    returns; the handler returns it when it is not [DEVICE_OK], and
    [DEVICE_OK] when it is. *)
Definition On_SG_Status (eAct : ActionType) (OnPropertiesChanged_ret : RetCode)
    (g : SocketGalvo) : RetCode * SocketGalvo :=
  match eAct with
  | BeforeGet =>
      if SG_Status_ g =? 0
      then (DEVICE_OK, mkSocketGalvo "Idle" (SG_Status_ g) (sent g))
      else if SG_Status_ g =? 1
      then (DEVICE_OK, mkSocketGalvo "Running" (SG_Status_ g) (sent g))
      else if SG_Status_ g =? 2
      then (DEVICE_OK, mkSocketGalvo "Start" (SG_Status_ g) (sent g))
      else (DEVICE_OK, mkSocketGalvo "Idle" (SG_Status_ g) (sent g))
  | AfterSet =>
      let SG_Status_str := ScanStatus g in
      let g :=
        if String.eqb SG_Status_str "Idle"
        then mkSocketGalvo "Idle" (SG_Status_ g) (sent g)
        else if String.eqb SG_Status_str "Running"
        then mkSocketGalvo "Idle" 1 (start_scan.1 :: sent g)
        else if String.eqb SG_Status_str "Start"
        then mkSocketGalvo "Running" 1 (sent g)
        else mkSocketGalvo (ScanStatus g) 0 (sent g) in
      (OnPropertiesChanged_ret, g)
  | OtherAction => (DEVICE_OK, g)
  end.

(** The host sets the property to [value] and calls the handler. *)
Definition set_ScanStatus (value : string) (g : SocketGalvo) : SocketGalvo :=
  (On_SG_Status AfterSet DEVICE_OK
     (mkSocketGalvo value (SG_Status_ g) (sent g))).2.

(** The values that [Initialize] allows for the property. *)
Definition ScanStatus_allowed (value : string) : Prop :=
  value = "Idle"%string \/ value = "Running"%string \/ value = "Start"%string.

(** ** The sequence thread *)

(** What one round of the [do] loop of [MySequenceThread::svc] meets: the
    return code of [RunSequenceOnThread] and the answer of [IsStopped]. *)
Record Frame := mkFrame {
  RunSequenceOnThread_ret : RetCode;
  IsStopped : bool
}.

Definition is_DEVICE_OK (ret : RetCode) : bool :=
  match ret with
  | DEVICE_OK => true
  | _ => false
  end.

(** The [do] loop, on the answers of the rounds to come: the return code
    of the last round, the counter of the thread and the number of rounds
    run.  The counter is incremented only when it is compared;
    [numImages_ - 1] is [long] arithmetic. *)
Fixpoint svc_loop (frames : list Frame) (numImages_ imageCounter_ : Z)
    (rounds : Z) : Run (RetCode * Z * Z) :=
  match frames with
  | [] => Running
  | f :: frames =>
      let ret := RunSequenceOnThread_ret f in
      let rounds := rounds + 1 in
      if is_DEVICE_OK ret && negb (IsStopped f) then
        let again := imageCounter_ <? i32 (numImages_ - 1) in
        let imageCounter_ := i32 (imageCounter_ + 1) in
        if again then svc_loop frames numImages_ imageCounter_ rounds
        else Returned (ret, imageCounter_, rounds)
      else Returned (ret, imageCounter_, rounds)
  end.

(** [MySequenceThread::svc] after [Start(numImages, intervalMs)], which
    sets the counter to 0. *)
Definition svc (numImages : Z) (frames : list Frame)
    : Run (RetCode * Z * Z) :=
  svc_loop frames numImages 0 0.

(** A round that succeeds while the thread is not stopped. *)
Definition frame_ok : Frame := mkFrame DEVICE_OK false.

(** ** The status and the saving handlers *)

(** The members behind the two properties: the status of the measurement,
    and whether the records are saved to a file; with them the file pointer
    that [start_acq] uses when they are. *)
Record MH_control := mkMH_control {
  MH_Status_ : Z;
  MH_Saving_ : Z;
  saving_ : bool;
  fpout : FILE_ptr
}.

Definition set_MH_Status_ (v : Z) (m : MH_control) : MH_control :=
  mkMH_control v (MH_Saving_ m) (saving_ m) (fpout m).

Definition set_MH_Saving_ (v : Z) (m : MH_control) : MH_control :=
  mkMH_control (MH_Status_ m) v (saving_ m) (fpout m).

Definition set_saving_ (v : bool) (m : MH_control) : MH_control :=
  mkMH_control (MH_Status_ m) (MH_Saving_ m) v (fpout m).

Definition set_fpout (v : FILE_ptr) (m : MH_control) : MH_control :=
  mkMH_control (MH_Status_ m) (MH_Saving_ m) (saving_ m) v.

(** [On_MH_Status]: [value] is the value of the property, and the second
    component of the result its value after the call.  Setting [Start] calls
    [start_acq], with the answers of the hardware to it, and its result is
    dropped; the handler returns what the host's [OnPropertiesChanged]
    returns. *)
Definition On_MH_Status (eAct : ActionType) (value : string)
    (StartMeas_retcode : Z) (fopen_ok : bool) (polls : list Poll)
    (OnPropertiesChanged_ret : RetCode) (m : MH_control) (c : MH_camera)
    : option (Run RetCode * string * MH_control * MH_camera) :=
  match eAct with
  | BeforeGet =>
      let shown :=
        if MH_Status_ m =? 0 then "Idle"
        else if MH_Status_ m =? 1 then "Start"
        else if MH_Status_ m =? 2 then "Running"
        else if MH_Status_ m =? 3 then "Abort"
        else "Idle" in
      Some (Returned DEVICE_OK, shown, m, c)
  | AfterSet =>
      let MH_Status_str := value in
      if String.eqb MH_Status_str "Idle" then
        Some (Returned OnPropertiesChanged_ret, "Idle", set_MH_Status_ 0 m, c)
      else if String.eqb MH_Status_str "Start" then
        let m := set_MH_Status_ 2 m in
        '(r, f, c) ← start_acq StartMeas_retcode (saving_ m) fopen_ok
                       (fpout m) polls c;
        let m := set_fpout f m in
        match r with
        | Returned _ =>
            Some (Returned OnPropertiesChanged_ret, "Running", m, c)
        | Running => Some (Running, "Running", m, c)
        end
      else if String.eqb MH_Status_str "Running" then
        Some (Returned OnPropertiesChanged_ret, "Idle", set_MH_Status_ 2 m, c)
      else if String.eqb MH_Status_str "Abort" then
        Some (Returned OnPropertiesChanged_ret, "Idle", set_MH_Status_ 0 m, c)
      else
        Some (Returned OnPropertiesChanged_ret, value, set_MH_Status_ 0 m, c)
  | OtherAction => Some (Returned DEVICE_OK, value, m, c)
  end.

(** [On_Save_Enable]; its last branch assigns [MH_Status_]. *)
Definition On_Save_Enable (eAct : ActionType) (value : string)
    (OnPropertiesChanged_ret : RetCode) (m : MH_control)
    : RetCode * string * MH_control :=
  match eAct with
  | BeforeGet =>
      if MH_Saving_ m =? 0 then (DEVICE_OK, "False", set_saving_ false m)
      else if MH_Saving_ m =? 1 then (DEVICE_OK, "True", set_saving_ true m)
      else (DEVICE_OK, "False", set_saving_ false m)
  | AfterSet =>
      let MH_Saving_str := value in
      if String.eqb MH_Saving_str "False" then
        (OnPropertiesChanged_ret, "False",
         set_saving_ false (set_MH_Saving_ 0 m))
      else if String.eqb MH_Saving_str "True" then
        (OnPropertiesChanged_ret, "True",
         set_saving_ true (set_MH_Saving_ 1 m))
      else (OnPropertiesChanged_ret, value, set_MH_Status_ 0 m)
  | OtherAction => (DEVICE_OK, value, m)
  end.

(** A call of one of the two handlers by the host. *)
Inductive PropertyCall :=
| call_MH_Status (eAct : ActionType) (value : string)
    (StartMeas_retcode : Z) (fopen_ok : bool) (polls : list Poll)
    (OnPropertiesChanged_ret : RetCode)
| call_Save_Enable (eAct : ActionType) (value : string)
    (OnPropertiesChanged_ret : RetCode).

(** The calls of the host one after the other; a call that has not returned
    is the last one. *)
Fixpoint property_calls (calls : list PropertyCall) (m : MH_control)
    (c : MH_camera) : option (Run unit * MH_control * MH_camera) :=
  match calls with
  | [] => Some (Returned (), m, c)
  | call_MH_Status eAct value StartMeas_retcode fopen_ok polls ret :: calls =>
      '(r, _, m, c) ← On_MH_Status eAct value StartMeas_retcode fopen_ok
                        polls ret m c;
      match r with
      | Returned _ => property_calls calls m c
      | Running => Some (Running, m, c)
      end
  | call_Save_Enable eAct value ret :: calls =>
      let '(_, _, m) := On_Save_Enable eAct value ret m in
      property_calls calls m c
  end.

(** The status is idle or running, and [saving_] says what [MH_Saving_]
    says. *)
Definition control_ok (m : MH_control) : Prop :=
  (MH_Status_ m = 0 \/ MH_Status_ m = 2) /\
  (MH_Saving_ m = 0 \/ MH_Saving_ m = 1) /\
  saving_ m = (MH_Saving_ m =? 1).

(** ** [SnapImage] *)

(** [GenerateMHImage] evaluates [1 << GetBitDepth()] and returns [true]. *)
Definition GenerateMHImage (c : MH_camera) : option (bool * MH_camera) :=
  if 32 <=? u32 (bitDepth_ c) then None else Some (true, c).

(** [GenerateSyntheticImage]: [GenerateMHHisto] works on floating-point
    numbers and is taken as given.  What follows the three modes reads the
    pixel type and the size of the buffer and changes nothing. *)
Definition GenerateSyntheticImage
    (GenerateMHHisto : MH_camera -> option (bool * MH_camera)) (mode_ : Z)
    (c : MH_camera) : option MH_camera :=
  if mode_ =? MODE_MH_TEST then
    '(_, c) ← GenerateMHTestPattern c; Some c
  else if mode_ =? MODE_MH_HISTO then
    '(_, c) ← GenerateMHHisto c; Some c
  else if mode_ =? MODE_MH_IMAGE then
    '(_, c) ← GenerateMHImage c; Some c
  else Some c.

Section SnapImage.

Variable double : Type.

(** [a > b] on [double] values. *)
Variable gt : double -> double -> bool.

Variable GenerateMHHisto : MH_camera -> option (bool * MH_camera).

(** The loop that waits for the exposure time to pass; [elapsed] are the
    times since the start that the clock gives, in milliseconds. *)
Fixpoint SnapImage_wait (exp : double) (elapsed : list double) : Run unit :=
  match elapsed with
  | [] => Running
  | t :: elapsed =>
      if gt exp t then SnapImage_wait exp elapsed else Returned ()
  end.

(** [SnapImage]: the exposure comes from the sequence when one is running
    and the camera is capturing; unless [fastImage_] is set, [start_acq]
    runs and the image is generated.  [core_callback] says that the clock
    is available ([s0 < startTime]).  The counter of the calls and
    [readoutStartTime_] are not modelled. *)
Definition SnapImage (IsCapturing : bool) (GetExposure : double)
    (StartMeas_retcode : Z) (fopen_ok : bool) (polls : list Poll)
    (core_callback : bool) (elapsed : list double) (mode_ : Z)
    (fastImage_ : bool) (m : MH_control) (s : MH_camera_sequence double)
    (c : MH_camera)
    : option (Run RetCode * MH_control * MH_camera_sequence double *
              MH_camera) :=
  '(exp, s) ← (if sequenceRunning_ s && IsCapturing
               then GetSequenceExposure GetExposure s
               else Some (GetExposure, s));
  '(r, m, c) ← (if negb fastImage_ then
                  '(r, f, c) ← start_acq StartMeas_retcode (saving_ m)
                                 fopen_ok (fpout m) polls c;
                  let m := set_fpout f m in
                  match r with
                  | Returned _ =>
                      c ← GenerateSyntheticImage GenerateMHHisto mode_ c;
                      Some (Returned (), m, c)
                  | Running => Some (Running, m, c)
                  end
                else Some (Returned (), m, c));
  match r with
  | Returned _ =>
      match (if core_callback then SnapImage_wait exp elapsed
             else Returned ()) with
      | Returned _ => Some (Returned DEVICE_OK, m, s, c)
      | Running => Some (Running, m, s, c)
      end
  | Running => Some (Running, m, s, c)
  end.

End SnapImage.

Arguments SnapImage_wait {double} _ _ _.
Arguments SnapImage {double} _ _ _ _ _ _ _ _ _ _ _ _ _ _.

(** * Properties *)

(** ** Tactics *)

Ltac break_if :=
  match goal with
  | H : context [if ?b then _ else _] |- _ => destruct b eqn:?
  | |- context [if ?b then _ else _] => destruct b eqn:?
  end.

(** ** Machine integers *)

Lemma u32_small z : in_u32 z -> u32 z = z.
Proof. unfold in_u32, u32. intros. apply Z.mod_small. lia. Qed.

Lemma u64_small z : in_u64 z -> u64 z = z.
Proof. unfold in_u64, u64. intros. apply Z.mod_small. lia. Qed.

Lemma i32_small z : in_i32 z -> i32 z = z.
Proof.
  unfold in_i32, i32. intros.
  rewrite Z.mod_small; lia.
Qed.

Lemma u32_range z : in_u32 (u32 z).
Proof. unfold in_u32, u32. apply Z.mod_pos_bound. lia. Qed.

Lemma u64_range z : in_u64 (u64 z).
Proof. unfold in_u64, u64. apply Z.mod_pos_bound. lia. Qed.

Lemma i32_range z : in_i32 (i32 z).
Proof.
  unfold in_i32, i32.
  pose proof (Z.mod_pos_bound (z + 2 ^ 31) (2 ^ 32)). lia.
Qed.

(** ** Bit fields of a record *)

Lemma land_ones_testbit (x k : Z) (i : nat) :
  0 <= k ->
  Z.testbit (Z.land x (Z.ones k)) (Z.of_nat i) = Z.testbit x (Z.of_nat i) && (Z.of_nat i <? k).
Proof.
  intros Hk. rewrite Z.land_spec.
  destruct (Z.ltb_spec (Z.of_nat i) k).
  - rewrite Z.ones_spec_low by lia. reflexivity.
  - rewrite Z.ones_spec_high by lia. reflexivity.
Qed.

Lemma field_testbit (x s k : Z) (i : nat) :
  0 <= s -> 0 <= k ->
  Z.testbit (Z.land (Z.shiftr x s) (Z.ones k)) (Z.of_nat i)
  = Z.testbit x (Z.of_nat i + s) && (Z.of_nat i <? k).
Proof.
  intros Hs Hk. rewrite land_ones_testbit by lia.
  rewrite Z.shiftr_spec by lia. reflexivity.
Qed.

Lemma field_range (x s k : Z) :
  0 <= k -> 0 <= Z.land (Z.shiftr x s) (Z.ones k) < 2 ^ k.
Proof.
  intros Hk. rewrite Z.land_ones by lia.
  apply Z.mod_pos_bound. apply Z.pow_pos_nonneg; lia.
Qed.

Lemma special_bit (x : Z) :
  negb (Z.land (Z.shiftr x 31) 1 =? 0) = Z.testbit x 31.
Proof.
  change 1 with (Z.ones 1). rewrite Z.land_ones by lia.
  change (2 ^ 1) with 2.
  replace (Z.testbit x 31) with (Z.testbit (Z.shiftr x 31) 0)
    by (rewrite Z.shiftr_spec by lia; reflexivity).
  rewrite <- Z.bit0_mod.
  destruct (Z.testbit (Z.shiftr x 31) 0); reflexivity.
Qed.

Lemma Interpret_TTTR_ranges (record : Z) :
  0 <= sync (Interpret_TTTR record) < 2 ^ 10 /\
  0 <= tcspc (Interpret_TTTR record) < 2 ^ 15 /\
  0 <= channel (Interpret_TTTR record) < 2 ^ 6.
Proof.
  unfold Interpret_TTTR; cbn [sync tcspc channel].
  repeat split; try apply (field_range record _ 10 ltac:(lia));
    try apply (field_range record _ 15 ltac:(lia));
    try apply (field_range record _ 6 ltac:(lia)).
Qed.

(** C2, as the bit layout of the code has it.  For every raw record, bit [i]
    of [sync] is bit [i] of the record for [i < 10], bit [i] of the fine time
    is bit [i + 10] for [i < 15], bit [i] of the channel is bit [i + 25] for
    [i < 6], all higher bits of the three fields are clear, and [special] is
    bit 31.  Under this layout the raw value [0x82000005] decodes to
    [special = true], [channel = 1], fine time 0 and [sync = 5]; the value
    that decodes to channel 16 is [0xA0000005]. *)
Theorem C2_decode_bit_layout :
  (forall (record : Z) (i : nat),
      Z.testbit (sync (Interpret_TTTR record)) (Z.of_nat i)
      = Z.testbit record (Z.of_nat i) && (Z.of_nat i <? 10)) /\
  (forall (record : Z) (i : nat),
      Z.testbit (tcspc (Interpret_TTTR record)) (Z.of_nat i)
      = Z.testbit record (Z.of_nat i + 10) && (Z.of_nat i <? 15)) /\
  (forall (record : Z) (i : nat),
      Z.testbit (channel (Interpret_TTTR record)) (Z.of_nat i)
      = Z.testbit record (Z.of_nat i + 25) && (Z.of_nat i <? 6)) /\
  (forall record : Z, special (Interpret_TTTR record) = Z.testbit record 31) /\
  Interpret_TTTR 0x82000005
  = {| sync := 5; tcspc := 0; channel := 1; special := true |} /\
  Interpret_TTTR 0xA0000005
  = {| sync := 5; tcspc := 0; channel := 16; special := true |}.
Proof.
  repeat split.
  - intros record i. unfold Interpret_TTTR; cbn [sync].
    change nsync_mask with (Z.ones 10).
    rewrite field_testbit by (unfold nsync_shift; lia).
    unfold nsync_shift. rewrite Z.add_0_r. reflexivity.
  - intros record i. unfold Interpret_TTTR; cbn [tcspc].
    change tcspc_mask with (Z.ones 15).
    apply field_testbit; unfold tcspc_shift; lia.
  - intros record i. unfold Interpret_TTTR; cbn [channel].
    change chan_mask with (Z.ones 6).
    apply field_testbit; unfold chan_shift; lia.
  - intros record. unfold Interpret_TTTR; cbn [special].
    apply special_bit.
Qed.

(** C2, the example as the specification words it: the record [0x82000005] does not
    decode to channel 16. *)
Lemma C2_example_is_not_channel_16 :
  Interpret_TTTR 0x82000005
  <> {| sync := 5; tcspc := 0; channel := 16; special := true |}.
Proof. vm_compute. discriminate. Qed.

(** ** Timebase *)

Lemma timestamp_ps_exact (c : MH_camera) (nsync : Z) :
  timebase_ok c -> 0 <= nsync < 2 ^ 10 ->
  timestamp_ps c nsync
  = (nsync + overflow_counter_ c * 1024) * MeasDesc_GlobalResolution_ c.
Proof.
  intros [Hov Hres] Hs. unfold timestamp_ps, in_u32 in *.
  rewrite (u64_small (overflow_counter_ c * 1024)) by (unfold in_u64; lia).
  rewrite (u64_small (nsync + _)) by (unfold in_u64; lia).
  apply u64_small. unfold in_u64. split; [nia|].
  assert (nsync + overflow_counter_ c * 1024 < 2 ^ 42) by lia.
  assert (2 ^ 64 = 2 ^ 42 * 2 ^ 22) as -> by reflexivity.
  nia.
Qed.

(** The [switch] as a chain of comparisons. *)
Lemma translate_special_cases (r : TTTR) (timestamp : Z) (c : MH_camera) :
  translate_special r timestamp c =
  if channel r =? 1 then
    if u64 (cameraCCDXSize_ c) =? 0 then None
    else Some (set_pixel_dwelltime_ps_
                 (u64 (timestamp - last_line_start_ c) ÷ u64 (cameraCCDXSize_ c))
                 (set_last_line_end_ timestamp c))
  else if channel r =? 2 then
    let c1 := set_last_line_start_ timestamp c in
    let c2 := if frame_active_ c
              then set_current_line_ (i32 (current_line_ c + 1)) c1 else c1 in
    Some (if current_line_ c2 >? cameraCCDYSize_ c
          then set_frame_active_ false c2 else c2)
  else if (channel r =? 3) || (channel r =? 4) then
    Some (set_n_frame_tracker_ (i32 (n_frame_tracker_ c + 1))
            (set_frame_active_ true (set_current_line_ (-1) c)))
  else if channel r =? 63 then
    Some (set_overflow_counter_ (u32 (overflow_counter_ c + sync r)) c)
  else Some c.
Proof.
  unfold translate_special.
  destruct (channel r) as [|p|p]; [reflexivity| |reflexivity].
  do 6 (try (destruct p as [p|p|]; try reflexivity)).
  cbn. destruct (frame_active_ c); reflexivity.
Qed.

(** A photon record can only change the bytes of the pixel array. *)
Lemma accumulate_frame (c c' : MH_camera) (target_px : Z) :
  accumulate c target_px = Some c' ->
  c' = c \/ exists mem, c' = set_img_ (SetPixels mem (img_ c)) c.
Proof.
  unfold accumulate. intros H.
  destruct (String.eqb _ _).
  - destruct (increment8 _ _) as [mem|]; [|discriminate].
    injection H as <-. right. exists mem. reflexivity.
  - destruct (String.eqb _ _).
    + destruct (increment16 _ _) as [mem|]; [|discriminate].
      injection H as <-. right. exists mem. reflexivity.
    + injection H as <-. left. reflexivity.
Qed.

Lemma translate_photon_frame (r : TTTR) (timestamp : Z) (c c' : MH_camera) :
  translate_photon r timestamp c = Some c' ->
  c' = c \/ exists mem, c' = set_img_ (SetPixels mem (img_ c)) c.
Proof.
  unfold translate_photon. intros H.
  destruct (_ && _); [|injection H as <-; left; reflexivity].
  destruct (_ >=? _); [|injection H as <-; left; reflexivity].
  destruct (photon_target _ _ _) as [target_px|]; [|discriminate].
  cbn in H. eapply accumulate_frame, H.
Qed.

Lemma timebase_ok_TranslateRecord (val : Z) (c c' : MH_camera) :
  timebase_ok c -> TranslateRecord val c = Some c' -> timebase_ok c'.
Proof.
  unfold timebase_ok, TranslateRecord. intros [Hov Hres] H.
  destruct (special _).
  - rewrite translate_special_cases in H. cbv zeta in H.
    repeat (break_if; simplify_eq; cbn [overflow_counter_
      MeasDesc_GlobalResolution_ set_pixel_dwelltime_ps_ set_last_line_end_
      set_last_line_start_ set_current_line_ set_frame_active_
      set_n_frame_tracker_ set_overflow_counter_]);
      auto using u32_range.
  - apply translate_photon_frame in H as [-> | [mem ->]]; auto.
Qed.

Lemma timebase_ok_start_acq_batch (buffer : list Z) (c c' : MH_camera) :
  timebase_ok c -> start_acq_batch buffer c = Some c' -> timebase_ok c'.
Proof.
  revert c. induction buffer as [|record rest IH]; intros c Hok Hrun.
  - cbn in Hrun. apply (inj Some) in Hrun. subst c'. exact Hok.
  - cbn [start_acq_batch] in Hrun.
    destruct (start_acq_record record c) as [c1|] eqn:Hc1; [|discriminate].
    cbn [mbind option_bind] in Hrun. apply (IH c1); [|exact Hrun].
    unfold start_acq_record in Hc1.
    destruct (TranslateRecord record c) as [c2|] eqn:Hc2; [|discriminate].
    cbn [mbind option_bind] in Hc1.
    pose proof (timebase_ok_TranslateRecord _ _ _ Hok Hc2) as Hok2.
    destruct (_ <? _).
    + destruct (bump_rate _ _) as [rates|]; [|discriminate].
      cbn [mbind option_bind] in Hc1. apply (inj Some) in Hc1. subst c1.
      exact Hok2.
    + apply (inj Some) in Hc1. subst c1. exact Hok2.
Qed.

(** Every state of the record loop on the constructed object has a sound
    timebase. *)
Lemma timebase_ok_loop (buffer : list Z) (c : MH_camera) :
  start_acq_batch buffer MH_camera_loop_entry = Some c -> timebase_ok c.
Proof.
  apply timebase_ok_start_acq_batch.
  unfold timebase_ok, in_u32. vm_compute. repeat split; discriminate.
Qed.

(** C1.  In a state whose timebase members hold values of their types, the
    time computed for every record is exactly
    [(sync + overflow_counter * 1024) * resolution] picoseconds (nothing
    wraps in 64 bits); a line-start marker stores that time; and an overflow
    marker (special, channel 63) is always processed, replaces
    [overflow_counter] by [overflow_counter + sync] in 32-bit unsigned
    arithmetic, which is the plain sum whenever that fits, and changes no
    member of the line/frame state nor the pixel buffer. *)
Theorem C1_timestamp_and_overflow_marker (c : MH_camera) (val : Z) :
  timebase_ok c ->
  let r := Interpret_TTTR val in
  timestamp_ps c (sync r)
  = (sync r + overflow_counter_ c * 1024) * MeasDesc_GlobalResolution_ c /\
  (special r = true -> channel r = 2 ->
   exists c', TranslateRecord val c = Some c' /\
     last_line_start_ c'
     = (sync r + overflow_counter_ c * 1024) * MeasDesc_GlobalResolution_ c) /\
  (special r = true -> channel r = 63 ->
   exists c', TranslateRecord val c = Some c' /\
     overflow_counter_ c' = u32 (overflow_counter_ c + sync r) /\
     (overflow_counter_ c + sync r < 2 ^ 32 ->
      overflow_counter_ c' = overflow_counter_ c + sync r) /\
     current_line_ c' = current_line_ c /\
     frame_active_ c' = frame_active_ c /\
     last_line_start_ c' = last_line_start_ c /\
     last_line_end_ c' = last_line_end_ c /\
     pixel_dwelltime_ps_ c' = pixel_dwelltime_ps_ c /\
     n_frame_tracker_ c' = n_frame_tracker_ c /\
     img_ c' = img_ c /\
     live_rates c' = live_rates c).
Proof.
  intros Hok r.
  pose proof (Interpret_TTTR_ranges val) as (Hs & _ & _). fold r in Hs.
  pose proof (timestamp_ps_exact c (sync r) Hok Hs) as Hts.
  split; [exact Hts|]. split.
  - intros Hsp Hch. unfold TranslateRecord. fold r. clearbody r.
    rewrite Hsp. unfold translate_special. rewrite Hch.
    eexists. split; [reflexivity|].
    rewrite <- Hts.
    destruct (frame_active_ _); cbn;
      destruct (_ >? _); reflexivity.
  - intros Hsp Hch. unfold TranslateRecord. fold r. clearbody r.
    rewrite Hsp. unfold translate_special. rewrite Hch.
    eexists. split; [reflexivity|].
    cbn [overflow_counter_ current_line_ frame_active_ last_line_start_
         last_line_end_ pixel_dwelltime_ps_ n_frame_tracker_ img_ live_rates
         set_overflow_counter_].
    repeat split; try reflexivity.
    intros Hfit. apply u32_small. destruct Hok as [Hov _].
    unfold in_u32 in *. lia.
Qed.

(** C1 at the constructed object and the overflow marker [0xFE000003]
    (special, channel 63, sync 3). *)
Lemma C1_witness :
  overflow_counter_ MH_camera_ctor = 0 /\
  exists c', TranslateRecord 0xFE000003 MH_camera_ctor = Some c' /\
             overflow_counter_ c' = 3 /\ current_line_ c' = -99.
Proof.
  split; [reflexivity|].
  assert (Hok : timebase_ok MH_camera_ctor).
  { unfold timebase_ok, in_u32. cbn. lia. }
  destruct (C1_timestamp_and_overflow_marker MH_camera_ctor 0xFE000003 Hok)
    as (_ & _ & H).
  destruct (H eq_refl eq_refl) as (c' & Hrun & _ & Hsum & Hline & _).
  exists c'. split; [exact Hrun|]. split.
  - rewrite Hsum; reflexivity.
  - rewrite Hline. reflexivity.
Defined.

(** ** The pixel array *)

Lemma load8_Some (mem : list Z) (i v : Z) :
  load8 mem i = Some v -> 0 <= i < Z.of_nat (length mem).
Proof.
  unfold load8. destruct (Z.leb_spec 0 i); [|discriminate].
  intros Hl%lookup_lt_Some. lia.
Qed.

Lemma load8_store8_eq (mem : list Z) (i v : Z) :
  0 <= i < Z.of_nat (length mem) -> load8 (store8 mem i v) i = Some v.
Proof.
  intros Hi. unfold load8, store8.
  destruct (Z.leb_spec 0 i); [|lia].
  apply list_lookup_insert_eq. lia.
Qed.

Lemma load8_store8_ne (mem : list Z) (i j v : Z) :
  0 <= i -> i <> j -> load8 (store8 mem i v) j = load8 mem j.
Proof.
  intros Hi Hne. unfold load8, store8.
  destruct (Z.leb_spec 0 j); [|reflexivity].
  apply list_lookup_insert_ne. lia.
Qed.

Lemma length_store8 (mem : list Z) (i v : Z) :
  length (store8 mem i v) = length mem.
Proof. apply length_insert. Qed.

Lemma load16_Some (mem : list Z) (i v : Z) :
  load16 mem i = Some v -> 0 <= i /\ 2 * i + 1 < Z.of_nat (length mem).
Proof.
  unfold load16. intros H.
  destruct (load8 mem (2 * i)) as [lo|] eqn:Hlo; [|discriminate].
  destruct (load8 mem (2 * i + 1)) as [hi|] eqn:Hhi; [|discriminate].
  apply load8_Some in Hlo, Hhi. lia.
Qed.

Lemma load16_store16_eq (mem : list Z) (i v : Z) :
  0 <= i -> 2 * i + 1 < Z.of_nat (length mem) ->
  load16 (store16 mem i v) i = Some v.
Proof.
  intros Hi Hlen. unfold load16, store16.
  rewrite (load8_store8_ne _ (2 * i + 1) (2 * i)) by lia.
  rewrite (load8_store8_eq mem (2 * i)) by lia. cbn.
  rewrite load8_store8_eq by (rewrite length_store8; lia). cbn.
  f_equal. pose proof (Z.div_mod v 256 ltac:(lia)). lia.
Qed.

Lemma load16_store16_ne (mem : list Z) (i j v : Z) :
  0 <= i -> i <> j -> load16 (store16 mem i v) j = load16 mem j.
Proof.
  intros Hi Hne. unfold load16, store16.
  rewrite !load8_store8_ne by lia. reflexivity.
Qed.

Lemma increment8_spec (mem : list Z) (i v : Z) :
  load8 mem i = Some v -> 0 <= v <= 255 ->
  exists mem',
    increment8 mem i = Some mem' /\
    load8 mem' i = Some (if v =? 255 then 255 else v + 1) /\
    (forall j, j <> i -> load8 mem' j = load8 mem j).
Proof.
  intros Hload Hv. unfold increment8. rewrite Hload. cbn.
  destruct (Z.eqb_spec v 255) as [-> | Hne].
  - exists mem. auto.
  - eexists. split; [reflexivity|].
    pose proof (load8_Some _ _ _ Hload). split.
    + rewrite load8_store8_eq by lia. f_equal.
      unfold u8. apply Z.mod_small. lia.
    + intros j Hj. apply load8_store8_ne; lia.
Qed.

Lemma increment16_spec (mem : list Z) (i v : Z) :
  load16 mem i = Some v -> 0 <= v <= 65535 ->
  exists mem',
    increment16 mem i = Some mem' /\
    load16 mem' i = Some (if v =? 65535 then 65535 else v + 1) /\
    (forall j, j <> i -> load16 mem' j = load16 mem j).
Proof.
  intros Hload Hv. unfold increment16. rewrite Hload. cbn.
  destruct (Z.eqb_spec v 65535) as [-> | Hne].
  - exists mem. auto.
  - eexists. split; [reflexivity|].
    pose proof (load16_Some _ _ _ Hload) as [Hi Hlen]. split.
    + rewrite load16_store16_eq by lia. f_equal.
      unfold u16. apply Z.mod_small. lia.
    + intros j Hj. apply load16_store16_ne; lia.
Qed.

Lemma repeat_increment8_spec (n : nat) (mem : list Z) (i v : Z) :
  load8 mem i = Some v -> 0 <= v <= 255 ->
  exists mem',
    repeat_increment increment8 n mem i = Some mem' /\
    load8 mem' i = Some (Z.min 255 (v + Z.of_nat n)).
Proof.
  revert mem v. induction n as [|n IH]; intros mem v Hload Hv.
  - exists mem. split; [reflexivity|]. rewrite Hload. f_equal. lia.
  - destruct (increment8_spec mem i v Hload Hv) as (m1 & Hinc & Hl1 & _).
    cbn [repeat_increment]. rewrite Hinc. cbn.
    destruct (IH m1 _ Hl1) as (m2 & Hrun & Hl2).
    { destruct (Z.eqb_spec v 255); lia. }
    exists m2. split; [exact Hrun|]. rewrite Hl2. f_equal.
    destruct (Z.eqb_spec v 255); lia.
Qed.

Lemma repeat_increment16_spec (n : nat) (mem : list Z) (i v : Z) :
  load16 mem i = Some v -> 0 <= v <= 65535 ->
  exists mem',
    repeat_increment increment16 n mem i = Some mem' /\
    load16 mem' i = Some (Z.min 65535 (v + Z.of_nat n)).
Proof.
  revert mem v. induction n as [|n IH]; intros mem v Hload Hv.
  - exists mem. split; [reflexivity|]. rewrite Hload. f_equal. lia.
  - destruct (increment16_spec mem i v Hload Hv) as (m1 & Hinc & Hl1 & _).
    cbn [repeat_increment]. rewrite Hinc. cbn.
    destruct (IH m1 _ Hl1) as (m2 & Hrun & Hl2).
    { destruct (Z.eqb_spec v 65535); lia. }
    exists m2. split; [exact Hrun|]. rewrite Hl2. f_equal.
    destruct (Z.eqb_spec v 65535); lia.
Qed.

(** The pixel-type property selects the width of the increment. *)
Lemma accumulate_8bit (c : MH_camera) (target_px : Z) :
  PixelType c = g_PixelType_8bit ->
  accumulate c target_px
  = (fun mem => set_img_ (SetPixels mem (img_ c)) c)
      <$> increment8 (GetPixels (img_ c)) target_px.
Proof.
  intros H. unfold accumulate. rewrite H. cbn [String.eqb].
  change (String.eqb g_PixelType_8bit g_PixelType_8bit) with true.
  destruct (increment8 _ _); reflexivity.
Qed.

Lemma accumulate_16bit (c : MH_camera) (target_px : Z) :
  PixelType c = g_PixelType_16bit ->
  accumulate c target_px
  = (fun mem => set_img_ (SetPixels mem (img_ c)) c)
      <$> increment16 (GetPixels (img_ c)) target_px.
Proof.
  intros H. unfold accumulate. rewrite H.
  change (String.eqb g_PixelType_16bit g_PixelType_8bit) with false.
  change (String.eqb g_PixelType_16bit g_PixelType_16bit) with true.
  destruct (increment16 _ _); reflexivity.
Qed.

Lemma repeat_accumulate_8bit (n : nat) (c : MH_camera) (target_px : Z) :
  PixelType c = g_PixelType_8bit ->
  repeat_accumulate n c target_px
  = (fun mem => set_img_ (SetPixels mem (img_ c)) c)
      <$> repeat_increment increment8 n (GetPixels (img_ c)) target_px.
Proof.
  revert c. induction n as [|n IH]; intros c Hty.
  - cbn. destruct c as [? ? ? ? ? ? ? ? ? ? ? ? ? ? ? ? ? ? ? []].
    reflexivity.
  - cbn [repeat_accumulate repeat_increment].
    rewrite (accumulate_8bit c target_px Hty).
    destruct (increment8 (GetPixels (img_ c)) target_px) as [m1|];
      [|reflexivity].
    cbn [fmap option_fmap option_map mbind option_bind].
    rewrite IH by exact Hty.
    cbn [img_ set_img_ GetPixels SetPixels].
    destruct (repeat_increment increment8 n m1 target_px); reflexivity.
Qed.

Lemma repeat_accumulate_16bit (n : nat) (c : MH_camera) (target_px : Z) :
  PixelType c = g_PixelType_16bit ->
  repeat_accumulate n c target_px
  = (fun mem => set_img_ (SetPixels mem (img_ c)) c)
      <$> repeat_increment increment16 n (GetPixels (img_ c)) target_px.
Proof.
  revert c. induction n as [|n IH]; intros c Hty.
  - cbn. destruct c as [? ? ? ? ? ? ? ? ? ? ? ? ? ? ? ? ? ? ? []].
    reflexivity.
  - cbn [repeat_accumulate repeat_increment].
    rewrite (accumulate_16bit c target_px Hty).
    destruct (increment16 (GetPixels (img_ c)) target_px) as [m1|];
      [|reflexivity].
    cbn [fmap option_fmap option_map mbind option_bind].
    rewrite IH by exact Hty.
    cbn [img_ set_img_ GetPixels SetPixels].
    destruct (repeat_increment increment16 n m1 target_px); reflexivity.
Qed.

(** C7.  The write of a photon into the pixel array, lines 2472-2488, at an
    index inside the array.  With the pixel type ["8bit"] the write always
    succeeds and changes nothing of the camera but the pixel array: a byte
    holding 255 stays 255, any other byte grows by exactly one, and no other
    byte changes; after [n] photons on a byte that started at [v] the byte
    holds [min 255 (v + n)].  With the pixel type ["16bit"] the same holds
    of the 16-bit samples with 65535 in place of 255.  So the accumulation
    never wraps around and never fails. *)
Theorem C7_saturating_increment (c : MH_camera) (i v : Z) (n : nat) :
  (PixelType c = g_PixelType_8bit ->
   load8 (GetPixels (img_ c)) i = Some v -> 0 <= v <= 255 ->
   (exists mem',
      accumulate c i = Some (set_img_ (SetPixels mem' (img_ c)) c) /\
      load8 mem' i = Some (if v =? 255 then 255 else v + 1) /\
      (forall j, j <> i -> load8 mem' j = load8 (GetPixels (img_ c)) j)) /\
   (exists mem',
      repeat_accumulate n c i = Some (set_img_ (SetPixels mem' (img_ c)) c) /\
      load8 mem' i = Some (Z.min 255 (v + Z.of_nat n)))) /\
  (PixelType c = g_PixelType_16bit ->
   load16 (GetPixels (img_ c)) i = Some v -> 0 <= v <= 65535 ->
   (exists mem',
      accumulate c i = Some (set_img_ (SetPixels mem' (img_ c)) c) /\
      load16 mem' i = Some (if v =? 65535 then 65535 else v + 1) /\
      (forall j, j <> i -> load16 mem' j = load16 (GetPixels (img_ c)) j)) /\
   (exists mem',
      repeat_accumulate n c i = Some (set_img_ (SetPixels mem' (img_ c)) c) /\
      load16 mem' i = Some (Z.min 65535 (v + Z.of_nat n)))).
Proof.
  split; intros Hty Hload Hv; split.
  - destruct (increment8_spec _ _ _ Hload Hv) as (mem' & Hinc & Hl & Ho).
    exists mem'. rewrite (accumulate_8bit c i Hty), Hinc. auto.
  - destruct (repeat_increment8_spec n _ _ _ Hload Hv) as (mem' & Hrun & Hl).
    exists mem'. rewrite (repeat_accumulate_8bit n c i Hty), Hrun. auto.
  - destruct (increment16_spec _ _ _ Hload Hv) as (mem' & Hinc & Hl & Ho).
    exists mem'. rewrite (accumulate_16bit c i Hty), Hinc. auto.
  - destruct (repeat_increment16_spec n _ _ _ Hload Hv) as (mem' & Hrun & Hl).
    exists mem'. rewrite (repeat_accumulate_16bit n c i Hty), Hrun. auto.
Qed.

(** C7 on the initialised camera, whose 57600 samples of 16 bits are zero,
    and on the same camera after its pixel type has been set to ["8bit"]:
    70000 photons on sample 7 leave it at 65535, and 300 photons on byte 7
    leave it at 255. *)
Lemma C7_witness :
  let c16 := MH_camera_initialized in
  let c8 := (OnPixelType_AfterSet false g_PixelType_8bit c16).2 in
  (exists mem',
     repeat_accumulate (Z.to_nat 300) c8 7
     = Some (set_img_ (SetPixels mem' (img_ c8)) c8) /\
     load8 mem' 7 = Some 255) /\
  (exists mem',
     repeat_accumulate (Z.to_nat 70000) c16 7
     = Some (set_img_ (SetPixels mem' (img_ c16)) c16) /\
     load16 mem' 7 = Some 65535).
Proof.
  intros c16 c8. split.
  - destruct (C7_saturating_increment c8 7 0 (Z.to_nat 300)) as [H8 _].
    destruct H8 as [_ (mem' & Hrun & Hl)];
      [reflexivity | vm_compute; reflexivity | lia |].
    exists mem'. split; [exact Hrun|].
    rewrite Hl, Z2Nat.id by lia. reflexivity.
  - destruct (C7_saturating_increment c16 7 0 (Z.to_nat 70000)) as [_ H16].
    destruct H16 as [_ (mem' & Hrun & Hl)];
      [reflexivity | vm_compute; reflexivity | lia |].
    exists mem'. split; [exact Hrun|].
    rewrite Hl, Z2Nat.id by lia. reflexivity.
Defined.

(** ** Beam shifts *)

Lemma beam_shift_first_six (c : MH_camera) (ch : Z) :
  n_beams_Y_ c = 3 ->
  0 < n_scanPixels_X_ c < 2 ^ 30 ->
  0 < n_scanPixels_Y_ c < 2 ^ 30 ->
  0 <= ch <= 5 ->
  beam_shift c ch
  = Some ((5 - ch) / 3 * n_scanPixels_X_ c, (5 - ch) mod 3 * n_scanPixels_Y_ c).
Proof.
  intros HnY HX HY Hch. unfold beam_shift. rewrite HnY.
  assert (Hcases : ch = 0 \/ ch = 1 \/ ch = 2 \/ ch = 3 \/ ch = 4 \/ ch = 5)
    by lia.
  assert (Hx0 : i32 (0 * n_scanPixels_X_ c) = 0 * n_scanPixels_X_ c)
    by (apply i32_small; unfold in_i32; lia).
  assert (Hx1 : i32 (1 * n_scanPixels_X_ c) = 1 * n_scanPixels_X_ c)
    by (apply i32_small; unfold in_i32; lia).
  assert (Hy0 : i32 (0 * n_scanPixels_Y_ c) = 0 * n_scanPixels_Y_ c)
    by (apply i32_small; unfold in_i32; lia).
  assert (Hy1 : i32 (1 * n_scanPixels_Y_ c) = 1 * n_scanPixels_Y_ c)
    by (apply i32_small; unfold in_i32; lia).
  assert (Hy2 : i32 (2 * n_scanPixels_Y_ c) = 2 * n_scanPixels_Y_ c)
    by (apply i32_small; unfold in_i32; lia).
  destruct Hcases as [-> | [-> | [-> | [-> | [-> | ->]]]]].
  - change (i32 (u32 (5 - 0))) with 5.
    change (i32 (5 ÷ 3)) with 1. change (i32 (Z.rem 5 3)) with 2.
    change (3 =? 0) with false. cbv iota. rewrite Hx1, Hy2. reflexivity.
  - change (i32 (u32 (5 - 1))) with 4.
    change (i32 (4 ÷ 3)) with 1. change (i32 (Z.rem 4 3)) with 1.
    change (3 =? 0) with false. cbv iota. rewrite Hx1, Hy1. reflexivity.
  - change (i32 (u32 (5 - 2))) with 3.
    change (i32 (3 ÷ 3)) with 1. change (i32 (Z.rem 3 3)) with 0.
    change (3 =? 0) with false. cbv iota. rewrite Hx1, Hy0. reflexivity.
  - change (i32 (u32 (5 - 3))) with 2.
    change (i32 (2 ÷ 3)) with 0. change (i32 (Z.rem 2 3)) with 2.
    change (3 =? 0) with false. cbv iota. rewrite Hx0, Hy2. reflexivity.
  - change (i32 (u32 (5 - 4))) with 1.
    change (i32 (1 ÷ 3)) with 0. change (i32 (Z.rem 1 3)) with 1.
    change (3 =? 0) with false. cbv iota. rewrite Hx0, Hy1. reflexivity.
  - change (i32 (u32 (5 - 5))) with 0.
    change (i32 (0 ÷ 3)) with 0. change (i32 (Z.rem 0 3)) with 0.
    change (3 =? 0) with false. cbv iota. rewrite Hx0, Hy0. reflexivity.
Qed.

(** C8.  With two beams in x and three in y and scan sizes that are
    positive (and below 2^30, so that no shift wraps), the shift computed for
    channel [ch] in 0..5 is [((5 - ch) / 3 * scan_x, (5 - ch) mod 3 * scan_y)];
    the map is injective on 0..5, and every cell [(bx, by)] of the 2 x 3 grid
    is the shift of exactly one of these channels. *)
Theorem C8_beam_shift_bijective (c : MH_camera) :
  n_beams_X_ c = 2 ->
  n_beams_Y_ c = 3 ->
  0 < n_scanPixels_X_ c < 2 ^ 30 ->
  0 < n_scanPixels_Y_ c < 2 ^ 30 ->
  (forall ch, 0 <= ch <= 5 ->
     beam_shift c ch
     = Some ((5 - ch) / 3 * n_scanPixels_X_ c,
             (5 - ch) mod 3 * n_scanPixels_Y_ c)) /\
  (forall ch1 ch2, 0 <= ch1 <= 5 -> 0 <= ch2 <= 5 ->
     beam_shift c ch1 = beam_shift c ch2 -> ch1 = ch2) /\
  (forall bx by_, 0 <= bx < n_beams_X_ c -> 0 <= by_ < n_beams_Y_ c ->
     exists ch, 0 <= ch <= 5 /\
       beam_shift c ch
       = Some (bx * n_scanPixels_X_ c, by_ * n_scanPixels_Y_ c) /\
       forall ch', 0 <= ch' <= 5 ->
         beam_shift c ch'
         = Some (bx * n_scanPixels_X_ c, by_ * n_scanPixels_Y_ c) ->
         ch' = ch).
Proof.
  intros HnX HnY HX HY.
  assert (Hinj : forall ch1 ch2, 0 <= ch1 <= 5 -> 0 <= ch2 <= 5 ->
            beam_shift c ch1 = beam_shift c ch2 -> ch1 = ch2).
  { intros ch1 ch2 H1 H2.
    rewrite !beam_shift_first_six by assumption.
    intros [= Hx Hy].
    apply Z.mul_cancel_r in Hx; [|lia].
    apply Z.mul_cancel_r in Hy; [|lia].
    pose proof (Z.div_mod (5 - ch1) 3 ltac:(lia)).
    pose proof (Z.div_mod (5 - ch2) 3 ltac:(lia)).
    lia. }
  split; [|split].
  - intros ch Hch. apply beam_shift_first_six; assumption.
  - exact Hinj.
  - intros bx by_ Hbx Hby. rewrite HnX in Hbx. rewrite HnY in Hby.
    exists (5 - (3 * bx + by_)).
    assert (Hrange : 0 <= 5 - (3 * bx + by_) <= 5) by lia.
    assert (Hshift : beam_shift c (5 - (3 * bx + by_))
              = Some (bx * n_scanPixels_X_ c, by_ * n_scanPixels_Y_ c)).
    { rewrite beam_shift_first_six by assumption.
      replace (5 - (5 - (3 * bx + by_))) with (by_ + bx * 3) by lia.
      rewrite Z.div_add, Z.mod_add by lia.
      rewrite Z.div_small, Z.mod_small by lia.
      reflexivity. }
    split; [exact Hrange|]. split; [exact Hshift|].
    intros ch' Hch' Hsh'. apply Hinj; try assumption.
    rewrite Hsh', Hshift. reflexivity.
Qed.

(** C8 at the constructed geometry (2 x 3 beams of 120 x 80 pixels). *)
Lemma C8_witness :
  beam_shift MH_camera_ctor 0 = Some (120, 160) /\
  beam_shift MH_camera_ctor 5 = Some (0, 0).
Proof.
  assert (HX : 0 < n_scanPixels_X_ MH_camera_ctor < 2 ^ 30) by (cbn; lia).
  assert (HY : 0 < n_scanPixels_Y_ MH_camera_ctor < 2 ^ 30) by (cbn; lia).
  destruct (C8_beam_shift_bijective MH_camera_ctor eq_refl eq_refl HX HY)
    as (Hval & _ & _).
  split.
  - rewrite (Hval 0) by lia. reflexivity.
  - rewrite (Hval 5) by lia. reflexivity.
Defined.

(** ** Pixel depth of the image buffer *)


Lemma ResizeImageBuffer_known_types (c : MH_camera) :
  binSize_ c <> 0 ->
  (String.eqb (PixelType c) g_PixelType_8bit = true ->
   exists c', ResizeImageBuffer c = Some (DEVICE_OK, c') /\
              Depth (img_ c') = 1) /\
  (String.eqb (PixelType c) g_PixelType_8bit = false ->
   String.eqb (PixelType c) g_PixelType_16bit = true ->
   exists c', ResizeImageBuffer c = Some (DEVICE_OK, c') /\
              Depth (img_ c') = 2).
Proof.
  intros Hbin. unfold ResizeImageBuffer.
  destruct (Z.eqb_spec (binSize_ c) 0) as [|_]; [contradiction|].
  split.
  - intros ->. eexists. split; reflexivity.
  - intros -> ->. eexists. split; reflexivity.
Qed.

Lemma OnPixelType_unknown_type (pixelType : string) (c : MH_camera) :
  String.eqb pixelType g_PixelType_8bit = false ->
  String.eqb pixelType g_PixelType_16bit = false ->
  exists c',
    OnPixelType_AfterSet false pixelType c = (ERR_UNKNOWN_MODE, c') /\
    Depth (img_ c') = 1 /\
    PixelType c' = g_PixelType_8bit /\
    bitDepth_ c' = 8.
Proof.
  intros H8 H16. unfold OnPixelType_AfterSet. rewrite H8, H16.
  eexists. split; [reflexivity|]. repeat split; reflexivity.
Qed.

Lemma ResizeImageBuffer_returns_OK (c c' : MH_camera) (ret : RetCode) :
  ResizeImageBuffer c = Some (ret, c') -> ret = DEVICE_OK.
Proof.
  unfold ResizeImageBuffer. destruct (_ =? _); [discriminate|].
  intros H. apply (inj Some) in H. congruence.
Qed.





(** ** The pixel within a line *)

Lemma GetPixnumInLine_zero_dwell (c : MH_camera) (timestamp linestart : Z) :
  pixel_dwelltime_ps_ c = 0 -> GetPixnumInLine c timestamp linestart = None.
Proof. intros H. unfold GetPixnumInLine. rewrite H. reflexivity. Qed.

Lemma GetPixnumInLine_defined (c : MH_camera) (timestamp linestart : Z) :
  pixel_dwelltime_ps_ c <> 0 -> n_beams_X_ c <> 0 ->
  is_Some (GetPixnumInLine c timestamp linestart).
Proof.
  intros Hd Hb. unfold GetPixnumInLine.
  destruct (Z.eqb_spec (pixel_dwelltime_ps_ c) 0); [contradiction|].
  destruct (Z.eqb_spec (n_beams_X_ c) 0); [contradiction|].
  destruct (_ >=? _); eauto.
Qed.

(** The clamp as the code has it.  For a time stamp not before the line
    start, a positive dwell time, at least one beam in x, a composite width
    [cameraCCDXSize_] between 1 and 2^31 - 1 and a quotient
    [(timestamp - linestart) / dwell] that fits an [int], the function
    returns [x = ((timestamp - linestart) / dwell) / n_beams_X_] when
    [x < cameraCCDXSize_] and [cameraCCDXSize_ - 1] otherwise: the bound of
    the clamp is the composite width, and the result lies in
    [0, cameraCCDXSize_ - 1]. *)
Lemma GetPixnumInLine_clamped_to_composite_width
    (c : MH_camera) (timestamp linestart : Z) :
  0 <= linestart <= timestamp -> timestamp < 2 ^ 64 ->
  0 < pixel_dwelltime_ps_ c ->
  0 < n_beams_X_ c ->
  1 <= cameraCCDXSize_ c < 2 ^ 31 ->
  (timestamp - linestart) / pixel_dwelltime_ps_ c < 2 ^ 31 ->
  let x := (timestamp - linestart) / pixel_dwelltime_ps_ c / n_beams_X_ c in
  GetPixnumInLine c timestamp linestart
  = Some (Z.min x (cameraCCDXSize_ c - 1)) /\
  0 <= Z.min x (cameraCCDXSize_ c - 1) <= cameraCCDXSize_ c - 1.
Proof.
  intros Hts Hts64 Hd Hb Hw Hpn x.
  assert (Hpn0 : 0 <= (timestamp - linestart) / pixel_dwelltime_ps_ c)
    by (apply Z.div_pos; lia).
  assert (Hx0 : 0 <= x) by (apply Z.div_pos; lia).
  assert (Hxle : x <= (timestamp - linestart) / pixel_dwelltime_ps_ c).
  { unfold x. apply Z.div_le_upper_bound; [lia|]. nia. }
  split; [|clearbody x; lia].
  unfold GetPixnumInLine.
  destruct (Z.eqb_spec (pixel_dwelltime_ps_ c) 0); [lia|].
  destruct (Z.eqb_spec (n_beams_X_ c) 0); [lia|].
  rewrite (u64_small (timestamp - linestart)) by (unfold in_u64; lia).
  rewrite (Z.quot_div_nonneg (timestamp - linestart)) by lia.
  rewrite (i32_small (_ / pixel_dwelltime_ps_ c)) by (unfold in_i32; lia).
  rewrite Z.quot_div_nonneg by lia. fold x.
  rewrite (i32_small x) by (unfold in_i32; lia).
  rewrite (i32_small (cameraCCDXSize_ c - 1)) by (unfold in_i32; lia).
  clearbody x.
  destruct (Z.geb_spec x (cameraCCDXSize_ c)); f_equal; lia.
Qed.

(** At the constructed object (composite width 240, scan width 120, two
    beams in x, dwell time 10^8 ps): 3 * 10^10 ps into the line gives pixel
    150, beyond the scan width, and 6 * 10^10 ps gives the clamped pixel
    239. *)
Example GetPixnumInLine_at_constructed :
  GetPixnumInLine MH_camera_ctor 30000000000 0 = Some 150 /\
  GetPixnumInLine MH_camera_ctor 60000000000 0 = Some 239.
Proof.
  split.
  - apply (GetPixnumInLine_clamped_to_composite_width MH_camera_ctor
             30000000000 0);
      cbn [MH_camera_ctor pixel_dwelltime_ps_ n_beams_X_ cameraCCDXSize_];
      (lia || reflexivity).
  - apply (GetPixnumInLine_clamped_to_composite_width MH_camera_ctor
             60000000000 0);
      cbn [MH_camera_ctor pixel_dwelltime_ps_ n_beams_X_ cameraCCDXSize_];
      (lia || reflexivity).
Qed.

(** C4, the code at two photons far into their scan line, on the
    initialised camera (scan width 120, two beams in x, composite 240 x 240,
    57600 samples) after the reset of [start_acq].
    - A frame start, 80 line starts at sync 1 and three overflow markers of
      1023 periods lead to line 79 with the frame active.  The photon
      [0x00000000] (channel 0, beam shift (120, 160)) lies 396 dwell times
      into the line: [GetPixnumInLine] returns 198, which is past the last
      pixel 119 of the scan line and below the bound 240 of the clamp; the
      index of the write is 198 + 120 + (79 + 160) * 240 = 57678, outside
      the array, and processing the record is undefined.
    - A frame start, a line start at sync 0, a line end at sync 1 (dwell
      time 52 ps), a line start at sync 2 and nine overflow markers of 1023
      periods lead to line 1.  For the photon [0x0A000000] (channel 5) the
      quotient [pn] exceeds 2^31 - 1; [(int)pn / n_beams_X_] is -1003617542,
      which the clamp, testing from above only, lets through; the index of
      the write is negative and processing the record is undefined. *)
Theorem C4_clamp_misses_the_scan_line :
  let lineA :=
    start_acq_batch
      (0x86000000 :: replicate 80 0x84000001 ++ replicate 3 0xFE0003FF)
      MH_camera_loop_entry in
  let lineB :=
    start_acq_batch
      ([0x86000000; 0x84000000; 0x82000001; 0x84000002]
       ++ replicate 9 0xFE0003FF)
      MH_camera_loop_entry in
  let pixnum c := GetPixnumInLine c (timestamp_ps c 0) (last_line_start_ c) in
  (fun c => (current_line_ c, frame_active_ c, n_scanPixels_X_ c,
             n_beams_X_ c, cameraCCDXSize_ c, pixel_dwelltime_ps_ c))
    <$> lineA
  = Some (79, true, 120, 2, 240, 100000000) /\
  lineA ≫= pixnum = Some 198 /\
  lineA ≫= record_target 0x00000000 = Some 57678 /\
  lineA ≫= TranslateRecord 0x00000000 = None /\
  (fun c => (current_line_ c, frame_active_ c, pixel_dwelltime_ps_ c))
    <$> lineB
  = Some (1, true, 52) /\
  lineB ≫= pixnum = Some (-1003617542) /\
  lineB ≫= record_target 0x0A000000 = Some (-1003617302) /\
  lineB ≫= TranslateRecord 0x0A000000 = None.
Proof. vm_compute. repeat split. Qed.

(** ** One record of the loop *)

Lemma bump_rate_spec (rates : list Z) (chan : Z) :
  (Z.to_nat chan < length rates)%nat ->
  exists v,
    rates !! Z.to_nat chan = Some v /\
    bump_rate rates chan = Some (<[Z.to_nat chan := u32 (v + 1)]> rates).
Proof.
  intros Hlt. destruct (lookup_lt_is_Some_2 rates _ Hlt) as [v Hv].
  exists v. split; [exact Hv|]. unfold bump_rate. rewrite Hv. reflexivity.
Qed.

Lemma TranslateRecord_keeps (val : Z) (c c' : MH_camera) :
  TranslateRecord val c = Some c' ->
  cameraCCDXSize_ c' = cameraCCDXSize_ c /\
  cameraCCDYSize_ c' = cameraCCDYSize_ c /\
  live_rates c' = live_rates c.
Proof.
  unfold TranslateRecord. intros H.
  destruct (special _).
  - rewrite translate_special_cases in H. cbv zeta in H.
    repeat (break_if; simplify_eq); auto.
  - apply translate_photon_frame in H as [-> | [mem ->]]; auto.
Qed.

(** The rate update never fails on a table of eight entries; it touches
    nothing but the table. *)
Lemma start_acq_record_defined (record : Z) (c c1 : MH_camera) :
  length (live_rates c) = 8%nat ->
  TranslateRecord record c = Some c1 ->
  exists rates,
    start_acq_record record c = Some (set_live_rates rates c1) /\
    length rates = 8%nat /\
    let chan := channel (Interpret_TTTR record) in
    if chan <? MAX_N_CHANNELS
    then (exists v, live_rates c !! Z.to_nat chan = Some v /\
                    rates = <[Z.to_nat chan := u32 (v + 1)]> (live_rates c))
    else rates = live_rates c.
Proof.
  intros Hlen Hc1.
  destruct (TranslateRecord_keeps _ _ _ Hc1) as (_ & _ & Hrates).
  unfold start_acq_record. rewrite Hc1. cbn [mbind option_bind].
  change (Z.land (Z.shiftr record 25) 63) with (channel (Interpret_TTTR record)).
  pose proof (Interpret_TTTR_ranges record) as (_ & _ & Hch).
  cbv zeta.
  destruct (Z.ltb_spec (channel (Interpret_TTTR record)) MAX_N_CHANNELS)
    as [Hlt | Hge].
  - destruct (bump_rate_spec (live_rates c1)
                (channel (Interpret_TTTR record))) as (v & Hv & Hbump).
    { rewrite Hrates, Hlen. unfold MAX_N_CHANNELS in Hlt. lia. }
    rewrite Hbump. cbn [mbind option_bind].
    eexists. split; [reflexivity|]. split.
    + rewrite length_insert, Hrates. exact Hlen.
    + exists v. rewrite <- Hrates. auto.
  - exists (live_rates c1). split; [|split].
    + destruct c1; reflexivity.
    + rewrite Hrates. exact Hlen.
    + exact Hrates.
Qed.

Lemma start_acq_record_Some (record : Z) (c c' : MH_camera) :
  start_acq_record record c = Some c' ->
  exists c1 rates,
    TranslateRecord record c = Some c1 /\ c' = set_live_rates rates c1 /\
    length rates = length (live_rates c).
Proof.
  unfold start_acq_record. intros H.
  destruct (TranslateRecord record c) as [c1|] eqn:Hc1; [|discriminate].
  cbn [mbind option_bind] in H.
  destruct (TranslateRecord_keeps _ _ _ Hc1) as (_ & _ & Hrates).
  exists c1. destruct (_ <? _).
  - unfold bump_rate in H.
    destruct (live_rates c1 !! _) as [v|]; [|discriminate].
    cbn [mbind option_bind] in H. apply (inj Some) in H. subst c'.
    eexists. split; [reflexivity|]. split; [reflexivity|].
    rewrite length_insert, Hrates. reflexivity.
  - apply (inj Some) in H. subst c'. exists (live_rates c1).
    split; [reflexivity|]. split; [destruct c1; reflexivity|].
    rewrite Hrates. reflexivity.
Qed.




(** ** The entry of the record loop *)

Lemma start_acq_reset_defined (c : MH_camera) :
  n_frame_repeats_ c <> 0 -> is_Some (start_acq_reset c).
Proof.
  intros H. unfold start_acq_reset.
  destruct (Z.eqb_spec (n_frame_repeats_ c) 0); [contradiction|]. eauto.
Qed.

Lemma post_reset_loop_entry : post_reset MH_camera_loop_entry.
Proof.
  exists MH_camera_initialized.
  unfold MH_camera_loop_entry, MH_camera_started.
  destruct (start_acq_reset_defined MH_camera_initialized) as [c Hc].
  - discriminate.
  - rewrite Hc. reflexivity.
Qed.

Lemma post_reset_fields (c : MH_camera) :
  post_reset c ->
  current_line_ c = -1 /\ frame_active_ c = false /\
  overflow_counter_ c = 0 /\
  last_line_start_ c = 0 /\ last_line_end_ c = 0 /\
  live_rates c = replicate 8 0.
Proof.
  intros [c_prev H]. unfold start_acq_reset in H.
  destruct (_ =? _); [discriminate|].
  apply (inj Some) in H. subst c. repeat split.
Qed.

(** ** Records whose processing is undefined *)

(** C3, the code at three record sequences that follow the reset of
    [start_acq] on the constructed geometry (240 x 240 samples of 16 bits).
    - A frame start, a line start and a line end with the same sync count,
      then a line start one sync later: the dwell time becomes 0 and the
      next photon (channel 5) divides by it.
    - A frame start and a line start, then a photon on channel 7: the index
      is -38400.
    - A frame start and 81 line starts, then a photon on channel 0: the
      frame is still active and the index is 57720, not below
      [Width * Height = 57600].
    In each case the loop body has no defined result.  The pixel array
    holds the samples 0 .. 57599. *)
Theorem C3_record_processing_undefined :
  let c0 := MH_camera_loop_entry in
  let zero_dwell :=
    start_acq_batch [0x86000000; 0x84000000; 0x82000000; 0x84000001] c0 in
  let first_line := start_acq_batch [0x86000000; 0x84000001] c0 in
  let line_80 := start_acq_batch (0x86000000 :: replicate 81 0x84000001) c0 in
  post_reset c0 /\
  (Width (img_ c0) * Height (img_ c0) = 57600 /\
   load16 (GetPixels (img_ c0)) 57599 = Some 0 /\
   load16 (GetPixels (img_ c0)) 57600 = None) /\
  (pixel_dwelltime_ps_ <$> zero_dwell = Some 0 /\
   is_photon 0x0A000002 /\
   zero_dwell ≫= TranslateRecord 0x0A000002 = None /\
   zero_dwell ≫= start_acq_record 0x0A000002 = None) /\
  (current_line_ <$> first_line = Some 0 /\
   is_photon 0x0E000001 /\
   first_line ≫= record_target 0x0E000001 = Some (-38400) /\
   first_line ≫= TranslateRecord 0x0E000001 = None /\
   first_line ≫= start_acq_record 0x0E000001 = None) /\
  (current_line_ <$> line_80 = Some 80 /\
   frame_active_ <$> line_80 = Some true /\
   is_photon 0x00000001 /\
   line_80 ≫= record_target 0x00000001 = Some 57720 /\
   line_80 ≫= TranslateRecord 0x00000001 = None /\
   line_80 ≫= start_acq_record 0x00000001 = None).
Proof.
  cbv zeta. split; [|split; [|split; [|split]]].
  - apply post_reset_loop_entry.
  - vm_compute. repeat split.
  - vm_compute. repeat split.
  - vm_compute. repeat split.
  - vm_compute. repeat split.
Qed.

(** ** The frame and line state machine *)

Lemma start_acq_batch_app (l1 l2 : list Z) (c : MH_camera) :
  start_acq_batch (l1 ++ l2) c = start_acq_batch l1 c ≫= start_acq_batch l2.
Proof.
  revert c. induction l1 as [|record l1 IH]; intros c; [reflexivity|].
  cbn [app start_acq_batch].
  destruct (start_acq_record record c) as [c1|]; [|reflexivity].
  cbn [mbind option_bind]. apply IH.
Qed.

Lemma same_frame_size_refl (c : MH_camera) : same_frame_size c c.
Proof. repeat split. Qed.

Lemma same_frame_size_trans (c1 c2 c3 : MH_camera) :
  same_frame_size c1 c2 -> same_frame_size c2 c3 -> same_frame_size c1 c3.
Proof.
  unfold same_frame_size. intros (-> & -> & ->) (-> & -> & ->). auto.
Qed.

Lemma frame_start_record (val : Z) (c : MH_camera) :
  is_frame_start val -> length (live_rates c) = 8%nat ->
  exists c',
    start_acq_record val c = Some c' /\
    current_line_ c' = -1 /\ frame_active_ c' = true /\
    n_frame_tracker_ c' = i32 (n_frame_tracker_ c + 1) /\
    img_ c' = img_ c /\ same_frame_size c c'.
Proof.
  intros Hfs Hlen.
  assert (Hrun : TranslateRecord val c
            = Some (set_n_frame_tracker_ (i32 (n_frame_tracker_ c + 1))
                      (set_frame_active_ true (set_current_line_ (-1) c)))).
  { unfold TranslateRecord.
    destruct Hfs as [[-> Hch] | [-> Hch]];
      rewrite translate_special_cases, Hch; reflexivity. }
  destruct (start_acq_record_defined val c _ Hlen Hrun)
    as (rates & -> & Hlen' & _).
  eexists. split; [reflexivity|].
  unfold same_frame_size. cbn. rewrite Hlen, Hlen'. repeat split.
Qed.

Lemma line_start_record (val : Z) (c : MH_camera) :
  is_marker 2 val -> length (live_rates c) = 8%nat ->
  exists c',
    start_acq_record val c = Some c' /\
    current_line_ c'
    = (if frame_active_ c then i32 (current_line_ c + 1)
       else current_line_ c) /\
    frame_active_ c'
    = (if current_line_ c' >? cameraCCDYSize_ c then false
       else frame_active_ c) /\
    img_ c' = img_ c /\ same_frame_size c c'.
Proof.
  intros [Hsp Hch] Hlen.
  assert (Hrun : exists c1, TranslateRecord val c = Some c1 /\
            current_line_ c1
            = (if frame_active_ c then i32 (current_line_ c + 1)
               else current_line_ c) /\
            frame_active_ c1
            = (if current_line_ c1 >? cameraCCDYSize_ c then false
               else frame_active_ c) /\
            img_ c1 = img_ c /\
            cameraCCDXSize_ c1 = cameraCCDXSize_ c /\
            cameraCCDYSize_ c1 = cameraCCDYSize_ c).
  { unfold TranslateRecord. rewrite Hsp, translate_special_cases, Hch.
    cbn [Z.eqb Pos.eqb]. cbv zeta.
    eexists. split; [reflexivity|].
    destruct (frame_active_ c) eqn:Hact; cbn -[i32 Z.gtb];
      destruct (_ >? _) eqn:Hgt; cbn -[i32 Z.gtb];
      rewrite ?Hact, ?Hgt; repeat split. }
  destruct Hrun as (c1 & Hrun & Hline & Hact & Himg & HX & HY).
  destruct (start_acq_record_defined val c _ Hlen Hrun)
    as (rates & -> & Hlen' & _).
  eexists. split; [reflexivity|].
  unfold same_frame_size. cbn. rewrite Hlen, Hlen'. auto 10.
Qed.

Lemma line_end_record (val : Z) (c : MH_camera) :
  is_marker 1 val -> length (live_rates c) = 8%nat ->
  0 < cameraCCDXSize_ c < 2 ^ 31 ->
  exists c',
    start_acq_record val c = Some c' /\
    current_line_ c' = current_line_ c /\
    frame_active_ c' = frame_active_ c /\
    img_ c' = img_ c /\ same_frame_size c c'.
Proof.
  intros [Hsp Hch] Hlen HX.
  assert (Hrun : exists c1, TranslateRecord val c = Some c1 /\
            current_line_ c1 = current_line_ c /\
            frame_active_ c1 = frame_active_ c /\
            img_ c1 = img_ c /\
            cameraCCDXSize_ c1 = cameraCCDXSize_ c /\
            cameraCCDYSize_ c1 = cameraCCDYSize_ c).
  { unfold TranslateRecord. rewrite Hsp, translate_special_cases, Hch.
    cbn [Z.eqb Pos.eqb].
    rewrite (u64_small (cameraCCDXSize_ c)) by (unfold in_u64; lia).
    destruct (Z.eqb_spec (cameraCCDXSize_ c) 0); [lia|].
    eexists. split; [reflexivity|]. repeat split. }
  destruct Hrun as (c1 & Hrun & Hline & Hact & Himg & HX' & HY).
  destruct (start_acq_record_defined val c _ Hlen Hrun)
    as (rates & -> & Hlen' & _).
  eexists. split; [reflexivity|].
  unfold same_frame_size. cbn. rewrite Hlen, Hlen'. auto 10.
Qed.

Lemma photon_record (val : Z) (c c' : MH_camera) :
  is_photon val -> start_acq_record val c = Some c' ->
  current_line_ c' = current_line_ c /\
  frame_active_ c' = frame_active_ c /\
  same_frame_size c c'.
Proof.
  intros Hph Hrun.
  apply start_acq_record_Some in Hrun as (c1 & rates & Hrun & -> & Hlen).
  unfold TranslateRecord in Hrun. rewrite Hph in Hrun.
  unfold same_frame_size. cbn.
  apply translate_photon_frame in Hrun as [-> | [mem ->]]; auto.
Qed.

Lemma photon_batch (ph : list Z) (c c' : MH_camera) :
  Forall is_photon ph -> start_acq_batch ph c = Some c' ->
  current_line_ c' = current_line_ c /\
  frame_active_ c' = frame_active_ c /\
  same_frame_size c c'.
Proof.
  intros Hph. revert c. induction Hph as [|val ph Hval _ IH]; intros c Hrun.
  - cbn in Hrun. apply (inj Some) in Hrun. subst c'.
    auto using same_frame_size_refl.
  - cbn [start_acq_batch] in Hrun.
    destruct (start_acq_record val c) as [c1|] eqn:Hc1; [|discriminate].
    cbn [mbind option_bind] in Hrun.
    destruct (photon_record _ _ _ Hval Hc1) as (Hl1 & Ha1 & Hs1).
    destruct (IH _ Hrun) as (Hl2 & Ha2 & Hs2).
    rewrite Hl2, Ha2, Hl1, Ha1.
    eauto using same_frame_size_trans.
Qed.

Lemma other_special_record (val : Z) (c : MH_camera) :
  special (Interpret_TTTR val) = true ->
  channel (Interpret_TTTR val) <> 1 -> channel (Interpret_TTTR val) <> 2 ->
  channel (Interpret_TTTR val) <> 3 -> channel (Interpret_TTTR val) <> 4 ->
  length (live_rates c) = 8%nat ->
  exists c',
    start_acq_record val c = Some c' /\
    current_line_ c' = current_line_ c /\
    frame_active_ c' = frame_active_ c /\
    img_ c' = img_ c /\ same_frame_size c c'.
Proof.
  intros Hsp H1 H2 H3 H4 Hlen.
  assert (Hrun : exists c1, TranslateRecord val c = Some c1 /\
            current_line_ c1 = current_line_ c /\
            frame_active_ c1 = frame_active_ c /\
            img_ c1 = img_ c /\
            cameraCCDXSize_ c1 = cameraCCDXSize_ c /\
            cameraCCDYSize_ c1 = cameraCCDYSize_ c).
  { unfold TranslateRecord. rewrite Hsp, translate_special_cases.
    destruct (Z.eqb_spec (channel (Interpret_TTTR val)) 1); [contradiction|].
    destruct (Z.eqb_spec (channel (Interpret_TTTR val)) 2); [contradiction|].
    destruct (Z.eqb_spec (channel (Interpret_TTTR val)) 3); [contradiction|].
    destruct (Z.eqb_spec (channel (Interpret_TTTR val)) 4); [contradiction|].
    cbn [orb].
    destruct (_ =? 63); eexists; (split; [reflexivity|]); repeat split. }
  destruct Hrun as (c1 & Hrun & Hline & Hact & Himg & HX & HY).
  destruct (start_acq_record_defined val c _ Hlen Hrun)
    as (rates & -> & Hlen' & _).
  eexists. split; [reflexivity|].
  unfold same_frame_size. cbn. rewrite Hlen, Hlen'. auto 10.
Qed.

(** The three guards of the photon branch. *)
Lemma translate_photon_dropped (r : TTTR) (timestamp : Z) (c : MH_camera) :
  current_line_ c < 0 \/ last_line_start_ c <= last_line_end_ c \/
  channel r = 6 ->
  translate_photon r timestamp c = Some c.
Proof.
  intros H. unfold translate_photon.
  destruct (Z.ltb_spec (last_line_end_ c) (last_line_start_ c));
    cbn [andb]; [|reflexivity].
  destruct (Z.eqb_spec (channel r) 6); cbn [negb]; [reflexivity|].
  destruct (Z.geb_spec (current_line_ c) 0); [|reflexivity].
  lia.
Qed.

Lemma idle_record (val : Z) (c : MH_camera) :
  idle c -> ~ is_frame_start val ->
  length (live_rates c) = 8%nat ->
  0 < cameraCCDXSize_ c < 2 ^ 31 ->
  exists c',
    start_acq_record val c = Some c' /\
    idle c' /\ img_ c' = img_ c /\ same_frame_size c c'.
Proof.
  intros [Hline Hact] Hnfs Hlen HX. unfold idle.
  destruct (special (Interpret_TTTR val)) eqn:Hsp.
  - destruct (Z.eq_dec (channel (Interpret_TTTR val)) 1) as [H1|H1].
    { destruct (line_end_record val c (conj Hsp H1) Hlen HX)
        as (c' & Hrun & Hl & Ha & Hi & Hs).
      exists c'. rewrite Hl, Ha. auto. }
    destruct (Z.eq_dec (channel (Interpret_TTTR val)) 2) as [H2|H2].
    { destruct (line_start_record val c (conj Hsp H2) Hlen)
        as (c' & Hrun & Hl & Ha & Hi & Hs).
      rewrite Hact in Hl, Ha.
      exists c'. split; [exact Hrun|]. split; [|auto].
      split; [congruence|]. rewrite Ha. destruct (_ >? _); reflexivity. }
    destruct (Z.eq_dec (channel (Interpret_TTTR val)) 3) as [H3|H3].
    { exfalso. apply Hnfs. left. split; assumption. }
    destruct (Z.eq_dec (channel (Interpret_TTTR val)) 4) as [H4|H4].
    { exfalso. apply Hnfs. right. split; assumption. }
    destruct (other_special_record val c Hsp H1 H2 H3 H4 Hlen)
      as (c' & Hrun & Hl & Ha & Hi & Hs).
    exists c'. rewrite Hl, Ha. auto.
  - assert (Hrun : TranslateRecord val c = Some c).
    { unfold TranslateRecord. rewrite Hsp.
      apply translate_photon_dropped. lia. }
    destruct (start_acq_record_defined val c _ Hlen Hrun)
      as (rates & -> & Hlen' & _).
    eexists. split; [reflexivity|].
    unfold same_frame_size. cbn. rewrite Hlen, Hlen'. auto 10.
Qed.

Lemma idle_batch (recs : list Z) (c : MH_camera) :
  Forall (fun val => ~ is_frame_start val) recs ->
  idle c -> length (live_rates c) = 8%nat ->
  0 < cameraCCDXSize_ c < 2 ^ 31 ->
  exists c',
    start_acq_batch recs c = Some c' /\
    idle c' /\ img_ c' = img_ c /\ same_frame_size c c'.
Proof.
  intros Hrecs. revert c.
  induction Hrecs as [|val recs Hval _ IH]; intros c Hidle Hlen HX.
  - exists c. auto using same_frame_size_refl.
  - destruct (idle_record val c Hidle Hval Hlen HX)
      as (c1 & Hrun1 & Hidle1 & Himg1 & Hs1).
    destruct Hs1 as (HX1 & HY1 & Hlen1).
    destruct (IH c1 Hidle1) as (c' & Hrun & Hidle' & Himg' & Hs');
      [congruence | rewrite HX1; exact HX |].
    exists c'. cbn [start_acq_batch]. rewrite Hrun1. cbn [mbind option_bind].
    split; [exact Hrun|]. split; [exact Hidle'|].
    split; [congruence|].
    eapply same_frame_size_trans; [|exact Hs']. repeat split; assumption.
Qed.

(** ** Photons without a line *)

(** How the code gates photon records.  A non-special record that is
    processed while [current_line_ < 0], or while the last line end is not
    before the last line start, or on channel 6, leaves the camera object,
    and so the pixel buffer, exactly as it was.  From the reset of
    [start_acq] until the first frame-start marker the frame is inactive and
    [current_line_] is -1, so every photon record of that stretch is
    dropped.  [frame_active_] itself is not consulted for photon records. *)
Lemma photon_dropped_without_line (val : Z) (c : MH_camera) :
  is_photon val ->
  (current_line_ c < 0 \/ last_line_start_ c <= last_line_end_ c \/
   channel (Interpret_TTTR val) = 6 ->
   TranslateRecord val c = Some c) /\
  (forall c0 recs,
     post_reset c0 ->
     0 < cameraCCDXSize_ c0 < 2 ^ 31 ->
     Forall (fun v => ~ is_frame_start v) recs ->
     start_acq_batch recs c0 = Some c ->
     frame_active_ c = false /\ current_line_ c = -1 /\
     TranslateRecord val c = Some c).
Proof.
  intros Hph.
  assert (Hdrop : current_line_ c < 0 \/
            last_line_start_ c <= last_line_end_ c \/
            channel (Interpret_TTTR val) = 6 ->
            TranslateRecord val c = Some c).
  { intros H. unfold TranslateRecord. rewrite Hph.
    apply translate_photon_dropped, H. }
  split; [exact Hdrop|].
  intros c0 recs Hreset HX Hrecs Hrun.
  destruct (post_reset_fields c0 Hreset)
    as (Hline & Hact & _ & _ & _ & Hrates).
  assert (Hlen : length (live_rates c0) = 8%nat)
    by (rewrite Hrates; reflexivity).
  destruct (idle_batch recs c0 Hrecs (conj Hline Hact) Hlen HX)
    as (c' & Hrun' & [Hl Ha] & _).
  rewrite Hrun in Hrun'. apply (inj Some) in Hrun'. subst c'.
  split; [exact Ha|]. split; [exact Hl|]. apply Hdrop. lia.
Qed.

(** The photon record [0x0A000001] (channel 5, sync 1) is dropped on the
    constructed object, whose [current_line_] is -99, and on the object
    reached from its reset by the line start [0x84000001] and the line end
    [0x82000002]. *)
Example photon_dropped_before_frame_start :
  TranslateRecord 0x0A000001 MH_camera_ctor = Some MH_camera_ctor /\
  exists c0 c,
    start_acq_reset MH_camera_ctor = Some c0 /\
    start_acq_batch [0x84000001; 0x82000002] c0 = Some c /\
    frame_active_ c = false /\ current_line_ c = -1 /\
    TranslateRecord 0x0A000001 c = Some c.
Proof.
  split.
  - destruct (photon_dropped_without_line 0x0A000001 MH_camera_ctor)
      as [H _]; [reflexivity|].
    apply H. left. cbn. lia.
  - pose (c0 := default MH_camera_ctor (start_acq_reset MH_camera_ctor)).
    pose (c := default c0 (start_acq_batch [0x84000001; 0x82000002] c0)).
    exists c0, c.
    split; [vm_compute; reflexivity|]. split; [vm_compute; reflexivity|].
    apply (proj2 (photon_dropped_without_line 0x0A000001 c eq_refl)
             c0 [0x84000001; 0x82000002]).
    + exists MH_camera_ctor. vm_compute. reflexivity.
    + split; reflexivity.
    + repeat constructor; intros [[_ H] | [_ H]]; discriminate H.
    + vm_compute. reflexivity.
Qed.

(** C6, the code at photons that arrive while the frame is inactive.  On
    the initialised camera (composite 240 x 240, 57600 samples of 16 bits)
    after the reset of [start_acq], a frame start and 242 line starts leave
    the line index at 241, past the composite height 240, and the frame
    inactive.  The photon branch does not look at [frame_active_]: the
    photon [0x0E000001] (channel 7) is written, sample 19440 going from 0 to
    1, and for each of the channels 0 to 5 the index of the write lies past
    the 57600 samples and processing the photon is undefined. *)
Theorem C6_photon_written_while_frame_inactive :
  let before :=
    start_acq_batch (0x86000000 :: replicate 242 0x84000001)
      MH_camera_loop_entry in
  let after := before ≫= TranslateRecord 0x0E000001 in
  let photon ch := Z.shiftl ch 25 + 1 in
  is_photon 0x0E000001 /\
  frame_active_ <$> before = Some false /\
  current_line_ <$> before = Some 241 /\
  (fun c => load16 (GetPixels (img_ c)) 19440) <$> before = Some (Some 0) /\
  (fun c => load16 (GetPixels (img_ c)) 19440) <$> after = Some (Some 1) /\
  (fun ch => before ≫= record_target (photon ch)) <$> [0; 1; 2; 3; 4; 5]
  = Some <$> [96360; 77160; 57960; 96240; 77040; 57840] /\
  (fun ch => current_line_ <$> (before ≫= TranslateRecord (photon ch)))
    <$> [0; 1; 2; 3; 4; 5]
  = [None; None; None; None; None; None].
Proof. vm_compute. repeat split. Qed.

(** ** Lines of a frame *)

Section FrameSequence.

Variable c : MH_camera.
Hypothesis Hlen : length (live_rates c) = 8%nat.
Hypothesis HX : 0 < cameraCCDXSize_ c < 2 ^ 31.

Lemma start_acq_batch_two (r1 r2 : Z) (c1 c2 c3 : MH_camera) :
  start_acq_record r1 c1 = Some c2 -> start_acq_record r2 c2 = Some c3 ->
  start_acq_batch [r1; r2] c1 = Some c3.
Proof.
  intros H1 H2. cbn [start_acq_batch]. rewrite H1. cbn [mbind option_bind].
  rewrite H2. reflexivity.
Qed.

Lemma scanning_first_line (fs ls : Z) :
  is_frame_start fs -> is_marker 2 ls -> 0 <= cameraCCDYSize_ c ->
  exists c1, start_acq_batch [fs; ls] c = Some c1 /\ scanning 0 c c1.
Proof.
  intros Hfs Hls HY.
  destruct (frame_start_record fs c Hfs Hlen)
    as (cA & HrA & HlA & HaA & _ & _ & HsA).
  pose proof HsA as (HXA & HYA & HlenA).
  destruct (line_start_record ls cA Hls) as (c1 & Hr1 & Hl1 & Ha1 & _ & Hs1);
    [congruence|].
  exists c1. split; [eapply start_acq_batch_two; eassumption|].
  rewrite HaA, HlA in Hl1. change (i32 (-1 + 1)) with 0 in Hl1.
  rewrite Hl1, HYA, HaA in Ha1.
  split; [exact Hl1|]. split; [|eapply same_frame_size_trans; eassumption].
  rewrite Ha1. destruct (Z.gtb_spec 0 (cameraCCDYSize_ c)); [lia|reflexivity].
Qed.

Lemma scanning_photons (n : Z) (p : list Z) (c1 c2 : MH_camera) :
  scanning n c c1 -> Forall is_photon p ->
  start_acq_batch p c1 = Some c2 -> scanning n c c2.
Proof.
  intros (Hl & Ha & Hs) Hp Hrun.
  destruct (photon_batch p c1 c2 Hp Hrun) as (Hl' & Ha' & Hs').
  split; [congruence|]. split; [congruence|].
  eapply same_frame_size_trans; eassumption.
Qed.

Lemma scanning_line_end (n le : Z) (c1 : MH_camera) :
  scanning n c c1 -> is_marker 1 le ->
  exists c2, start_acq_batch [le] c1 = Some c2 /\ scanning n c c2.
Proof.
  intros (Hl & Ha & Hs) Hle. pose proof Hs as (HX1 & HY1 & Hlen1).
  destruct (line_end_record le c1 Hle) as (c2 & Hr & Hl2 & Ha2 & _ & Hs2);
    [congruence | rewrite HX1; exact HX |].
  exists c2. split.
  - cbn [start_acq_batch]. rewrite Hr. reflexivity.
  - split; [congruence|]. split; [congruence|].
    eapply same_frame_size_trans; eassumption.
Qed.

Lemma scanning_next_line (n le ls : Z) (c1 : MH_camera) :
  scanning n c c1 -> is_marker 1 le -> is_marker 2 ls ->
  0 <= n -> n + 1 <= cameraCCDYSize_ c -> n + 1 < 2 ^ 31 ->
  exists c3, start_acq_batch [le; ls] c1 = Some c3 /\ scanning (n + 1) c c3.
Proof.
  intros (Hl & Ha & Hs) Hle Hls Hn HnY Hn31.
  pose proof Hs as (HX1 & HY1 & Hlen1).
  destruct (line_end_record le c1 Hle) as (c2 & Hr2 & Hl2 & Ha2 & _ & Hs2);
    [congruence | rewrite HX1; exact HX |].
  pose proof Hs2 as (HX2 & HY2 & Hlen2).
  destruct (line_start_record ls c2 Hls) as (c3 & Hr3 & Hl3 & Ha3 & _ & Hs3);
    [congruence|].
  exists c3. split; [eapply start_acq_batch_two; eassumption|].
  rewrite Ha2, Ha, Hl2, Hl in Hl3.
  rewrite (i32_small (n + 1)) in Hl3 by (unfold in_i32; lia).
  rewrite Hl3, HY2, HY1, Ha2, Ha in Ha3.
  split; [exact Hl3|]. split.
  - rewrite Ha3.
    destruct (Z.gtb_spec (n + 1) (cameraCCDYSize_ c)); [lia|reflexivity].
  - eapply same_frame_size_trans; [exact Hs|].
    eapply same_frame_size_trans; eassumption.
Qed.

End FrameSequence.

Lemma frame_start_TranslateRecord (val : Z) (c : MH_camera) :
  is_frame_start val ->
  exists c',
    TranslateRecord val c = Some c' /\
    current_line_ c' = -1 /\ frame_active_ c' = true /\
    n_frame_tracker_ c' = i32 (n_frame_tracker_ c + 1) /\
    img_ c' = img_ c.
Proof.
  intros Hfs. eexists. split.
  - unfold TranslateRecord.
    destruct Hfs as [[-> Hch] | [-> Hch]];
      rewrite translate_special_cases, Hch; reflexivity.
  - repeat split.
Qed.

(** The line and frame state through the records of two lines.  Let the
    record loop start in its reset state, with a composite width between 1 and 2^31 - 1 and a composite height of at least 1, and
    let it receive a frame start (channel 3 or 4), a line start, photons
    [ph1], a line end, a line start, photons [ph2] and a line end.
    - A frame-start marker, in any state, is handled, sets [current_line_] to
      -1, activates the frame and adds one to [n_frame_tracker_] (as an
      [int]); it leaves the pixel buffer alone.
    - The two markers that open the sequence are handled and leave line 0
      with the frame active; so is every state reached inside [ph1].
    - Once [ph1] is through, the line end and line start are handled and
      leave line 1 with the frame active; so is every state reached inside
      [ph2], and the state after the closing line end, which is handled too.
    - Any records without a frame start that arrive first are all handled,
      leave the pixel buffer as it was, the frame inactive and
      [current_line_] at -1. *)
Lemma frame_line_state_machine
    (c0 : MH_camera) (fs ls1 le1 ls2 le2 : Z) (ph1 ph2 : list Z) :
  post_reset c0 ->
  0 < cameraCCDXSize_ c0 < 2 ^ 31 ->
  1 <= cameraCCDYSize_ c0 ->
  is_frame_start fs ->
  is_marker 2 ls1 -> is_marker 1 le1 ->
  is_marker 2 ls2 -> is_marker 1 le2 ->
  Forall is_photon ph1 -> Forall is_photon ph2 ->
  (forall c, exists c',
     TranslateRecord fs c = Some c' /\
     current_line_ c' = -1 /\ frame_active_ c' = true /\
     n_frame_tracker_ c' = i32 (n_frame_tracker_ c + 1) /\
     img_ c' = img_ c) /\
  (exists c1,
     start_acq_batch [fs; ls1] c0 = Some c1 /\
     current_line_ c1 = 0 /\ frame_active_ c1 = true) /\
  (forall p c, p `prefix_of` ph1 ->
     start_acq_batch ([fs; ls1] ++ p) c0 = Some c ->
     current_line_ c = 0 /\ frame_active_ c = true) /\
  (forall c2, start_acq_batch ([fs; ls1] ++ ph1) c0 = Some c2 ->
     exists c3,
       start_acq_batch [le1; ls2] c2 = Some c3 /\
       current_line_ c3 = 1 /\ frame_active_ c3 = true) /\
  (forall p c, p `prefix_of` ph2 ->
     start_acq_batch ([fs; ls1] ++ ph1 ++ [le1; ls2] ++ p) c0 = Some c ->
     current_line_ c = 1 /\ frame_active_ c = true) /\
  (forall c4,
     start_acq_batch ([fs; ls1] ++ ph1 ++ [le1; ls2] ++ ph2) c0 = Some c4 ->
     exists c5,
       start_acq_batch [le2] c4 = Some c5 /\
       current_line_ c5 = 1 /\ frame_active_ c5 = true) /\
  (forall pre, Forall (fun v => ~ is_frame_start v) pre ->
     exists c,
       start_acq_batch pre c0 = Some c /\
       img_ c = img_ c0 /\
       frame_active_ c = false /\ current_line_ c = -1).
Proof.
  intros Hreset HX HY Hfs Hls1 Hle1 Hls2 Hle2 Hph1 Hph2.
  destruct (post_reset_fields c0 Hreset)
    as (Hline & Hact & _ & _ & _ & Hrates).
  assert (Hlen : length (live_rates c0) = 8%nat)
    by (rewrite Hrates; reflexivity).
  destruct (scanning_first_line c0 Hlen fs ls1 Hfs Hls1) as (c1 & Hrun1 & Hs1);
    [lia|].
  assert (Hin1 : forall p c, p `prefix_of` ph1 ->
            start_acq_batch ([fs; ls1] ++ p) c0 = Some c -> scanning 0 c0 c).
  { intros p c [k ->] Hrun. apply Forall_app in Hph1 as [Hp _].
    rewrite start_acq_batch_app, Hrun1 in Hrun.
    cbn [mbind option_bind] in Hrun.
    apply (scanning_photons c0 0 p c1 c); assumption. }
  assert (Hnext : forall c2,
            start_acq_batch ([fs; ls1] ++ ph1) c0 = Some c2 ->
            exists c3, start_acq_batch [le1; ls2] c2 = Some c3 /\
                       scanning 1 c0 c3).
  { intros c2 Hrun2.
    apply (scanning_next_line c0 Hlen HX 0 le1 ls2 c2); try assumption; try lia.
    apply (Hin1 ph1 c2); [reflexivity | exact Hrun2]. }
  assert (Hin2 : forall p c, p `prefix_of` ph2 ->
            start_acq_batch ([fs; ls1] ++ ph1 ++ [le1; ls2] ++ p) c0 = Some c ->
            scanning 1 c0 c).
  { intros p c [k ->] Hrun. apply Forall_app in Hph2 as [Hp _].
    rewrite app_assoc, start_acq_batch_app in Hrun.
    destruct (start_acq_batch ([fs; ls1] ++ ph1) c0) as [c2|] eqn:Hrun2;
      [|discriminate].
    cbn [mbind option_bind] in Hrun.
    destruct (Hnext c2 eq_refl) as (c3 & Hrun3 & Hs3).
    rewrite start_acq_batch_app, Hrun3 in Hrun.
    cbn [mbind option_bind] in Hrun.
    apply (scanning_photons c0 1 p c3 c); assumption. }
  split; [intros c; apply frame_start_TranslateRecord, Hfs|].
  split; [exists c1; destruct Hs1 as (? & ? & _); auto|].
  split; [intros p c Hp Hrun; destruct (Hin1 p c Hp Hrun) as (? & ? & _); auto|].
  split.
  { intros c2 Hrun2. destruct (Hnext c2 Hrun2) as (c3 & Hrun3 & ? & ? & _).
    eauto. }
  split; [intros p c Hp Hrun; destruct (Hin2 p c Hp Hrun) as (? & ? & _); auto|].
  split.
  { intros c4 Hrun4.
    destruct (scanning_line_end c0 Hlen HX 1 le2 c4) as (c5 & Hrun5 & ? & ? & _);
      [apply (Hin2 ph2 c4); [reflexivity | exact Hrun4] | exact Hle2 |].
    eauto. }
  intros pre Hpre.
  destruct (idle_batch pre c0 Hpre (conj Hline Hact) Hlen HX)
    as (c & Hrun & [Hl Ha] & Himg & _).
  eauto 10.
Qed.

(** At the entry of the record loop on the constructed geometry, with
    the frame start [0x86000000], line starts at sync 1 and 101, line ends
    at sync 100 and 200, and one photon of channel 5 in each line.  The
    photons are written: sample 0 of line 0 and sample 1 of line 1 hold one
    count afterwards. *)
Example frame_line_state_machine_at_loop_entry :
  let c0 := MH_camera_loop_entry in
  let recs := [0x86000000; 0x84000001; 0x0A000002; 0x82000064;
               0x84000065; 0x0A000066; 0x820000C8] in
  (exists c1,
     start_acq_batch [0x86000000; 0x84000001] c0 = Some c1 /\
     current_line_ c1 = 0 /\ frame_active_ c1 = true) /\
  current_line_ <$> start_acq_batch (take 3 recs) c0 = Some 0 /\
  current_line_ <$> start_acq_batch (take 6 recs) c0 = Some 1 /\
  current_line_ <$> start_acq_batch recs c0 = Some 1 /\
  frame_active_ <$> start_acq_batch recs c0 = Some true /\
  (fun c => load16 (GetPixels (img_ c)) 0) <$> start_acq_batch recs c0
  = Some (Some 1) /\
  (fun c => load16 (GetPixels (img_ c)) 241) <$> start_acq_batch recs c0
  = Some (Some 1).
Proof.
  cbv zeta. split; [|vm_compute; repeat split].
  assert (HX : 0 < cameraCCDXSize_ MH_camera_loop_entry < 2 ^ 31)
    by (vm_compute; split; reflexivity).
  assert (HY : 1 <= cameraCCDYSize_ MH_camera_loop_entry)
    by (vm_compute; discriminate).
  destruct (frame_line_state_machine MH_camera_loop_entry
              0x86000000 0x84000001 0x82000064 0x84000065 0x820000C8
              [0x0A000002] [0x0A000066] post_reset_loop_entry HX HY)
    as (_ & H & _).
  - left. split; reflexivity.
  - split; reflexivity.
  - split; reflexivity.
  - split; reflexivity.
  - split; reflexivity.
  - repeat constructor.
  - repeat constructor.
  - exact H.
Qed.

(** C5, the code at the sequence of the specification with a photon of
    channel 7 in the first line.  From the entry of the record loop on the
    initialised camera, the frame start [0x86000000] and the line start
    [0x84000001] lead to line 0 with the frame active.  For the photon
    [0x0E000001] that follows, [tmpchan] is 5 - 7 = -2, the beam shift is
    (0, -160) and the index of the write is (0 - 160) * 240 = -38400,
    outside the pixel array: processing the photon is undefined, and so is
    the sequence. *)
Theorem C5_sequence_with_stray_photon_undefined :
  let recs := [0x86000000; 0x84000001; 0x0E000001; 0x82000064;
               0x84000065; 0x0A000066; 0x820000C8] in
  let opened := start_acq_batch (take 2 recs) MH_camera_loop_entry in
  is_frame_start 0x86000000 /\
  is_marker 2 0x84000001 /\ is_photon 0x0E000001 /\
  is_marker 1 0x82000064 /\ is_marker 2 0x84000065 /\
  is_photon 0x0A000066 /\ is_marker 1 0x820000C8 /\
  (fun c => (current_line_ c, frame_active_ c)) <$> opened
  = Some (0, true) /\
  opened ≫= record_target 0x0E000001 = Some (-38400) /\
  opened ≫= TranslateRecord 0x0E000001 = None /\
  start_acq_batch (take 3 recs) MH_camera_loop_entry = None /\
  start_acq_batch recs MH_camera_loop_entry = None.
Proof.
  cbv zeta. split; [left; split; reflexivity|].
  repeat (split; [first [split; reflexivity | vm_compute; reflexivity]|]).
  vm_compute. reflexivity.
Qed.

(** ** A photon beyond the scan width, through the whole loop *)

(** After a frame start, a line start at sync 1 and three overflow markers
    of 1023 periods each, a photon of channel 5 (beam shift (0, 0)) at sync 0
    lies 396 dwell times into the line; it is counted in sample 198 of line
    0, in the columns of the second beam. *)
Example photon_beyond_scan_width :
  let recs := [0x86000000; 0x84000001; 0xFE0003FF; 0xFE0003FF; 0xFE0003FF] in
  let before := start_acq_batch recs MH_camera_loop_entry in
  overflow_counter_ <$> before = Some 3069 /\
  before ≫= record_target 0x0A000000 = Some 198 /\
  (fun c => load16 (GetPixels (img_ c)) 198)
    <$> (before ≫= start_acq_record 0x0A000000)
  = Some (Some 1).
Proof. vm_compute. repeat split. Qed.

(** * Further properties *)

(** ** What one record does to the line and frame state *)

Lemma start_acq_record_scan (val : Z) (c c' : MH_camera) :
  start_acq_record val c = Some c' ->
  let r := Interpret_TTTR val in
  same_frame_size c c' /\
  (current_line_ c', frame_active_ c')
  = if special r then
      if channel r =? 2 then
        let l := if frame_active_ c then i32 (current_line_ c + 1)
                 else current_line_ c in
        (l, if l >? cameraCCDYSize_ c then false else frame_active_ c)
      else if (channel r =? 3) || (channel r =? 4) then (-1, true)
      else (current_line_ c, frame_active_ c)
    else (current_line_ c, frame_active_ c).
Proof.
  intros Hrun r.
  destruct (special r) eqn:Hsp.
  - apply start_acq_record_Some in Hrun as (c1 & rates & Hrun & -> & Hlen).
    unfold TranslateRecord in Hrun. fold r in Hrun. rewrite Hsp in Hrun.
    rewrite translate_special_cases in Hrun. cbv zeta in Hrun.
    unfold same_frame_size. cbn [current_line_ frame_active_ cameraCCDXSize_
      cameraCCDYSize_ live_rates set_live_rates].
    destruct (Z.eqb_spec (channel r) 1) as [E1|_].
    { rewrite E1. cbn [Z.eqb Pos.eqb orb].
      destruct (_ =? 0); [discriminate|].
      apply (inj Some) in Hrun. subst c1. auto. }
    destruct (channel r =? 2).
    { apply (inj Some) in Hrun. subst c1.
      destruct (frame_active_ c) eqn:Hact; cbn -[i32 Z.gtb];
        destruct (_ >? _) eqn:Hgt; cbn -[i32 Z.gtb];
        rewrite ?Hact, ?Hgt; auto. }
    destruct ((channel r =? 3) || (channel r =? 4)).
    { apply (inj Some) in Hrun. subst c1. auto. }
    destruct (channel r =? 63); apply (inj Some) in Hrun; subst c1; auto.
  - destruct (photon_record val c c' Hsp Hrun) as (-> & -> & Hs). auto.
Qed.

(** X1.  From the reset of [start_acq], with a composite height between 0
    and 2^31 - 2, every state that the record loop reaches has
    [-1 <= current_line_ <= cameraCCDYSize_ + 1], and
    [current_line_ <= cameraCCDYSize_] while the frame is active. *)
Theorem line_index_bounded (c0 c : MH_camera) (buffer : list Z) :
  post_reset c0 ->
  0 <= cameraCCDYSize_ c0 < 2 ^ 31 - 1 ->
  start_acq_batch buffer c0 = Some c ->
  -1 <= current_line_ c <= cameraCCDYSize_ c0 + 1 /\
  (frame_active_ c = true -> current_line_ c <= cameraCCDYSize_ c0).
Proof.
  intros Hreset HY Hrun.
  destruct (post_reset_fields c0 Hreset) as (Hline & Hact & _).
  assert (Hinv : forall buffer c1 c2,
            cameraCCDYSize_ c1 = cameraCCDYSize_ c0 ->
            (-1 <= current_line_ c1 <= cameraCCDYSize_ c0 + 1 /\
             (frame_active_ c1 = true ->
              current_line_ c1 <= cameraCCDYSize_ c0)) ->
            start_acq_batch buffer c1 = Some c2 ->
            -1 <= current_line_ c2 <= cameraCCDYSize_ c0 + 1 /\
            (frame_active_ c2 = true ->
             current_line_ c2 <= cameraCCDYSize_ c0)).
  { clear - HY. intros buffer0. induction buffer0 as [|val rest IH];
      intros c1 c2 HY1 Hinv Hrun.
    - cbn in Hrun. apply (inj Some) in Hrun. subst c2. exact Hinv.
    - cbn [start_acq_batch] in Hrun.
      destruct (start_acq_record val c1) as [c3|] eqn:Hc3; [|discriminate].
      cbn [mbind option_bind] in Hrun.
      destruct (start_acq_record_scan val c1 c3 Hc3) as ((_ & HY3 & _) & Hst).
      apply (IH c3 c2); [congruence | | exact Hrun].
      clear IH Hrun Hc3. rewrite HY1 in Hst. destruct Hinv as [Hb Ha].
      assert (Hk : forall z, -1 <= z <= cameraCCDYSize_ c0 + 1 ->
                (z < 2 ^ 31 - 1 -> i32 (z + 1) = z + 1)).
      { intros z Hz Hlt. apply i32_small. unfold in_i32. lia. }
      destruct (special (Interpret_TTTR val)).
      + destruct (channel (Interpret_TTTR val) =? 2).
        * cbv zeta in Hst. destruct (frame_active_ c1) eqn:Hact1.
          -- specialize (Ha eq_refl).
             rewrite Hk in Hst by lia.
             destruct (Z.gtb_spec (current_line_ c1 + 1) (cameraCCDYSize_ c0));
               injection Hst as -> ->; split; (lia || (intros; lia)
                 || discriminate).
          -- destruct (_ >? _); injection Hst as -> ->;
               split; (lia || discriminate).
        * destruct (_ || _); injection Hst as -> ->; split;
            (lia || (intros; lia) || auto).
      + injection Hst as -> ->. auto. }
  apply (Hinv buffer c0 c); [reflexivity | | exact Hrun].
  rewrite Hline, Hact. split; [lia | discriminate].
Qed.

(** X1 at the entry of the record loop on the constructed geometry (height
    240), after a frame start and 300 line starts. *)
Lemma line_index_bounded_witness :
  exists c,
    start_acq_batch (0x86000000 :: replicate 300 0x84000001)
      MH_camera_loop_entry = Some c /\
    current_line_ c <= 241.
Proof.
  destruct (start_acq_batch (0x86000000 :: replicate 300 0x84000001)
              MH_camera_loop_entry) as [c|] eqn:Hrun.
  - exists c. split; [reflexivity|].
    destruct (line_index_bounded MH_camera_loop_entry c
                (0x86000000 :: replicate 300 0x84000001)
                post_reset_loop_entry) as [H _].
    + vm_compute. split; [discriminate | reflexivity].
    + exact Hrun.
    + change (cameraCCDYSize_ MH_camera_loop_entry) with 240 in H. lia.
  - exfalso.
    assert (H : current_line_ <$>
                start_acq_batch (0x86000000 :: replicate 300 0x84000001)
                  MH_camera_loop_entry = Some 241)
      by (vm_compute; reflexivity).
    rewrite Hrun in H. discriminate H.
Defined.

(** ** The rate table counts records by channel *)

Lemma u32_succ (n : Z) : u32 (u32 n + 1) = u32 (n + 1).
Proof. unfold u32. apply Zplus_mod_idemp_l. Qed.

Lemma count_channel_cons (ch val : Z) (rest : list Z) :
  count_channel ch (val :: rest)
  = (if channel (Interpret_TTTR val) =? ch then 1 else 0)
    + count_channel ch rest.
Proof.
  unfold count_channel.
  destruct (Z.eqb_spec (channel (Interpret_TTTR val)) ch) as [E|E].
  - rewrite filter_cons_True by exact E. cbn [length]. lia.
  - rewrite filter_cons_False by exact E. lia.
Qed.

Lemma start_acq_record_rates (val : Z) (c c' : MH_camera) (ch n : Z) :
  length (live_rates c) = 8%nat ->
  start_acq_record val c = Some c' ->
  0 <= ch < MAX_N_CHANNELS ->
  live_rates c !! Z.to_nat ch = Some (u32 n) ->
  length (live_rates c') = 8%nat /\
  live_rates c' !! Z.to_nat ch
  = Some (u32 (n + (if channel (Interpret_TTTR val) =? ch then 1 else 0))).
Proof.
  intros Hlen Hrun Hch Hn.
  pose proof Hrun as Hrun'.
  apply start_acq_record_Some in Hrun' as (c1 & _ & Hc1 & _ & _).
  destruct (start_acq_record_defined val c c1 Hlen Hc1)
    as (rates & Hrun2 & Hlen2 & Hspec).
  rewrite Hrun in Hrun2. apply (inj Some) in Hrun2. subst c'.
  cbn [live_rates set_live_rates]. split; [exact Hlen2|].
  cbv zeta in Hspec. unfold MAX_N_CHANNELS in *.
  pose proof (Interpret_TTTR_ranges val) as (_ & _ & Hrange).
  destruct (Z.ltb_spec (channel (Interpret_TTTR val)) 8) as [Hlt|Hge].
  - destruct Hspec as (v & Hv & ->).
    destruct (Z.eqb_spec (channel (Interpret_TTTR val)) ch) as [E|E].
    + rewrite E in *. rewrite Hn in Hv. apply (inj Some) in Hv. subst v.
      rewrite list_lookup_insert_eq by (rewrite Hlen; lia).
      rewrite u32_succ. reflexivity.
    + rewrite list_lookup_insert_ne by lia.
      rewrite Z.add_0_r. exact Hn.
  - subst rates.
    destruct (Z.eqb_spec (channel (Interpret_TTTR val)) ch) as [E|E]; [lia|].
    rewrite Z.add_0_r. exact Hn.
Qed.

(** X2. From the reset of [start_acq], after any batch that is processed, the
    entry of each channel below [MAX_N_CHANNELS] is the number of records of
    the batch, special or not, that carry this channel, as an unsigned 32-bit
    value. *)
Theorem rate_table_counts_records (c0 c : MH_camera) (buffer : list Z)
    (ch : Z) :
  post_reset c0 ->
  start_acq_batch buffer c0 = Some c ->
  0 <= ch < MAX_N_CHANNELS ->
  live_rates c !! Z.to_nat ch = Some (u32 (count_channel ch buffer)) /\
  (count_channel ch buffer < 2 ^ 32 ->
   live_rates c !! Z.to_nat ch = Some (count_channel ch buffer)).
Proof.
  intros Hreset Hrun Hch.
  destruct (post_reset_fields c0 Hreset) as (_ & _ & _ & _ & _ & Hrates).
  assert (Hgen : forall buffer c1 c2 n,
            length (live_rates c1) = 8%nat ->
            live_rates c1 !! Z.to_nat ch = Some (u32 n) ->
            start_acq_batch buffer c1 = Some c2 ->
            live_rates c2 !! Z.to_nat ch
            = Some (u32 (n + count_channel ch buffer))).
  { clear - Hch. intros buffer. induction buffer as [|val rest IH];
      intros c1 c2 n Hlen Hn Hrun.
    - cbn in Hrun. apply (inj Some) in Hrun. subst c2.
      change (count_channel ch []) with 0. rewrite Z.add_0_r. exact Hn.
    - cbn [start_acq_batch] in Hrun.
      destruct (start_acq_record val c1) as [c3|] eqn:Hc3; [|discriminate].
      cbn [mbind option_bind] in Hrun.
      destruct (start_acq_record_rates val c1 c3 ch n Hlen Hc3 Hch Hn)
        as [Hlen3 Hn3].
      rewrite (IH c3 c2 _ Hlen3 Hn3 Hrun), count_channel_cons.
      f_equal. f_equal. lia. }
  assert (H : live_rates c !! Z.to_nat ch
              = Some (u32 (count_channel ch buffer))).
  { apply (Hgen buffer c0 c 0); [rewrite Hrates; reflexivity | | exact Hrun].
    rewrite Hrates. unfold MAX_N_CHANNELS in Hch.
    apply (lookup_replicate_2 8 0 (Z.to_nat ch)). lia. }
  split; [exact H|].
  intros Hfit. rewrite H. f_equal. apply u32_small. unfold in_u32.
  unfold count_channel in *. lia.
Qed.

(** X2: The same at the entry of the record loop on the constructed object: a
    frame start (channel 3), two line starts (channel 2) and a photon of
    channel 2 leave three counts for channel 2. *)
Lemma rate_table_counts_records_witness :
  exists c,
    start_acq_batch [0x86000000; 0x84000001; 0x84000002; 0x04000003]
      MH_camera_loop_entry = Some c /\
    live_rates c !! 2%nat = Some 3.
Proof.
  destruct (start_acq_batch [0x86000000; 0x84000001; 0x84000002; 0x04000003]
              MH_camera_loop_entry) as [c|] eqn:Hrun.
  - exists c. split; [reflexivity|].
    destruct (rate_table_counts_records MH_camera_loop_entry c
                [0x86000000; 0x84000001; 0x84000002; 0x04000003] 2
                post_reset_loop_entry Hrun) as [_ H].
    + unfold MAX_N_CHANNELS. lia.
    + apply H. reflexivity.
  - exfalso.
    assert (H : current_line_ <$>
                start_acq_batch
                  [0x86000000; 0x84000001; 0x84000002; 0x04000003]
                  MH_camera_loop_entry = Some 1)
      by (vm_compute; reflexivity).
    rewrite Hrun in H. discriminate H.
Defined.

(** ** Dwell time and time stamps *)

(** X3. A line-end marker that is not earlier than the line start, on a
    composite width between 1 and 2^31 - 1, is handled, stores its time as the
    line end and sets the dwell time to the integer quotient of the line
    duration by the composite width; the dwell time is zero exactly when the
    line lasted less than [cameraCCDXSize_] picoseconds. *)
Theorem line_end_sets_dwell_time (val : Z) (c : MH_camera) :
  is_marker 1 val ->
  0 < cameraCCDXSize_ c < 2 ^ 31 ->
  0 <= last_line_start_ c <= timestamp_ps c (sync (Interpret_TTTR val)) ->
  let duration :=
    timestamp_ps c (sync (Interpret_TTTR val)) - last_line_start_ c in
  exists c',
    TranslateRecord val c = Some c' /\
    last_line_end_ c' = timestamp_ps c (sync (Interpret_TTTR val)) /\
    last_line_start_ c' = last_line_start_ c /\
    pixel_dwelltime_ps_ c' = duration / cameraCCDXSize_ c /\
    pixel_dwelltime_ps_ c' * cameraCCDXSize_ c <= duration
      < (pixel_dwelltime_ps_ c' + 1) * cameraCCDXSize_ c /\
    (pixel_dwelltime_ps_ c' = 0 <-> duration < cameraCCDXSize_ c).
Proof.
  intros [Hsp Hch] HX Hts duration.
  pose proof (u64_range
    (u64 (sync (Interpret_TTTR val) + u64 (overflow_counter_ c * 1024))
     * MeasDesc_GlobalResolution_ c)) as Hr.
  change (in_u64 (timestamp_ps c (sync (Interpret_TTTR val)))) in Hr.
  unfold in_u64 in Hr.
  unfold TranslateRecord. rewrite Hsp, translate_special_cases, Hch.
  cbn [Z.eqb Pos.eqb].
  rewrite (u64_small (cameraCCDXSize_ c)) by (unfold in_u64; lia).
  destruct (Z.eqb_spec (cameraCCDXSize_ c) 0); [lia|].
  eexists. split; [reflexivity|].
  cbn [last_line_end_ last_line_start_ pixel_dwelltime_ps_
       set_pixel_dwelltime_ps_ set_last_line_end_].
  rewrite u64_small by (unfold in_u64; lia). fold duration.
  assert (Hd : 0 <= duration) by (unfold duration; lia).
  clearbody duration.
  rewrite Z.quot_div_nonneg by lia.
  pose proof (Z.div_mod duration (cameraCCDXSize_ c) ltac:(lia)) as Hdm.
  pose proof (Z.mod_pos_bound duration (cameraCCDXSize_ c) ltac:(lia)) as Hm.
  split; [reflexivity|]. split; [reflexivity|]. split; [reflexivity|].
  split; [nia|]. split.
  - intros H0. rewrite H0 in Hdm. lia.
  - intros Hlt. apply Z.div_small. lia.
Qed.

(** X3: At the entry of the record loop, a line end at sync 100 after a line
    start at sync 1 on a width of 240: (100 - 1) * 12618 / 240 = 5204 ps. *)
Lemma line_end_sets_dwell_time_witness :
  exists c c',
    start_acq_batch [0x86000000; 0x84000001] MH_camera_loop_entry = Some c /\
    TranslateRecord 0x82000064 c = Some c' /\
    pixel_dwelltime_ps_ c' = 5204.
Proof.
  destruct (start_acq_batch [0x86000000; 0x84000001] MH_camera_loop_entry)
    as [c|] eqn:Hrun.
  - assert (HX : cameraCCDXSize_ c = 240).
    { assert (H : cameraCCDXSize_ <$>
                  start_acq_batch [0x86000000; 0x84000001]
                    MH_camera_loop_entry = Some 240)
        by (vm_compute; reflexivity).
      rewrite Hrun in H. injection H as H. exact H. }
    assert (Hs : last_line_start_ c = 12618).
    { assert (H : last_line_start_ <$>
                  start_acq_batch [0x86000000; 0x84000001]
                    MH_camera_loop_entry = Some 12618)
        by (vm_compute; reflexivity).
      rewrite Hrun in H. injection H as H. exact H. }
    assert (Ht : timestamp_ps c (sync (Interpret_TTTR 0x82000064)) = 1261800).
    { assert (H : (fun c => timestamp_ps c (sync (Interpret_TTTR 0x82000064)))
                  <$> start_acq_batch [0x86000000; 0x84000001]
                        MH_camera_loop_entry = Some 1261800)
        by (vm_compute; reflexivity).
      rewrite Hrun in H. injection H as H. exact H. }
    destruct (line_end_sets_dwell_time 0x82000064 c)
      as (c' & Hc' & _ & _ & Hd & _).
    + split; reflexivity.
    + rewrite HX. lia.
    + rewrite Hs, Ht. lia.
    + exists c, c'. split; [reflexivity|]. split; [exact Hc'|].
      rewrite Hd, Hs, Ht, HX. reflexivity.
  - exfalso.
    assert (H : current_line_ <$>
                start_acq_batch [0x86000000; 0x84000001]
                  MH_camera_loop_entry = Some 0)
      by (vm_compute; reflexivity).
    rewrite Hrun in H. discriminate H.
Defined.

(** X4. Time stamps grow across a wrap of the 10-bit sync counter: when an
    overflow marker that carries at least one period, and does not wrap the
    32-bit overflow counter, lies between two records, the later record has
    the strictly larger time stamp, whatever the two sync counts are. *)
Theorem timestamp_grows_across_overflow (c : MH_camera) (v1 ov v2 : Z) :
  timebase_ok c ->
  0 < MeasDesc_GlobalResolution_ c ->
  is_marker 63 ov ->
  1 <= sync (Interpret_TTTR ov) ->
  overflow_counter_ c + sync (Interpret_TTTR ov) < 2 ^ 32 ->
  exists c',
    TranslateRecord ov c = Some c' /\
    timestamp_ps c (sync (Interpret_TTTR v1))
    < timestamp_ps c' (sync (Interpret_TTTR v2)).
Proof.
  intros Hok Hres [Hsp Hch] Hk Hfit.
  assert (Hrun : TranslateRecord ov c
            = Some (set_overflow_counter_
                      (u32 (overflow_counter_ c + sync (Interpret_TTTR ov)))
                      c)).
  { unfold TranslateRecord.
    rewrite Hsp, translate_special_cases, Hch. reflexivity. }
  eexists. split; [exact Hrun|].
  pose proof (timebase_ok_TranslateRecord _ _ _ Hok Hrun) as Hok'.
  pose proof (Interpret_TTTR_ranges v1) as (Hs1 & _ & _).
  pose proof (Interpret_TTTR_ranges v2) as (Hs2 & _ & _).
  pose proof (Interpret_TTTR_ranges ov) as (Hso & _ & _).
  rewrite (timestamp_ps_exact c _ Hok Hs1).
  rewrite (timestamp_ps_exact _ _ Hok' Hs2).
  cbn [overflow_counter_ MeasDesc_GlobalResolution_ set_overflow_counter_].
  destruct Hok as [Hov _]. unfold in_u32 in Hov.
  rewrite u32_small by (unfold in_u32; lia).
  apply Z.mul_lt_mono_pos_r; [exact Hres|]. lia.
Qed.

(** X4: On the constructed object: sync 1023 before, sync 0 after an overflow
    marker of one period. *)
Lemma timestamp_grows_across_overflow_witness :
  exists c',
    TranslateRecord 0xFE000001 MH_camera_ctor = Some c' /\
    timestamp_ps MH_camera_ctor 1023 < timestamp_ps c' 0.
Proof.
  apply (timestamp_grows_across_overflow MH_camera_ctor 0x000003FF
           0xFE000001 0x00000000).
  - unfold timebase_ok, in_u32. cbn. lia.
  - reflexivity.
  - split; reflexivity.
  - discriminate.
  - reflexivity.
Defined.

(** ** A photon inside its scan line *)

Lemma load8_defined (mem : list Z) (i : Z) :
  0 <= i < Z.of_nat (length mem) -> is_Some (load8 mem i).
Proof.
  intros Hi. unfold load8. destruct (Z.leb_spec 0 i); [|lia].
  apply lookup_lt_is_Some_2. lia.
Qed.

Lemma load8_byte (mem : list Z) (i v : Z) :
  bytes_ok mem -> load8 mem i = Some v -> 0 <= v < 256.
Proof.
  unfold bytes_ok, load8. intros Hb.
  destruct (0 <=? i); [|discriminate].
  intros Hl. eapply (Forall_lookup_1 _ _ _ _ Hb Hl).
Qed.

Lemma load16_defined (mem : list Z) (i : Z) :
  bytes_ok mem -> 0 <= i -> 2 * i + 1 < Z.of_nat (length mem) ->
  exists v, load16 mem i = Some v /\ 0 <= v <= 65535.
Proof.
  intros Hb Hi Hlen. unfold load16.
  destruct (load8_defined mem (2 * i)) as [lo Hlo]; [lia|].
  destruct (load8_defined mem (2 * i + 1)) as [hi Hhi]; [lia|].
  rewrite Hlo, Hhi. cbn.
  pose proof (load8_byte _ _ _ Hb Hlo). pose proof (load8_byte _ _ _ Hb Hhi).
  eexists. split; [reflexivity|]. lia.
Qed.

Lemma bytes_ok_store8 (mem : list Z) (i v : Z) :
  bytes_ok mem -> 0 <= v < 256 -> bytes_ok (store8 mem i v).
Proof. unfold bytes_ok, store8. intros Hb Hv. apply Forall_insert; auto. Qed.

Lemma increment8_keeps (mem mem' : list Z) (i : Z) :
  bytes_ok mem -> increment8 mem i = Some mem' ->
  bytes_ok mem' /\ length mem' = length mem.
Proof.
  intros Hb. unfold increment8.
  destruct (load8 mem i) as [v|] eqn:Hv; [|discriminate]. cbn.
  pose proof (load8_byte _ _ _ Hb Hv) as Hbyte.
  destruct (v =? 255); intros H; apply (inj Some) in H; subst mem'.
  - auto.
  - split; [|apply length_store8].
    apply bytes_ok_store8; [exact Hb|]. unfold u8.
    apply Z.mod_pos_bound. lia.
Qed.

Lemma increment16_keeps (mem mem' : list Z) (i : Z) :
  bytes_ok mem -> increment16 mem i = Some mem' ->
  bytes_ok mem' /\ length mem' = length mem.
Proof.
  intros Hb. unfold increment16.
  destruct (load16 mem i) as [v|] eqn:Hv; [|discriminate]. cbn.
  destruct (v =? 65535); intros H; apply (inj Some) in H; subst mem'.
  - auto.
  - unfold store16. rewrite !length_store8. split; [|reflexivity].
    assert (Hu : 0 <= u16 (v + 1) < 65536)
      by (unfold u16; apply Z.mod_pos_bound; lia).
    apply bytes_ok_store8; [apply bytes_ok_store8; [exact Hb|]|].
    + apply Z.mod_pos_bound. lia.
    + split; [apply Z.div_pos; lia|].
      apply Z.div_lt_upper_bound; lia.
Qed.

Lemma beam_shift_in_grid (c : MH_camera) (ch : Z) :
  geometry_ok c ->
  0 <= 5 - ch < n_beams_X_ c * n_beams_Y_ c ->
  beam_shift c ch
  = Some ((5 - ch) / n_beams_Y_ c * n_scanPixels_X_ c,
          (5 - ch) mod n_beams_Y_ c * n_scanPixels_Y_ c) /\
  0 <= (5 - ch) / n_beams_Y_ c < n_beams_X_ c /\
  0 <= (5 - ch) mod n_beams_Y_ c < n_beams_Y_ c.
Proof.
  intros (HsX & HsY & HbX & HbY & HX & HY & Hfit) Hch.
  assert (Hq : 0 <= (5 - ch) / n_beams_Y_ c < n_beams_X_ c).
  { split; [apply Z.div_pos; lia|].
    apply Z.div_lt_upper_bound; [lia|]. lia. }
  pose proof (Z.mod_pos_bound (5 - ch) (n_beams_Y_ c) HbY) as Hm.
  split; [|auto].
  assert (HXpos : 0 < cameraCCDXSize_ c) by nia.
  assert (HYpos : 0 < cameraCCDYSize_ c) by nia.
  assert (HXlt : cameraCCDXSize_ c < 2 ^ 31) by nia.
  assert (HYlt : cameraCCDYSize_ c < 2 ^ 31) by nia.
  assert (HbXlt : n_beams_X_ c <= cameraCCDXSize_ c) by nia.
  assert (HbYlt : n_beams_Y_ c <= cameraCCDYSize_ c) by nia.
  unfold beam_shift.
  destruct (Z.eqb_spec (n_beams_Y_ c) 0); [lia|].
  rewrite (u32_small (5 - ch)) by (unfold in_u32; nia).
  rewrite (i32_small (5 - ch)) by (unfold in_i32; nia).
  rewrite Z.quot_div_nonneg, Z.rem_mod_nonneg by lia.
  rewrite (i32_small (_ / _)) by (unfold in_i32; lia).
  rewrite (i32_small (_ mod _)) by (unfold in_i32; lia).
  rewrite (i32_small (_ / _ * _)) by (unfold in_i32; nia).
  rewrite (i32_small (_ mod _ * _)) by (unfold in_i32; nia).
  reflexivity.
Qed.

Lemma GetPixnumInLine_in_line (c : MH_camera) (timestamp linestart : Z) :
  geometry_ok c ->
  0 <= linestart <= timestamp -> timestamp < 2 ^ 64 ->
  0 < pixel_dwelltime_ps_ c ->
  (timestamp - linestart) / pixel_dwelltime_ps_ c < cameraCCDXSize_ c ->
  GetPixnumInLine c timestamp linestart
  = Some ((timestamp - linestart) / pixel_dwelltime_ps_ c / n_beams_X_ c) /\
  0 <= (timestamp - linestart) / pixel_dwelltime_ps_ c / n_beams_X_ c
    < n_scanPixels_X_ c.
Proof.
  intros (HsX & HsY & HbX & HbY & HX & HY & Hfit) Hts Hts64 Hd Hpn.
  set (pn := (timestamp - linestart) / pixel_dwelltime_ps_ c) in *.
  assert (Hpn0 : 0 <= pn) by (apply Z.div_pos; lia).
  assert (HYpos : 0 < cameraCCDYSize_ c) by nia.
  assert (HXlt : cameraCCDXSize_ c < 2 ^ 31) by nia.
  assert (Hx : 0 <= pn / n_beams_X_ c < n_scanPixels_X_ c).
  { split; [apply Z.div_pos; lia|].
    apply Z.div_lt_upper_bound; [lia|]. lia. }
  split; [|exact Hx].
  unfold GetPixnumInLine.
  destruct (Z.eqb_spec (pixel_dwelltime_ps_ c) 0); [lia|].
  destruct (Z.eqb_spec (n_beams_X_ c) 0); [lia|].
  rewrite (u64_small (timestamp - linestart)) by (unfold in_u64; lia).
  rewrite (Z.quot_div_nonneg (timestamp - linestart)) by lia. fold pn.
  clearbody pn.
  rewrite (i32_small pn) by (unfold in_i32; lia).
  rewrite Z.quot_div_nonneg by lia.
  rewrite (i32_small (pn / _)) by (unfold in_i32; nia).
  destruct (Z.geb_spec (pn / n_beams_X_ c) (cameraCCDXSize_ c)); [nia|].
  reflexivity.
Qed.

(** X5. A photon that arrives inside its scan line is counted in its pixel.
    Let the composite image be the grid of beams and the pixel array hold one
    sample per pixel; take a photon record, not of channel 6, whose beam index
    [5 - channel] lies in the grid, after a line start that follows the last
    line end, with a positive dwell time, less than [cameraCCDXSize_] dwell
    times into the line, on a line below the scan height. Then the record is
    handled; with [x] the quotient of the dwell count by the number of beams
    in x plus the beam's column offset and [y] the line plus the beam's row
    offset, the sample at [x + y * cameraCCDXSize_] lies inside the image and
    is incremented unless it is at its ceiling, no other sample and nothing
    but the pixel array changes. *)
Theorem photon_in_line_is_counted (val : Z) (c : MH_camera) :
  geometry_ok c -> buffer_ok c ->
  is_photon val ->
  let r := Interpret_TTTR val in
  let ts := timestamp_ps c (sync r) in
  channel r <> 6 ->
  0 <= 5 - channel r < n_beams_X_ c * n_beams_Y_ c ->
  last_line_end_ c < last_line_start_ c ->
  0 <= last_line_start_ c <= ts ->
  0 < pixel_dwelltime_ps_ c ->
  (ts - last_line_start_ c) / pixel_dwelltime_ps_ c < cameraCCDXSize_ c ->
  0 <= current_line_ c < n_scanPixels_Y_ c ->
  let x := (ts - last_line_start_ c) / pixel_dwelltime_ps_ c / n_beams_X_ c
           + (5 - channel r) / n_beams_Y_ c * n_scanPixels_X_ c in
  let y := current_line_ c
           + (5 - channel r) mod n_beams_Y_ c * n_scanPixels_Y_ c in
  0 <= x < cameraCCDXSize_ c /\
  0 <= y < cameraCCDYSize_ c /\
  record_target val c = Some (x + y * cameraCCDXSize_ c) /\
  exists c' v,
    TranslateRecord val c = Some c' /\
    sample c (x + y * cameraCCDXSize_ c) = Some v /\
    sample c' (x + y * cameraCCDXSize_ c)
    = Some (if v =? ceiling c then v else v + 1) /\
    (forall j, j <> x + y * cameraCCDXSize_ c -> sample c' j = sample c j) /\
    c' = set_img_ (SetPixels (GetPixels (img_ c')) (img_ c)) c /\
    buffer_ok c'.
Proof.
  intros Hgeo Hbuf Hph r ts Hch6 Hbeam Hfly Hts Hd Hpn Hline x y.
  pose proof Hgeo as (HsX & HsY & HbX & HbY & HX & HY & Hfit).
  destruct (beam_shift_in_grid c (channel r) Hgeo Hbeam)
    as (Hshift & Hbx & Hby).
  assert (Hts64 : ts < 2 ^ 64).
  { pose proof (u64_range
      (u64 (sync r + u64 (overflow_counter_ c * 1024))
       * MeasDesc_GlobalResolution_ c)) as Hr.
    unfold in_u64 in Hr. apply Hr. }
  destruct (GetPixnumInLine_in_line c ts (last_line_start_ c) Hgeo Hts Hts64
              Hd Hpn) as (Hpix & Hpx).
  set (px := (ts - last_line_start_ c) / pixel_dwelltime_ps_ c
             / n_beams_X_ c) in *.
  set (bx := (5 - channel r) / n_beams_Y_ c) in *.
  set (by_ := (5 - channel r) mod n_beams_Y_ c) in *.
  assert (Hx : 0 <= x < cameraCCDXSize_ c) by (unfold x; nia).
  assert (Hy : 0 <= y < cameraCCDYSize_ c) by (unfold y; nia).
  assert (Hidx : 0 <= x + y * cameraCCDXSize_ c
                 < cameraCCDXSize_ c * cameraCCDYSize_ c) by nia.
  assert (Htarget : photon_target r ts c = Some (x + y * cameraCCDXSize_ c)).
  { unfold photon_target. rewrite Hshift. cbn [mbind option_bind].
    rewrite Hpix. cbn [mbind option_bind]. fold x y.
    rewrite (i32_small x) by (unfold in_i32; nia).
    rewrite (i32_small y) by (unfold in_i32; nia).
    rewrite (i32_small (y * _)) by (unfold in_i32; nia).
    rewrite i32_small by (unfold in_i32; nia). reflexivity. }
  split; [exact Hx|]. split; [exact Hy|]. split; [exact Htarget|].
  clearbody x y. clear Hshift Hpix Hpx Hbx Hby px bx by_.
  set (idx := x + y * cameraCCDXSize_ c) in *. clearbody idx.
  assert (Hrun : TranslateRecord val c = accumulate c idx).
  { unfold TranslateRecord. fold r ts. unfold is_photon in Hph. fold r in Hph.
    rewrite Hph. unfold translate_photon.
    destruct (Z.ltb_spec (last_line_end_ c) (last_line_start_ c)); [|lia].
    destruct (Z.eqb_spec (channel r) 6); [contradiction|].
    destruct (Z.geb_spec (current_line_ c) 0); [|lia].
    cbn [andb negb]. rewrite Htarget. reflexivity. }
  rewrite Hrun. clear Hrun Htarget.
  destruct Hbuf as [Hbytes [[Htype Hlen] | [Htype Hlen]]].
  - (* 8-bit samples *)
    destruct (load8_defined (GetPixels (img_ c)) idx) as [v Hv]; [lia|].
    pose proof (load8_byte _ _ _ Hbytes Hv) as Hvb.
    destruct (increment8_spec _ _ _ Hv ltac:(lia)) as (mem' & Hinc & Hl & Ho).
    destruct (increment8_keeps _ _ _ Hbytes Hinc) as [Hb' Hlen'].
    rewrite accumulate_8bit, Hinc by exact Htype.
    eexists. exists v. split; [reflexivity|].
    unfold sample, ceiling, buffer_ok.
    cbn [PixelType img_ set_img_ GetPixels SetPixels cameraCCDXSize_
         cameraCCDYSize_].
    rewrite Htype.
    change (String.eqb g_PixelType_8bit g_PixelType_8bit) with true.
    cbv iota. rewrite Hlen'.
    split; [exact Hv|].
    split; [rewrite Hl; destruct (Z.eqb_spec v 255) as [->|]; reflexivity|].
    split; [exact Ho|].
    split; [reflexivity|]. split; [exact Hb'|]. left. auto.
  - (* 16-bit samples *)
    destruct (load16_defined (GetPixels (img_ c)) idx Hbytes)
      as (v & Hv & Hvb); [lia | lia |].
    destruct (increment16_spec _ _ _ Hv Hvb) as (mem' & Hinc & Hl & Ho).
    destruct (increment16_keeps _ _ _ Hbytes Hinc) as [Hb' Hlen'].
    rewrite accumulate_16bit, Hinc by exact Htype.
    eexists. exists v. split; [reflexivity|].
    unfold sample, ceiling, buffer_ok.
    cbn [PixelType img_ set_img_ GetPixels SetPixels cameraCCDXSize_
         cameraCCDYSize_].
    rewrite Htype.
    change (String.eqb g_PixelType_16bit g_PixelType_8bit) with false.
    cbv iota. rewrite Hlen'.
    split; [exact Hv|].
    split; [rewrite Hl; destruct (Z.eqb_spec v 65535) as [->|]; reflexivity|].
    split; [exact Ho|].
    split; [reflexivity|]. split; [exact Hb'|]. right. auto.
Qed.

Lemma bytes_okb_ok (mem : list Z) : bytes_okb mem = true -> bytes_ok mem.
Proof.
  unfold bytes_okb, bytes_ok. rewrite forallb_forall, Forall_forall.
  intros H b Hb. apply list_elem_of_In in Hb. specialize (H b Hb).
  apply andb_prop in H as [H1 H2].
  apply Z.leb_le in H1. apply Z.ltb_lt in H2. lia.
Qed.

(** Reading a field of the state a batch leaves, by evaluation. *)
Lemma field_of_run {A : Type} (f : MH_camera -> A) (run : option MH_camera)
    (c : MH_camera) (a : A) :
  f <$> run = Some a -> run = Some c -> f c = a.
Proof. intros H ->. cbn in H. apply (inj Some) in H. exact H. Qed.

Ltac read_field f :=
  match goal with
  | Hrun : ?run = Some ?c |- _ =>
      apply (field_of_run f run c); [vm_compute; reflexivity | exact Hrun]
  end.

(** X5: At the entry of the record loop on the constructed object, after a
    frame start and a line start at sync 1: the photon [0x0A000002] (channel
    5, sync 2) is counted in sample 0. *)
Lemma photon_in_line_is_counted_witness :
  exists c c',
    start_acq_batch [0x86000000; 0x84000001] MH_camera_loop_entry = Some c /\
    TranslateRecord 0x0A000002 c = Some c' /\
    sample c 0 = Some 0 /\ sample c' 0 = Some 1.
Proof.
  pose (run := start_acq_batch [0x86000000; 0x84000001] MH_camera_loop_entry).
  destruct run as [c|] eqn:Hrun; subst run.
  2: { exfalso.
       assert (H : current_line_ <$>
                   start_acq_batch [0x86000000; 0x84000001]
                     MH_camera_loop_entry = Some 0)
         by (vm_compute; reflexivity).
       rewrite Hrun in H. discriminate H. }
  assert (HsX : n_scanPixels_X_ c = 120)
    by (read_field n_scanPixels_X_).
  assert (HsY : n_scanPixels_Y_ c = 80)
    by (read_field n_scanPixels_Y_).
  assert (HbX : n_beams_X_ c = 2)
    by (read_field n_beams_X_).
  assert (HbY : n_beams_Y_ c = 3)
    by (read_field n_beams_Y_).
  assert (HX : cameraCCDXSize_ c = 240)
    by (read_field cameraCCDXSize_).
  assert (HY : cameraCCDYSize_ c = 240)
    by (read_field cameraCCDYSize_).
  assert (Hty : PixelType c = g_PixelType_16bit)
    by (read_field PixelType).
  assert (Hb : bytes_okb (GetPixels (img_ c)) = true)
    by (read_field (fun c => bytes_okb (GetPixels (img_ c)))).
  assert (Hlen : Z.of_nat (length (GetPixels (img_ c))) = 115200)
    by (read_field (fun c => Z.of_nat (length (GetPixels (img_ c))))).
  assert (Hle : last_line_end_ c = 0)
    by (read_field last_line_end_).
  assert (Hls : last_line_start_ c = 12618)
    by (read_field last_line_start_).
  assert (Hdw : pixel_dwelltime_ps_ c = 100000000)
    by (read_field pixel_dwelltime_ps_).
  assert (Hcl : current_line_ c = 0)
    by (read_field current_line_).
  assert (Hts : timestamp_ps c (sync (Interpret_TTTR 0x0A000002)) = 25236)
    by (read_field
          (fun c => timestamp_ps c (sync (Interpret_TTTR 0x0A000002)))).
  assert (Hs0 : sample c 0 = Some 0)
    by (read_field (fun c => sample c 0)).
  destruct (photon_in_line_is_counted 0x0A000002 c)
    as (_ & _ & _ & c' & v & Hc' & Hv & Hv' & _).
  - unfold geometry_ok. rewrite HsX, HsY, HbX, HbY, HX, HY. lia.
  - split; [apply bytes_okb_ok, Hb|]. right.
    rewrite Hty, Hlen, HX, HY. split; reflexivity.
  - reflexivity.
  - discriminate.
  - rewrite HbX, HbY.
    change (channel (Interpret_TTTR 0x0A000002)) with 5. lia.
  - rewrite Hle, Hls. lia.
  - rewrite Hls, Hts. lia.
  - rewrite Hdw. lia.
  - rewrite Hts, Hls, Hdw, HX. reflexivity.
  - rewrite Hcl, HsY. lia.
  - exists c, c'. split; [exact Hrun|]. split; [exact Hc'|].
    split; [exact Hs0|].
    match type of Hv with
    | sample c ?i = _ =>
        assert (Hidx : i = 0)
          by (rewrite Hts, Hls, Hdw, HbX, HbY, HsX, HsY, Hcl, HX; reflexivity)
    end.
    rewrite Hidx in Hv, Hv'.
    rewrite Hs0 in Hv. apply (inj Some) in Hv. subst v.
    rewrite Hv'. unfold ceiling. rewrite Hty. reflexivity.
Defined.

(** ** What the record loop never changes *)

Lemma same_configuration_refl (c : MH_camera) : same_configuration c c.
Proof. repeat split. Qed.

Lemma same_configuration_trans (c1 c2 c3 : MH_camera) :
  same_configuration c1 c2 -> same_configuration c2 c3 ->
  same_configuration c1 c3.
Proof.
  unfold same_configuration.
  intros (?&?&?&?&?&?&?&?&?&?&?&?&?&?&?&?) (?&?&?&?&?&?&?&?&?&?&?&?&?&?&?&?).
  repeat split; congruence.
Qed.

Lemma accumulate_keeps (c c' : MH_camera) (target_px : Z) :
  accumulate c target_px = Some c' ->
  same_configuration c c' /\
  (bytes_ok (GetPixels (img_ c)) -> bytes_ok (GetPixels (img_ c'))).
Proof.
  unfold accumulate. intros H.
  destruct (String.eqb _ _).
  - destruct (increment8 _ _) as [mem|] eqn:Hinc; [|discriminate].
    apply (inj Some) in H. subst c'. split.
    + unfold same_configuration. cbn.
      repeat split. unfold increment8 in Hinc.
      destruct (load8 _ _) as [v|]; [|discriminate]. cbn in Hinc.
      destruct (v =? 255); apply (inj Some) in Hinc; subst mem;
        [reflexivity | apply length_store8].
    + intros Hb. cbn. eapply increment8_keeps; eassumption.
  - destruct (String.eqb _ _).
    + destruct (increment16 _ _) as [mem|] eqn:Hinc; [|discriminate].
      apply (inj Some) in H. subst c'. split.
      * unfold same_configuration. cbn.
        repeat split. unfold increment16 in Hinc.
        destruct (load16 _ _) as [v|]; [|discriminate]. cbn in Hinc.
        destruct (v =? 65535); apply (inj Some) in Hinc; subst mem;
          [reflexivity | unfold store16; rewrite !length_store8; reflexivity].
      * intros Hb. cbn. eapply increment16_keeps; eassumption.
    + apply (inj Some) in H. subst c'.
      split; [apply same_configuration_refl | auto].
Qed.

Lemma TranslateRecord_keeps_configuration (val : Z) (c c' : MH_camera) :
  TranslateRecord val c = Some c' ->
  same_configuration c c' /\
  (bytes_ok (GetPixels (img_ c)) -> bytes_ok (GetPixels (img_ c'))).
Proof.
  unfold TranslateRecord. intros H.
  destruct (special _).
  - rewrite translate_special_cases in H. cbv zeta in H.
    repeat (break_if; try discriminate);
      apply (inj Some) in H; subst c';
      (split; [repeat split | auto]).
  - unfold translate_photon in H.
    destruct (_ && _);
      [|apply (inj Some) in H; subst c';
        split; [apply same_configuration_refl | auto]].
    destruct (_ >=? _);
      [|apply (inj Some) in H; subst c';
        split; [apply same_configuration_refl | auto]].
    destruct (photon_target _ _ _) as [target_px|]; [|discriminate].
    cbn [mbind option_bind] in H. apply accumulate_keeps in H. exact H.
Qed.

(** X6. Whatever batch the record loop processes, it never changes the
    geometry, the binning, the pixel type and bit depth, the sync period, nor
    the width, height, depth and length of the pixel array, and the pixel
    array stays an array of bytes; so a grid geometry and a well-sized buffer
    are kept. *)
Theorem record_loop_keeps_configuration (buffer : list Z)
    (c c' : MH_camera) :
  start_acq_batch buffer c = Some c' ->
  same_configuration c c' /\
  (bytes_ok (GetPixels (img_ c)) -> bytes_ok (GetPixels (img_ c'))) /\
  (geometry_ok c -> geometry_ok c') /\
  (buffer_ok c -> buffer_ok c').
Proof.
  intros Hrun.
  assert (H : same_configuration c c' /\
              (bytes_ok (GetPixels (img_ c)) ->
               bytes_ok (GetPixels (img_ c')))).
  { revert c Hrun. induction buffer as [|val rest IH]; intros c Hrun.
    - cbn in Hrun. apply (inj Some) in Hrun. subst c'.
      split; [apply same_configuration_refl | auto].
    - cbn [start_acq_batch] in Hrun.
      destruct (start_acq_record val c) as [c1|] eqn:Hc1; [|discriminate].
      cbn [mbind option_bind] in Hrun.
      destruct (IH c1 Hrun) as [Hs Hb].
      apply start_acq_record_Some in Hc1 as (c2 & rates & Hc2 & -> & _).
      apply TranslateRecord_keeps_configuration in Hc2 as [Hs2 Hb2].
      split; [|auto].
      eapply same_configuration_trans; [exact Hs2|]. exact Hs. }
  destruct H as [Hs Hb]. split; [exact Hs|]. split; [exact Hb|].
  destruct Hs as (_&_&_&HsX&HsY&HbX&HbY&HX&HY&_&_&Hty&_&_&_&Hlen).
  split.
  - unfold geometry_ok. rewrite HsX, HsY, HbX, HbY, HX, HY. auto.
  - unfold buffer_ok. intros [Hbytes Hshape].
    rewrite Hty, Hlen, HX, HY. auto.
Qed.

(** X6: Evaluation at the entry of the record loop on the constructed object:
    the buffer keeps its 240 x 240 samples of two bytes. *)
Lemma record_loop_keeps_configuration_witness :
  exists c',
    start_acq_batch [0x86000000; 0x84000001; 0x0A000002]
      MH_camera_loop_entry = Some c' /\
    Width (img_ c') = 240 /\ Height (img_ c') = 240 /\ Depth (img_ c') = 2.
Proof.
  destruct (start_acq_batch [0x86000000; 0x84000001; 0x0A000002]
              MH_camera_loop_entry) as [c'|] eqn:Hrun.
  - exists c'. split; [reflexivity|].
    destruct (record_loop_keeps_configuration _ _ _ Hrun) as (Hs & _).
    destruct Hs as (_&_&_&_&_&_&_&_&_&_&_&_&HW&HH&HD&_).
    rewrite HW, HH, HD. repeat split.
  - exfalso.
    assert (H : current_line_ <$>
                start_acq_batch [0x86000000; 0x84000001; 0x0A000002]
                  MH_camera_loop_entry = Some 0)
      by (vm_compute; reflexivity).
    rewrite Hrun in H. discriminate H.
Defined.

(** ** The pixel-type handler *)

(** X7. Setting the pixel type while a sequence is captured changes nothing
    and returns [DEVICE_CAMERA_BUSY_ACQUIRING]. Otherwise the handler keeps
    the width and height of the buffer, zeroes its pixel array, and leaves the
    property, the buffer depth and the bit depth in agreement: ["8bit"], one
    byte and 8 bits, or ["16bit"], two bytes and 16 bits. It returns
    [DEVICE_OK] exactly for these two strings, and on any other string falls
    back to ["8bit"] with [ERR_UNKNOWN_MODE]. Reading the property back
    afterwards reports the string that was stored. *)
Theorem pixel_type_handler_consistent (capturing : bool) (value : string)
    (c : MH_camera) :
  let ret := fst (OnPixelType AfterSet capturing value c) in
  let c' := snd (OnPixelType AfterSet capturing value c) in
  (capturing = true -> ret = DEVICE_CAMERA_BUSY_ACQUIRING /\ c' = c) /\
  (capturing = false ->
   pixel_type_consistent c' /\
   bitDepth_ c' = 8 * Depth (img_ c') /\
   Width (img_ c') = Width (img_ c) /\
   Height (img_ c') = Height (img_ c) /\
   GetPixels (img_ c')
   = replicate (Z.to_nat (Width (img_ c) * Height (img_ c) * Depth (img_ c')))
       0 /\
   (ret = DEVICE_OK <->
    value = g_PixelType_8bit \/ value = g_PixelType_16bit) /\
   (ret = DEVICE_OK -> PixelType c' = value) /\
   (ret <> DEVICE_OK ->
    ret = ERR_UNKNOWN_MODE /\ PixelType c' = g_PixelType_8bit) /\
   OnPixelType BeforeGet false value c' = (DEVICE_OK, c')).
Proof.
  cbv zeta. split.
  - intros ->. cbn. auto.
  - intros ->. unfold OnPixelType, OnPixelType_AfterSet, pixel_type_consistent.
    destruct (String.eqb_spec value g_PixelType_8bit) as [-> | H8].
    + cbn. repeat split; auto; try discriminate; try congruence.
    + destruct (String.eqb_spec value g_PixelType_16bit) as [-> | H16].
      * cbn. repeat split; auto; try discriminate; try congruence.
      * cbn. repeat split; auto; try discriminate; try congruence.
        intros [H | H]; contradiction.
Qed.

(** ** The geometry handlers *)

Lemma resize_to_composite_spec (c : MH_camera) :
  0 < binSize_ c ->
  0 <= cameraCCDXSize_ c < 2 ^ 31 -> 0 <= cameraCCDYSize_ c < 2 ^ 31 ->
  resize_to_composite c
  = Some (set_img_ (Resize (cameraCCDXSize_ c / binSize_ c)
                           (cameraCCDYSize_ c / binSize_ c)
                           (Depth (img_ c))) c).
Proof.
  intros Hbin HX HY. unfold resize_to_composite.
  destruct (Z.eqb_spec (binSize_ c) 0); [lia|].
  rewrite !Z.quot_div_nonneg by lia.
  assert (Hq : forall m, 0 <= m < 2 ^ 31 ->
            0 <= m / binSize_ c < 2 ^ 31).
  { intros m Hm. split; [apply Z.div_pos; lia|].
    apply Z.div_lt_upper_bound; [lia|]. nia. }
  rewrite !i32_small by (unfold in_i32; pose proof (Hq _ HX);
                         pose proof (Hq _ HY); lia).
  rewrite !u32_small by (unfold in_u32; pose proof (Hq _ HX);
                         pose proof (Hq _ HY); lia).
  reflexivity.
Qed.

Lemma full_frame_after_resize (c : MH_camera) :
  0 < binSize_ c ->
  full_frame (set_img_ (Resize (cameraCCDXSize_ c / binSize_ c)
                               (cameraCCDYSize_ c / binSize_ c)
                               (Depth (img_ c))) c).
Proof.
  intros Hbin. unfold full_frame. cbn.
  rewrite length_replicate. auto.
Qed.

Ltac geometry_handler Hax Hff :=
  destruct Hax as (HbX & HbY & HsX & HsY & HX & HY);
  pose proof Hff as (Hbin & _);
  match goal with
  | |- context [(?value <? ?lo) || (?hi <? ?value)] =>
      destruct (Z.ltb_spec value lo); cbn [orb];
      [ eexists _, _; split; [reflexivity|];
        split; [unfold axes_ok; auto 10|];
        split; [exact Hff|];
        repeat (split; [reflexivity|]);
        split; [intros; lia | intros; auto]
      | destruct (Z.ltb_spec hi value);
        [ eexists _, _; split; [reflexivity|];
          split; [unfold axes_ok; auto 10|];
          split; [exact Hff|];
          repeat (split; [reflexivity|]);
          split; [intros; lia | intros; auto]
        | ] ]
  end.

(** X8. Setting the number of beams in x. On a camera whose axes are in range
    with the composite size their product, and whose buffer is the full frame,
    the handler always returns; both properties are kept, and so are the
    binning, the pixel type and the depth. A value from 1 to 8 is stored, the
    composite width becomes the scan width times the value and, when the value
    is new, the buffer is resized and zeroed; any other value is refused with
    [DEVICE_ERR] and changes nothing. *)
Theorem beams_X_handler_keeps_geometry (value : Z) (c : MH_camera) :
  axes_ok c -> full_frame c ->
  exists ret c',
    Onn_beams_X AfterSet value c = Some (ret, c') /\
    axes_ok c' /\ full_frame c' /\
    binSize_ c' = binSize_ c /\ PixelType c' = PixelType c /\
    Depth (img_ c') = Depth (img_ c) /\
    n_beams_Y_ c' = n_beams_Y_ c /\
    n_scanPixels_X_ c' = n_scanPixels_X_ c /\
    n_scanPixels_Y_ c' = n_scanPixels_Y_ c /\
    cameraCCDYSize_ c' = cameraCCDYSize_ c /\
    (1 <= value <= 8 ->
     ret = DEVICE_OK /\ n_beams_X_ c' = value /\
     cameraCCDXSize_ c' = n_scanPixels_X_ c * value /\
     (value <> n_beams_X_ c ->
      GetPixels (img_ c') = replicate (length (GetPixels (img_ c'))) 0)) /\
    (~ 1 <= value <= 8 -> ret = DEVICE_ERR /\ c' = c).
Proof.
  intros Hax Hff. unfold Onn_beams_X.
  geometry_handler Hax Hff.
  destruct (Z.eqb_spec value (n_beams_X_ c)) as [-> | Hne]; cbn [negb].
  - eexists _, _. split; [reflexivity|].
    split; [unfold axes_ok; auto 10|]. split; [exact Hff|].
    repeat (split; [reflexivity|]).
    split; [|intros; lia]. intros _. repeat split; auto. contradiction.
  - cbv zeta.
    cbn [n_scanPixels_X_ n_beams_X_ set_n_beams_X_ set_cameraCCDXSize_].
    rewrite i32_small by (unfold in_i32; nia).
    rewrite resize_to_composite_spec by (cbn; nia).
    cbn [mbind option_bind]. eexists _, _. split; [reflexivity|].
    split; [unfold axes_ok; cbn; auto 10|].
    split; [apply (full_frame_after_resize
                     (set_cameraCCDXSize_ _ (set_n_beams_X_ value c))), Hbin|].
    repeat (split; [reflexivity|]).
    split; [|intros; lia]. intros _. cbn.
    rewrite length_replicate. auto.
Qed.

(** X9. Setting the number of beams in y. On a camera whose axes are in range
    with the composite size their product, and whose buffer is the full frame,
    the handler always returns; both properties are kept, and so are the
    binning, the pixel type and the depth. A value from 1 to 8 is stored, the
    composite height becomes the scan height times the value and, when the
    value is new, the buffer is resized and zeroed; any other value is refused
    with [DEVICE_ERR] and changes nothing. *)
Theorem beams_Y_handler_keeps_geometry (value : Z) (c : MH_camera) :
  axes_ok c -> full_frame c ->
  exists ret c',
    Onn_beams_Y AfterSet value c = Some (ret, c') /\
    axes_ok c' /\ full_frame c' /\
    binSize_ c' = binSize_ c /\ PixelType c' = PixelType c /\
    Depth (img_ c') = Depth (img_ c) /\
    n_beams_X_ c' = n_beams_X_ c /\
    n_scanPixels_Y_ c' = n_scanPixels_Y_ c /\
    n_scanPixels_X_ c' = n_scanPixels_X_ c /\
    cameraCCDXSize_ c' = cameraCCDXSize_ c /\
    (1 <= value <= 8 ->
     ret = DEVICE_OK /\ n_beams_Y_ c' = value /\
     cameraCCDYSize_ c' = n_scanPixels_Y_ c * value /\
     (value <> n_beams_Y_ c ->
      GetPixels (img_ c') = replicate (length (GetPixels (img_ c'))) 0)) /\
    (~ 1 <= value <= 8 -> ret = DEVICE_ERR /\ c' = c).
Proof.
  intros Hax Hff. unfold Onn_beams_Y.
  geometry_handler Hax Hff.
  destruct (Z.eqb_spec value (n_beams_Y_ c)) as [-> | Hne]; cbn [negb].
  - eexists _, _. split; [reflexivity|].
    split; [unfold axes_ok; auto 10|]. split; [exact Hff|].
    repeat (split; [reflexivity|]).
    split; [|intros; lia]. intros _. repeat split; auto. contradiction.
  - cbv zeta.
    cbn [n_scanPixels_Y_ n_beams_Y_ set_n_beams_Y_ set_cameraCCDYSize_].
    rewrite i32_small by (unfold in_i32; nia).
    rewrite resize_to_composite_spec by (cbn; nia).
    cbn [mbind option_bind]. eexists _, _. split; [reflexivity|].
    split; [unfold axes_ok; cbn; auto 10|].
    split; [apply (full_frame_after_resize
                     (set_cameraCCDYSize_ _ (set_n_beams_Y_ value c))), Hbin|].
    repeat (split; [reflexivity|]).
    split; [|intros; lia]. intros _. cbn.
    rewrite length_replicate. auto.
Qed.

(** X11. Setting the scan height. Under the same conditions the handler always
    returns and keeps them; a value from 16 to 33000 is stored, the composite
    height becomes the value times the number of beams in y and, when the
    value is new, the buffer is resized and zeroed; any other value, also one
    from 1 to 15, is refused with [DEVICE_ERR] and changes nothing. *)
Theorem scanPixels_Y_handler_keeps_geometry (value : Z) (c : MH_camera) :
  axes_ok c -> full_frame c ->
  exists ret c',
    Onn_scanPixels_Y AfterSet value c = Some (ret, c') /\
    axes_ok c' /\ full_frame c' /\
    binSize_ c' = binSize_ c /\ PixelType c' = PixelType c /\
    Depth (img_ c') = Depth (img_ c) /\
    n_beams_X_ c' = n_beams_X_ c /\
    n_beams_Y_ c' = n_beams_Y_ c /\
    n_scanPixels_X_ c' = n_scanPixels_X_ c /\
    cameraCCDXSize_ c' = cameraCCDXSize_ c /\
    (16 <= value <= 33000 ->
     ret = DEVICE_OK /\ n_scanPixels_Y_ c' = value /\
     cameraCCDYSize_ c' = value * n_beams_Y_ c /\
     (value <> n_scanPixels_Y_ c ->
      GetPixels (img_ c') = replicate (length (GetPixels (img_ c'))) 0)) /\
    (~ 16 <= value <= 33000 -> ret = DEVICE_ERR /\ c' = c).
Proof.
  intros Hax Hff. unfold Onn_scanPixels_Y.
  geometry_handler Hax Hff.
  destruct (Z.eqb_spec value (n_scanPixels_Y_ c)) as [-> | Hne]; cbn [negb].
  - eexists _, _. split; [reflexivity|].
    split; [unfold axes_ok; auto 10|]. split; [exact Hff|].
    repeat (split; [reflexivity|]).
    split; [|intros; lia]. intros _. repeat split; auto. contradiction.
  - cbv zeta.
    cbn [n_scanPixels_Y_ n_beams_Y_ set_n_scanPixels_Y_ set_cameraCCDYSize_].
    rewrite i32_small by (unfold in_i32; nia).
    rewrite resize_to_composite_spec by (cbn; nia).
    cbn [mbind option_bind]. eexists _, _. split; [reflexivity|].
    split; [unfold axes_ok; cbn; auto 10|].
    split; [apply (full_frame_after_resize
                     (set_cameraCCDYSize_ _ (set_n_scanPixels_Y_ value c))),
              Hbin|].
    repeat (split; [reflexivity|]).
    split; [|intros; lia]. intros _. cbn.
    rewrite length_replicate. auto.
Qed.

(** X10. Setting the scan width. With a parent hub the handler behaves like
    the one of the scan height, on the width. Without a parent hub it has no
    defined result for any action, because it then calls through a null
    pointer, except when it refuses a value first. *)
Theorem scanPixels_X_handler_keeps_geometry (value : Z) (c : MH_camera) :
  axes_ok c -> full_frame c ->
  (exists ret c',
     Onn_scanPixels_X AfterSet value true c = Some (ret, c') /\
     axes_ok c' /\ full_frame c' /\
     binSize_ c' = binSize_ c /\ PixelType c' = PixelType c /\
     Depth (img_ c') = Depth (img_ c) /\
     n_beams_X_ c' = n_beams_X_ c /\
     n_beams_Y_ c' = n_beams_Y_ c /\
     n_scanPixels_Y_ c' = n_scanPixels_Y_ c /\
     cameraCCDYSize_ c' = cameraCCDYSize_ c /\
     (16 <= value <= 33000 ->
      ret = DEVICE_OK /\ n_scanPixels_X_ c' = value /\
      cameraCCDXSize_ c' = value * n_beams_X_ c /\
      (value <> n_scanPixels_X_ c ->
       GetPixels (img_ c') = replicate (length (GetPixels (img_ c'))) 0)) /\
     (~ 16 <= value <= 33000 -> ret = DEVICE_ERR /\ c' = c)) /\
  (forall eAct,
     Onn_scanPixels_X eAct value false c
     = if match eAct with AfterSet => true | _ => false end
          && ((value <? 16) || (33000 <? value))
       then Some (DEVICE_ERR, c) else None).
Proof.
  intros Hax Hff. split.
  - unfold Onn_scanPixels_X.
    geometry_handler Hax Hff.
    destruct (Z.eqb_spec value (n_scanPixels_X_ c)) as [-> | Hne]; cbn [negb].
    + eexists _, _. split; [reflexivity|].
      split; [unfold axes_ok; auto 10|]. split; [exact Hff|].
      repeat (split; [reflexivity|]).
      split; [|intros; lia]. intros _. repeat split; auto. contradiction.
    + cbv zeta.
      cbn [n_scanPixels_X_ n_beams_X_ set_n_scanPixels_X_ set_cameraCCDXSize_].
      rewrite i32_small by (unfold in_i32; nia).
      rewrite resize_to_composite_spec by (cbn; nia).
      cbn [mbind option_bind]. eexists _, _. split; [reflexivity|].
      split; [unfold axes_ok; cbn; auto 10|].
      split; [apply (full_frame_after_resize
                       (set_cameraCCDXSize_ _ (set_n_scanPixels_X_ value c))),
                Hbin|].
      repeat (split; [reflexivity|]).
      split; [|intros; lia]. intros _. cbn.
      rewrite length_replicate. auto.
  - intros eAct. unfold Onn_scanPixels_X.
    destruct eAct; cbn [andb]; try reflexivity.
    destruct ((value <? 16) || (33000 <? value)); [reflexivity|].
    destruct (negb _); [|reflexivity].
    cbv zeta. destruct (resize_to_composite _); reflexivity.
Qed.

Lemma axes_ok_initialized : axes_ok MH_camera_initialized.
Proof. unfold axes_ok. cbn. lia. Qed.

Lemma full_frame_initialized : full_frame MH_camera_initialized.
Proof.
  exact (full_frame_after_resize
           (set_img_ (Resize 0 0 2) MH_camera_ctor) ltac:(reflexivity)).
Qed.

(** X8 on the initialised camera (a scan of 120 x 80 pixels by 2 x 3
    beams): three beams in x give a width of 360. *)
Lemma beams_X_handler_keeps_geometry_witness :
  exists c',
    Onn_beams_X AfterSet 3 MH_camera_initialized = Some (DEVICE_OK, c') /\
    cameraCCDXSize_ c' = 360.
Proof.
  destruct (beams_X_handler_keeps_geometry 3 MH_camera_initialized
              axes_ok_initialized full_frame_initialized)
    as (ret & c' & Hrun & _ & _ & _ & _ & _ & _ & _ & _ & _ & Hin & _).
  destruct Hin as (-> & _ & HX & _); [lia|].
  exists c'. split; [exact Hrun|]. rewrite HX. reflexivity.
Defined.

(** X9 on the initialised camera: two beams in y give a height of 160. *)
Lemma beams_Y_handler_keeps_geometry_witness :
  exists c',
    Onn_beams_Y AfterSet 2 MH_camera_initialized = Some (DEVICE_OK, c') /\
    cameraCCDYSize_ c' = 160.
Proof.
  destruct (beams_Y_handler_keeps_geometry 2 MH_camera_initialized
              axes_ok_initialized full_frame_initialized)
    as (ret & c' & Hrun & _ & _ & _ & _ & _ & _ & _ & _ & _ & Hin & _).
  destruct Hin as (-> & _ & HY & _); [lia|].
  exists c'. split; [exact Hrun|]. rewrite HY. reflexivity.
Defined.

(** X10 on the initialised camera, with a parent hub: a scan width of 100
    gives a width of 200. *)
Lemma scanPixels_X_handler_keeps_geometry_witness :
  exists c',
    Onn_scanPixels_X AfterSet 100 true MH_camera_initialized
    = Some (DEVICE_OK, c') /\
    cameraCCDXSize_ c' = 200.
Proof.
  destruct (scanPixels_X_handler_keeps_geometry 100 MH_camera_initialized
              axes_ok_initialized full_frame_initialized)
    as ((ret & c' & Hrun & _ & _ & _ & _ & _ & _ & _ & _ & _ & Hin & _) & _).
  destruct Hin as (-> & _ & HX & _); [lia|].
  exists c'. split; [exact Hrun|]. rewrite HX. reflexivity.
Defined.

(** X11 on the initialised camera: a scan height of 50 gives a height of 150. *)
Lemma scanPixels_Y_handler_keeps_geometry_witness :
  exists c',
    Onn_scanPixels_Y AfterSet 50 MH_camera_initialized
    = Some (DEVICE_OK, c') /\
    cameraCCDYSize_ c' = 150.
Proof.
  destruct (scanPixels_Y_handler_keeps_geometry 50 MH_camera_initialized
              axes_ok_initialized full_frame_initialized)
    as (ret & c' & Hrun & _ & _ & _ & _ & _ & _ & _ & _ & _ & Hin & _).
  destruct Hin as (-> & _ & HY & _); [lia|].
  exists c'. split; [exact Hrun|]. rewrite HY. reflexivity.
Defined.

(** ** The whole of [start_acq] *)

Lemma start_acq_loop_continues (saving_ : bool) (p : Poll)
    (polls : list Poll) (c : MH_camera) :
  continues saving_ p = true ->
  start_acq_loop saving_ (p :: polls) c
  = start_acq_batch (processed p) c ≫= start_acq_loop saving_ polls.
Proof.
  unfold continues, processed. cbn [start_acq_loop].
  destruct (Z.leb_spec 0 (GetFlags_retcode p)); [|discriminate].
  destruct (Z.ltb_spec (GetFlags_retcode p) 0); [lia|].
  destruct (flags_FIFOFULL p); [discriminate|].
  destruct (Z.leb_spec 0 (ReadFiFo_retcode p)); [|discriminate].
  destruct (Z.ltb_spec (ReadFiFo_retcode p) 0); [lia|].
  cbn [andb negb].
  destruct (ReadFiFo_buffer p) as [|record buffer].
  - cbn. destruct (Z.leb_spec 0 (CTCStatus_retcode p)); [|discriminate].
    destruct (Z.ltb_spec (CTCStatus_retcode p) 0); [lia|].
    cbn. intros ->. reflexivity.
  - intros Hw.
    replace (negb (Z.of_nat (length (record :: buffer)) =? 0)) with true
      by (cbn [length]; symmetry; apply negb_true_iff, Z.eqb_neq; lia).
    destruct (start_acq_batch (record :: buffer) c) as [c1|]; [|reflexivity].
    cbn [mbind option_bind].
    destruct saving_; cbn in Hw |- *; [rewrite Hw|]; reflexivity.
Qed.

Lemma start_acq_loop_stops (saving_ : bool) (p : Poll) (polls : list Poll)
    (c : MH_camera) :
  continues saving_ p = false ->
  exists exit,
    exit <> still_polling /\
    start_acq_loop saving_ (p :: polls) c
    = c1 ← start_acq_batch (processed p) c; Some (exit, c1).
Proof.
  unfold continues, processed. cbn [start_acq_loop].
  destruct (Z.ltb_spec (GetFlags_retcode p) 0).
  { destruct (Z.leb_spec 0 (GetFlags_retcode p)); [lia|].
    intros _. exists goto_fail. split; [discriminate | reflexivity]. }
  destruct (Z.leb_spec 0 (GetFlags_retcode p)); [|lia].
  destruct (flags_FIFOFULL p).
  { intros _. exists goto_stoptttr. split; [discriminate | reflexivity]. }
  destruct (Z.ltb_spec (ReadFiFo_retcode p) 0).
  { destruct (Z.leb_spec 0 (ReadFiFo_retcode p)); [lia|].
    intros _. exists goto_stoptttr. split; [discriminate | reflexivity]. }
  destruct (Z.leb_spec 0 (ReadFiFo_retcode p)); [|lia].
  cbn [andb negb].
  destruct (ReadFiFo_buffer p) as [|record buffer].
  - cbn. destruct (Z.ltb_spec (CTCStatus_retcode p) 0).
    { intros _. exists goto_fail. split; [discriminate | reflexivity]. }
    destruct (Z.leb_spec 0 (CTCStatus_retcode p)); [|lia].
    cbn. intros ->. exists goto_stoptttr.
    split; [discriminate | reflexivity].
  - intros Hw.
    replace (negb (Z.of_nat (length (record :: buffer)) =? 0)) with true
      by (cbn [length]; symmetry; apply negb_true_iff, Z.eqb_neq; lia).
    exists goto_stoptttr. split; [discriminate|].
    destruct (start_acq_batch (record :: buffer) c) as [c1|]; [|reflexivity].
    cbn [mbind option_bind].
    destruct saving_, (fwrite_ok p); try discriminate. reflexivity.
Qed.

Lemma start_acq_loop_rounds (saving_ : bool) (pre : list Poll) (last : Poll)
    (rest : list Poll) :
  Forall (fun p => continues saving_ p = true) pre ->
  continues saving_ last = false ->
  forall c,
  exists exit,
    exit <> still_polling /\
    start_acq_loop saving_ (pre ++ last :: rest) c
    = c1 ← start_acq_batch (concat (processed <$> pre ++ [last])) c;
      Some (exit, c1).
Proof.
  intros Hpre Hlast. induction Hpre as [|p pre Hp _ IH]; intros c.
  - cbn [app fmap list_fmap concat]. rewrite app_nil_r.
    apply start_acq_loop_stops, Hlast.
  - cbn [app fmap list_fmap concat].
    rewrite (start_acq_loop_continues _ _ _ _ Hp).
    rewrite start_acq_batch_app.
    destruct (start_acq_batch (processed p) c) as [c1|].
    + cbn [mbind option_bind]. apply IH.
    + exists goto_stoptttr. split; [discriminate | reflexivity].
Qed.

(** X12.  Whatever the hardware answers, [start_acq] looks at no round after
    the one that ends the loop.  When the measurement cannot be started, the
    camera is that of the reset, and with [saving_] set the call is defined
    only if [fpout] is null or an open stream: it is undefined on a pointer
    that never got a value and on one that a call before has closed.  When
    the output file cannot be opened, the camera is that of the reset and
    [fpout] is null.  Otherwise the camera is the one that the record loop
    leaves on the records of all rounds up to the ending one, taken as one
    batch: the split into rounds does not matter; with [saving_] set [fpout]
    ends as a closed stream, and without it [fpout] is left alone.  Whenever
    the call returns, it returns [DEVICE_OK] with [current_line_] at -99.
    When the reset or the handling of these records is undefined, so is the
    call. *)
Theorem start_acq_runs_all_rounds (StartMeas_retcode : Z)
    (saving_ fopen_ok : bool) (fpout : FILE_ptr) (pre : list Poll)
    (last : Poll) (rest : list Poll) (c : MH_camera) :
  Forall (fun p => continues saving_ p = true) pre ->
  continues saving_ last = false ->
  start_acq StartMeas_retcode saving_ fopen_ok fpout (pre ++ last :: rest) c
  = c0 ← start_acq_reset c;
    if StartMeas_retcode <? 0 then
      if saving_ then
        match fpout with
        | fpout_NULL =>
            Some (Returned DEVICE_OK, fpout_NULL, set_current_line_ (-99) c0)
        | fpout_open =>
            Some (Returned DEVICE_OK, fpout_closed,
                  set_current_line_ (-99) c0)
        | fpout_indeterminate | fpout_closed => None
        end
      else Some (Returned DEVICE_OK, fpout, set_current_line_ (-99) c0)
    else if saving_ && negb fopen_ok then
      Some (Returned DEVICE_OK, fpout_NULL, set_current_line_ (-99) c0)
    else
      c1 ← start_acq_batch (concat (processed <$> pre ++ [last])) c0;
      Some (Returned DEVICE_OK, if saving_ then fpout_closed else fpout,
            set_current_line_ (-99) c1).
Proof.
  intros Hpre Hlast. unfold start_acq.
  destruct (start_acq_reset c) as [c0|]; [|reflexivity].
  cbn [mbind option_bind].
  destruct (StartMeas_retcode <? 0).
  { unfold start_acq_fail. destruct saving_; [destruct fpout|]; reflexivity. }
  destruct saving_, fopen_ok; cbn [andb negb]; try reflexivity.
  all: destruct (start_acq_loop_rounds _ pre last rest Hpre Hlast c0)
         as (exit & Hexit & ->);
       (destruct (start_acq_batch _ c0) as [c1|]; [|reflexivity]);
       cbn [mbind option_bind];
       destruct exit; [reflexivity | reflexivity | congruence].
Qed.

(** X12 on the initialised camera, with saving on and a file pointer that
    never got a value: a frame start, an empty round, a line start with a
    photon, then the end of the measurement time; the round after it is not
    read, and the file is closed. *)
Lemma start_acq_runs_all_rounds_witness :
  (fun r => (r.1, current_line_ r.2, n_frame_tracker_ r.2, live_rates r.2))
    <$> start_acq 0 true true fpout_indeterminate
          ([poll_records [0x86000000]; poll_records [];
            poll_records [0x84000000; 5]] ++ poll_done :: [poll_records [5]])
          MH_camera_initialized
  = Some (Returned DEVICE_OK, fpout_closed, -99, 1, [1; 0; 1; 1; 0; 0; 0; 0]).
Proof.
  rewrite (start_acq_runs_all_rounds 0 true true fpout_indeterminate
             [poll_records [0x86000000]; poll_records [];
              poll_records [0x84000000; 5]] poll_done [poll_records [5]]
             MH_camera_initialized).
  - vm_compute. reflexivity.
  - repeat constructor.
  - reflexivity.
Defined.

(** ** The test pattern *)

Lemma stride_parity (x : Z) :
  0 <= x < 2 ^ 32 ->
  (Z.rem (i32 (x ÷ check_stride)) 2 =? 0) = Z.even (x / check_stride).
Proof.
  intros Hx. unfold check_stride.
  rewrite Z.quot_div_nonneg by lia.
  assert (0 <= x / 50 < 2 ^ 31).
  { split; [apply Z.div_pos; lia|].
    apply Z.div_lt_upper_bound; lia. }
  rewrite i32_small by (unfold in_i32; lia).
  rewrite Z.rem_mod_nonneg by lia.
  rewrite Zmod_even. destruct (Z.even (x / 50)); reflexivity.
Qed.

Lemma checker_row_0 (maxValue x : Z) :
  checker maxValue x 0
  = if Z.even (x / check_stride) then 0 else maxValue.
Proof.
  unfold checker. replace (0 / check_stride) with 0 by reflexivity.
  rewrite Z.add_0_r. reflexivity.
Qed.

Lemma checker_row (maxValue x y : Z) :
  checker maxValue x y
  = if Z.even (y / check_stride) then checker maxValue x 0
    else maxValue - checker maxValue x 0.
Proof.
  rewrite checker_row_0. unfold checker. rewrite Z.even_add.
  destruct (Z.even (x / check_stride)), (Z.even (y / check_stride)); cbn; lia.
Qed.

Lemma checker_range (maxValue x y : Z) :
  0 <= maxValue -> 0 <= checker maxValue x y <= maxValue.
Proof. unfold checker. destruct (Z.even _); lia. Qed.

Section PatternLoops.

Variable load : list Z -> Z -> option Z.
Variable write : list Z -> Z -> Z -> option (list Z).
Variable maxValue : Z.
Variable cast : Z -> Z.
Variable size : Z.

Hypothesis size_pos : 0 < size.
Hypothesis maxValue_range : 0 <= maxValue < 2 ^ 31.
Hypothesis cast_small : forall v, 0 <= v <= maxValue -> cast v = v.
Hypothesis write_spec : forall mem i v,
  0 <= i -> size * (i + 1) <= Z.of_nat (length mem) -> 0 <= v <= maxValue ->
  exists mem',
    write mem i v = Some mem' /\ length mem' = length mem /\
    load mem' i = Some v /\
    (forall j, j <> i -> load mem' j = load mem j).

Variable width : Z.

Lemma pattern_row_0 (n : nat) : forall (x : Z) (mem : list Z),
  0 <= x -> x + Z.of_nat n < 2 ^ 32 ->
  size * (x + Z.of_nat n) <= Z.of_nat (length mem) ->
  exists mem',
    pattern_row load write maxValue cast n x 0 width mem = Some mem' /\
    length mem' = length mem /\
    (forall i, x <= i < x + Z.of_nat n ->
               load mem' i = Some (checker maxValue i 0)) /\
    (forall j, ~ x <= j < x + Z.of_nat n -> load mem' j = load mem j).
Proof.
  induction n as [|n IH]; intros x mem Hx Hn Hlen.
  - exists mem. cbn. repeat split; auto. intros; lia.
  - cbn [pattern_row]. unfold pattern_pixel. cbn [Z.eqb].
    rewrite stride_parity by lia.
    destruct (write_spec mem x (checker maxValue x 0))
      as (mem1 & Hw & Hl1 & Hsame & Hother);
      [lia | nia | apply checker_range; lia |].
    assert (Hstep : (if Z.even (x / check_stride)
                     then write mem x (cast 0)
                     else write mem x (cast maxValue)) = Some mem1).
    { rewrite <- Hw, checker_row_0.
      destruct (Z.even (x / check_stride)); rewrite cast_small by lia;
        reflexivity. }
    rewrite Hstep. cbn [mbind option_bind].
    replace (u32 (x + 1)) with (x + 1)
      by (symmetry; apply u32_small; unfold in_u32; lia).
    destruct (IH (x + 1) mem1) as (mem' & Hrun & Hl & Hin & Hout);
      [lia | lia | rewrite Hl1; nia |].
    exists mem'. split; [exact Hrun|]. split; [congruence|]. split.
    + intros i Hi. destruct (Z.eq_dec i x) as [-> | Hne].
      * rewrite Hout by lia. exact Hsame.
      * apply Hin. lia.
    + intros j Hj. rewrite Hout by lia. apply Hother. lia.
Qed.

Lemma pattern_row_y (y : Z) (n : nat) : forall (x : Z) (mem : list Z),
  0 < y < 2 ^ 32 -> 0 <= x -> x + Z.of_nat n <= width ->
  y * width + width < 2 ^ 32 ->
  size * (y * width + width) <= Z.of_nat (length mem) ->
  (forall i, 0 <= i < width -> load mem i = Some (checker maxValue i 0)) ->
  exists mem',
    pattern_row load write maxValue cast n x y width mem = Some mem' /\
    length mem' = length mem /\
    (forall i, x <= i < x + Z.of_nat n ->
               load mem' (i + y * width) = Some (checker maxValue i y)) /\
    (forall j, ~ x + y * width <= j < x + Z.of_nat n + y * width ->
               load mem' j = load mem j).
Proof.
  induction n as [|n IH]; intros x mem Hy Hx Hn Hw32 Hlen Hrow0.
  - exists mem. cbn. repeat split; auto. intros; lia.
  - cbn [pattern_row]. unfold pattern_pixel.
    destruct (Z.eqb_spec y 0) as [|_]; [lia|].
    rewrite stride_parity by lia.
    rewrite (Hrow0 x) by lia.
    assert (Hidx : u32 (x + u32 (y * width)) = x + y * width).
    { rewrite (u32_small (y * width)) by (unfold in_u32; nia).
      apply u32_small. unfold in_u32. nia. }
    rewrite Hidx.
    pose proof (checker_range maxValue x 0 ltac:(lia)) as Hr0.
    destruct (write_spec mem (x + y * width) (checker maxValue x y))
      as (mem1 & Hw & Hl1 & Hsame & Hother);
      [nia | nia | apply checker_range; lia |].
    assert (Hstep :
      (if Z.even (y / check_stride)
       then v ← Some (checker maxValue x 0);
            write mem (x + y * width) (cast v)
       else v ← Some (checker maxValue x 0);
            write mem (x + y * width) (cast (i32 (maxValue - v))))
      = Some mem1).
    { rewrite <- Hw, (checker_row maxValue x y). cbn [mbind option_bind].
      destruct (Z.even (y / check_stride)).
      - rewrite cast_small by lia. reflexivity.
      - rewrite i32_small by (unfold in_i32; lia).
        rewrite cast_small by lia. reflexivity. }
    rewrite Hstep. cbn [mbind option_bind].
    replace (u32 (x + 1)) with (x + 1)
      by (symmetry; apply u32_small; unfold in_u32; nia).
    destruct (IH (x + 1) mem1) as (mem' & Hrun & Hl & Hin & Hout);
      [lia | lia | lia | lia | rewrite Hl1; lia | |].
    { intros i Hi. rewrite Hother by nia. apply Hrow0, Hi. }
    exists mem'. split; [exact Hrun|]. split; [congruence|]. split.
    + intros i Hi. destruct (Z.eq_dec i x) as [-> | Hne].
      * rewrite Hout by lia. exact Hsame.
      * apply Hin. lia.
    + intros j Hj. rewrite Hout by lia. apply Hother. lia.
Qed.

Lemma pattern_rows_from (n : nat) : forall (y : Z) (mem : list Z),
  0 <= width -> 0 < y -> (y + Z.of_nat n) * width < 2 ^ 32 ->
  y + Z.of_nat n < 2 ^ 32 ->
  size * ((y + Z.of_nat n) * width) <= Z.of_nat (length mem) ->
  (forall i, 0 <= i < width -> load mem i = Some (checker maxValue i 0)) ->
  exists mem',
    pattern_rows load write maxValue cast n y width mem = Some mem' /\
    length mem' = length mem /\
    (forall i y', 0 <= i < width -> y <= y' < y + Z.of_nat n ->
                  load mem' (i + y' * width) = Some (checker maxValue i y')) /\
    (forall j, ~ y * width <= j < (y + Z.of_nat n) * width ->
               load mem' j = load mem j).
Proof.
  induction n as [|n IH]; intros y mem Hw Hy Hn32 Hy32 Hlen Hrow0.
  - exists mem. cbn. repeat split; auto. intros; lia.
  - cbn [pattern_rows].
    destruct (pattern_row_y y (Z.to_nat width) 0 mem)
      as (mem1 & Hrun1 & Hl1 & Hin1 & Hout1);
      [lia | lia | lia | nia | nia | exact Hrow0 |].
    rewrite Hrun1. cbn [mbind option_bind].
    replace (u32 (y + 1)) with (y + 1)
      by (symmetry; apply u32_small; unfold in_u32; lia).
    destruct (IH (y + 1) mem1) as (mem' & Hrun & Hl & Hin & Hout);
      [lia | lia | nia | lia | rewrite Hl1; nia | |].
    { intros i Hi. rewrite Hout1 by nia. apply Hrow0, Hi. }
    exists mem'. split; [exact Hrun|]. split; [congruence|]. split.
    + intros i y' Hi Hy'. destruct (Z.eq_dec y' y) as [-> | Hne].
      * rewrite Hout by nia. apply Hin1. lia.
      * apply Hin; lia.
    + intros j Hj. rewrite Hout by nia. apply Hout1. nia.
Qed.

Lemma pattern_rows_all (height : Z) (mem : list Z) :
  0 <= width < 2 ^ 32 -> 0 <= height < 2 ^ 32 -> width * height < 2 ^ 32 ->
  size * (width * height) <= Z.of_nat (length mem) ->
  exists mem',
    pattern_rows load write maxValue cast (Z.to_nat height) 0 width mem
    = Some mem' /\
    length mem' = length mem /\
    (forall x y, 0 <= x < width -> 0 <= y < height ->
                 load mem' (x + y * width) = Some (checker maxValue x y)) /\
    (forall j, ~ 0 <= j < width * height -> load mem' j = load mem j).
Proof.
  intros Hw Hh Hwh Hlen.
  destruct (Z.to_nat height) as [|n] eqn:En.
  - exists mem. cbn. repeat split; auto. intros; lia.
  - cbn [pattern_rows].
    destruct (pattern_row_0 (Z.to_nat width) 0 mem)
      as (mem1 & Hrun1 & Hl1 & Hin1 & Hout1); [lia | lia | nia |].
    rewrite Hrun1. cbn [mbind option_bind].
    change (u32 (0 + 1)) with 1.
    destruct (pattern_rows_from n 1 mem1) as (mem' & Hrun & Hl & Hin & Hout);
      [lia | lia | nia | lia | rewrite Hl1; nia | |].
    { intros i Hi. apply Hin1. lia. }
    exists mem'. split; [exact Hrun|]. split; [congruence|]. split.
    + intros x y Hx Hy. destruct (Z.eq_dec y 0) as [-> | Hne].
      * rewrite Hout by nia. rewrite Z.add_0_r. apply Hin1. lia.
      * apply Hin; lia.
    + intros j Hj. rewrite Hout by nia. apply Hout1. nia.
Qed.

End PatternLoops.

Lemma write8_spec (mem : list Z) (i v : Z) :
  0 <= i -> 1 * (i + 1) <= Z.of_nat (length mem) -> 0 <= v <= 255 ->
  exists mem',
    write8 mem i v = Some mem' /\ length mem' = length mem /\
    load8 mem' i = Some v /\
    (forall j, j <> i -> load8 mem' j = load8 mem j).
Proof.
  intros Hi Hlen _. exists (store8 mem i v). unfold write8.
  replace (0 <=? i) with true by (symmetry; apply Z.leb_le; lia).
  replace (i <? Z.of_nat (length mem)) with true
    by (symmetry; apply Z.ltb_lt; lia).
  split; [reflexivity|]. split; [apply length_store8|].
  split; [apply load8_store8_eq; lia|].
  intros j Hj. apply load8_store8_ne; [lia | congruence].
Qed.

Lemma write16_spec (mem : list Z) (i v : Z) :
  0 <= i -> 2 * (i + 1) <= Z.of_nat (length mem) -> 0 <= v <= 65535 ->
  exists mem',
    write16 mem i v = Some mem' /\ length mem' = length mem /\
    load16 mem' i = Some v /\
    (forall j, j <> i -> load16 mem' j = load16 mem j).
Proof.
  intros Hi Hlen _. exists (store16 mem i v). unfold write16.
  replace (0 <=? i) with true by (symmetry; apply Z.leb_le; lia).
  replace (2 * i + 1 <? Z.of_nat (length mem)) with true
    by (symmetry; apply Z.ltb_lt; lia).
  split; [reflexivity|].
  split; [unfold store16; rewrite !length_store8; reflexivity|].
  split; [apply load16_store16_eq; lia|].
  intros j Hj. apply load16_store16_ne; [lia | congruence].
Qed.

(** X13.  On a buffer of [Width * Height] samples whose depth goes with the
    pixel type, and with a bit depth below 32, [GenerateMHTestPattern] returns
    [true] and changes nothing but the pixel array, whose length it keeps;
    afterwards the sample at column [x] of row [y] is 0 when [x / 50 + y / 50]
    is even and the ceiling of the pixel type, 255 or 65535, when it is odd: a
    checkerboard of squares of 50 pixels. *)
Theorem test_pattern_is_checkerboard (c : MH_camera) :
  pixel_type_consistent c -> buffer_shape c -> 0 <= bitDepth_ c < 32 ->
  exists mem',
    GenerateMHTestPattern c
    = Some (true, set_img_ (SetPixels mem' (img_ c)) c) /\
    length mem' = length (GetPixels (img_ c)) /\
    forall x y,
      0 <= x < Width (img_ c) -> 0 <= y < Height (img_ c) ->
      sample (set_img_ (SetPixels mem' (img_ c)) c) (x + y * Width (img_ c))
      = Some (checker (ceiling c) x y).
Proof.
  intros Hpt (Hw & Hh & Hwh & Hlen) Hbits. unfold GenerateMHTestPattern.
  rewrite (u32_small (bitDepth_ c)) by (unfold in_u32; lia).
  destruct (Z.leb_spec 32 (bitDepth_ c)); [lia|]. cbv zeta.
  unfold sample, ceiling. cbn [PixelType set_img_ img_ GetPixels SetPixels].
  destruct Hpt as [[Ept Ed] | [Ept Ed]]; rewrite Ept, Ed in *.
  - cbn [String.eqb Ascii.eqb Bool.eqb g_PixelType_8bit].
    destruct (pattern_rows_all load8 write8 255 u8 1 ltac:(lia) ltac:(lia)
                (fun v Hv => Z.mod_small v (2 ^ 8) ltac:(lia)) write8_spec
                (Width (img_ c)) (Height (img_ c)) (GetPixels (img_ c)))
      as (mem' & Hrun & Hl & Hin & _); [lia | lia | lia | lia |].
    rewrite Hrun. cbn [mbind option_bind].
    exists mem'. split; [reflexivity|]. split; [exact Hl|]. exact Hin.
  - replace (String.eqb g_PixelType_16bit g_PixelType_8bit) with false
      by reflexivity.
    replace (String.eqb g_PixelType_16bit g_PixelType_16bit) with true
      by reflexivity.
    destruct (pattern_rows_all load16 write16 65535 u16 2 ltac:(lia)
                ltac:(lia)
                (fun v Hv => Z.mod_small v (2 ^ 16) ltac:(lia)) write16_spec
                (Width (img_ c)) (Height (img_ c)) (GetPixels (img_ c)))
      as (mem' & Hrun & Hl & Hin & _); [lia | lia | lia | lia |].
    rewrite Hrun. cbn [mbind option_bind].
    exists mem'. split; [reflexivity|]. split; [exact Hl|]. exact Hin.
Qed.

Lemma dims_initialized :
  Width (img_ MH_camera_initialized) = 240 /\
  Height (img_ MH_camera_initialized) = 240 /\
  Depth (img_ MH_camera_initialized) = 2 /\
  PixelType MH_camera_initialized = g_PixelType_16bit /\
  bitDepth_ MH_camera_initialized = 16.
Proof. vm_compute. repeat split. Qed.

Lemma buffer_shape_initialized : buffer_shape MH_camera_initialized.
Proof.
  destruct full_frame_initialized as (_ & _ & _ & Hlen).
  destruct dims_initialized as (HW & HH & HD & _).
  unfold buffer_shape. rewrite Hlen, HW, HH, HD. lia.
Qed.

(** X13 on the initialised camera (240 x 240 samples of 16 bits): the sample
    at column 60 of row 10 is 65535, the one at column 60 of row 70 is 0. *)
Lemma test_pattern_is_checkerboard_witness :
  exists mem',
    GenerateMHTestPattern MH_camera_initialized
    = Some (true,
            set_img_ (SetPixels mem' (img_ MH_camera_initialized))
              MH_camera_initialized) /\
    load16 mem' (60 + 10 * 240) = Some 65535 /\
    load16 mem' (60 + 70 * 240) = Some 0.
Proof.
  destruct dims_initialized as (HW & HH & HD & HP & HB).
  destruct (test_pattern_is_checkerboard MH_camera_initialized)
    as (mem' & Hrun & _ & Hin).
  - right. split; assumption.
  - exact buffer_shape_initialized.
  - rewrite HB. lia.
  - exists mem'. split; [exact Hrun|].
    unfold sample, ceiling in Hin.
    cbn [PixelType set_img_ img_ SetPixels GetPixels] in Hin.
    rewrite HP, HW, HH in Hin.
    split; [apply (Hin 60 10) | apply (Hin 60 70)]; lia.
Defined.

(** ** Regions of interest *)

Lemma fold_min_le (l : list Z) : forall a,
  fold_left Z.min l a <= a /\ Forall (fun x => fold_left Z.min l a <= x) l.
Proof.
  induction l as [|x l IH]; intros a; cbn.
  - split; [lia | constructor].
  - destruct (IH (Z.min a x)) as [H1 H2]. split; [lia|].
    constructor; [lia | exact H2].
Qed.

Lemma fold_min_in (l : list Z) : forall a,
  fold_left Z.min l a = a \/ fold_left Z.min l a ∈ l.
Proof.
  induction l as [|x l IH]; intros a; cbn; [now left|].
  destruct (IH (Z.min a x)) as [H | H].
  - rewrite H. destruct (Z.min_spec a x) as [[_ ->] | [_ ->]].
    + now left.
    + right. constructor.
  - right. now constructor.
Qed.

Lemma fold_max_ge (l : list Z) : forall a,
  a <= fold_left Z.max l a /\ Forall (fun x => x <= fold_left Z.max l a) l.
Proof.
  induction l as [|x l IH]; intros a; cbn.
  - split; [lia | constructor].
  - destruct (IH (Z.max a x)) as [H1 H2]. split; [lia|].
    constructor; [lia | exact H2].
Qed.

Lemma fold_max_in (l : list Z) : forall a,
  fold_left Z.max l a = a \/ fold_left Z.max l a ∈ l.
Proof.
  induction l as [|x l IH]; intros a; cbn; [now left|].
  destruct (IH (Z.max a x)) as [H | H].
  - rewrite H. destruct (Z.max_spec a x) as [[_ ->] | [_ ->]].
    + right. constructor.
    + now left.
  - right. now constructor.
Qed.

Lemma SetMultiROI_loop_spec (xs ys widths heights : list Z) (n : nat) :
  forall (i : nat) (s : MH_camera_roi) (b : Bounds),
    (i + n <= length xs)%nat -> (i + n <= length ys)%nat ->
    (i + n <= length widths)%nat -> (i + n <= length heights)%nat ->
    Z.of_nat (i + n) < 2 ^ 32 ->
    SetMultiROI_loop n (Z.of_nat i) xs ys widths heights s b
    = Some (multiROI_pushed (take n (drop i xs)) (take n (drop i ys))
              (take n (drop i widths)) (take n (drop i heights)) s,
            bounds_of (take n (drop i xs)) (take n (drop i ys))
              (take n (drop i widths)) (take n (drop i heights)) b).
Proof.
  induction n as [|n IH]; intros i s b Hx Hy Hw Hh Hi.
  - cbn. unfold multiROI_pushed, bounds_of. cbn. rewrite !app_nil_r.
    destruct s, b; reflexivity.
  - cbn [SetMultiROI_loop]. rewrite Nat2Z.id.
    destruct (lookup_lt_is_Some_2 xs i ltac:(lia)) as [x Ex].
    destruct (lookup_lt_is_Some_2 ys i ltac:(lia)) as [y Ey].
    destruct (lookup_lt_is_Some_2 widths i ltac:(lia)) as [w Ew].
    destruct (lookup_lt_is_Some_2 heights i ltac:(lia)) as [h Eh].
    rewrite Ex, Ey, Ew, Eh. cbn [mbind option_bind]. cbv zeta.
    assert (Hu : u32 (Z.of_nat i + 1) = Z.of_nat (S i)).
    { clear - Hi. unfold u32. rewrite Z.mod_small; lia. }
    rewrite Hu.
    rewrite IH by lia.
    rewrite (drop_S _ _ _ Ex), (drop_S _ _ _ Ey), (drop_S _ _ _ Ew),
      (drop_S _ _ _ Eh).
    cbn [take]. f_equal. f_equal.
    + unfold multiROI_pushed, push_back_multiROI. cbn.
      rewrite <- !app_assoc. reflexivity.
    + unfold bounds_of. cbn [zip_with map fold_left].
      destruct b as [a1 a2 a3 a4]. cbn [minX minY maxX maxY].
      destruct (Z.gtb_spec a1 x); cbn [minX minY maxX maxY];
        destruct (Z.gtb_spec a2 y); cbn [minX minY maxX maxY];
        destruct (Z.gtb_spec (u32 (x + w)) a3); cbn [minX minY maxX maxY];
        destruct (Z.gtb_spec (u32 (y + h)) a4); cbn [minX minY maxX maxY];
        f_equal; f_equal; lia.
Qed.

Lemma region_sums (X W : list Z) :
  Forall2 region_ok X W ->
  map u32 (zip_with Z.add X W) = zip_with Z.add X W.
Proof.
  induction 1 as [|x w X W (Hx & Hw & Hs) _ IH]; cbn; [reflexivity|].
  rewrite IH. f_equal. unfold u32. apply Z.mod_small. lia.
Qed.

(** One axis of the bounding box: the fold of the minima from [UINT_MAX] and
    the fold of the maxima from 0 over regions that do not wrap. *)
Lemma axis_bounds (X W : list Z) :
  Forall2 region_ok X W -> X <> [] ->
  let lo := fold_left Z.min X UINT_MAX in
  let hi := fold_left Z.max (map u32 (zip_with Z.add X W)) 0 in
  0 <= lo /\ lo <= hi /\ hi < 2 ^ 32 /\
  (forall i x w, X !! i = Some x -> W !! i = Some w ->
                 lo <= x /\ x + w <= hi) /\
  (exists i, X !! i = Some lo) /\
  (exists i x w, X !! i = Some x /\ W !! i = Some w /\ x + w = hi).
Proof.
  intros HF Hne lo hi. subst lo hi. rewrite (region_sums _ _ HF).
  set (lo := fold_left Z.min X UINT_MAX).
  set (hi := fold_left Z.max (zip_with Z.add X W) 0).
  assert (Hall : forall i x w, X !! i = Some x -> W !! i = Some w ->
                               region_ok x w /\ lo <= x /\ x + w <= hi).
  { intros i x w Ex Ew. split; [|split].
    - exact (Forall2_lookup_lr _ _ _ _ _ _ HF Ex Ew).
    - destruct (fold_min_le X UINT_MAX) as [_ Hle].
      exact (proj1 (Forall_lookup _ _) Hle i x Ex).
    - destruct (fold_max_ge (zip_with Z.add X W) 0) as [_ Hge].
      apply (proj1 (Forall_lookup _ _) Hge i (x + w)).
      rewrite lookup_zip_with, Ex. cbn. rewrite Ew. reflexivity. }
  pose proof (fold_min_in X UINT_MAX) as Hmin. fold lo in Hmin.
  pose proof (fold_max_in (zip_with Z.add X W) 0) as Hmax. fold hi in Hmax.
  clearbody lo hi.
  destruct X as [|x0 X']; [congruence|].
  destruct W as [|w0 W']; [inversion HF|].
  destruct (Hall 0%nat x0 w0 eq_refl eq_refl)
    as ((H0x & H0w & H0s) & H0lo & H0hi).
  assert (Hlo : exists i, (x0 :: X') !! i = Some lo).
  { destruct Hmin as [E | E].
    - exists 0%nat. cbn. f_equal. unfold UINT_MAX in E. lia.
    - apply list_elem_of_lookup_1 in E. exact E. }
  assert (Hhi : exists i x w, (x0 :: X') !! i = Some x /\
                              (w0 :: W') !! i = Some w /\ x + w = hi).
  { destruct Hmax as [E | E].
    - exists 0%nat, x0, w0. cbn. repeat split; lia.
    - apply list_elem_of_lookup_1 in E. destruct E as [i E].
      apply lookup_zip_with_Some in E. destruct E as (x & w & -> & Ex & Ew).
      exists i, x, w. auto. }
  destruct Hlo as [i Ei]. destruct Hhi as (j & x & w & Ex & Ew & Es).
  assert (0 <= lo).
  { destruct (lookup_lt_is_Some_2 (w0 :: W') i) as [wi Ewi].
    - rewrite <- (Forall2_length _ _ _ HF). eapply lookup_lt_Some, Ei.
    - destruct (Hall i lo wi Ei Ewi) as ((? & _) & _). assumption. }
  assert (hi < 2 ^ 32).
  { destruct (Hall j x w Ex Ew) as ((_ & _ & ?) & _). lia. }
  split; [assumption|]. split; [lia|]. split; [assumption|].
  split; [intros k xk wk Exk Ewk; apply (Hall k xk wk); assumption|].
  split; [exists i; exact Ei|].
  exists j, x, w. auto.
Qed.

(** X14.  [SetMultiROI] with at least one region, none of which wraps the
    [unsigned int] range, returns [DEVICE_OK], stores the [n] regions and
    leaves [GetROI] reporting their bounding box: every region lies inside the
    reported rectangle, and each of its four sides is touched by a region. *)
Theorem SetMultiROI_bounding_box (xs ys widths heights : list Z) (n : nat)
    (s : MH_camera_roi) :
  (0 < n)%nat -> Z.of_nat n < 2 ^ 32 ->
  (n <= length xs)%nat -> (n <= length ys)%nat ->
  (n <= length widths)%nat -> (n <= length heights)%nat ->
  Forall2 region_ok (take n xs) (take n widths) ->
  Forall2 region_ok (take n ys) (take n heights) ->
  exists s' x0 y0 xSize ySize,
    SetMultiROI xs ys widths heights (Z.of_nat n) s = Some (DEVICE_OK, s') /\
    GetROI s' = (DEVICE_OK, (x0, y0, xSize, ySize)) /\
    IsMultiROISet s' = true /\
    GetMultiROICount s' = (DEVICE_OK, Z.of_nat n) /\
    (forall i x y w h,
       (i < n)%nat ->
       xs !! i = Some x -> ys !! i = Some y ->
       widths !! i = Some w -> heights !! i = Some h ->
       x0 <= x /\ x + w <= x0 + xSize /\ y0 <= y /\ y + h <= y0 + ySize) /\
    (exists i, (i < n)%nat /\ xs !! i = Some x0) /\
    (exists i, (i < n)%nat /\ ys !! i = Some y0) /\
    (exists i x w, (i < n)%nat /\ xs !! i = Some x /\
                   widths !! i = Some w /\ x + w = x0 + xSize) /\
    (exists i y h, (i < n)%nat /\ ys !! i = Some y /\
                   heights !! i = Some h /\ y + h = y0 + ySize).
Proof.
  intros Hn Hn32 Hx Hy Hw Hh HX HY.
  unfold SetMultiROI.
  rewrite Nat2Z.id.
  rewrite (SetMultiROI_loop_spec xs ys widths heights n 0) by (cbn; lia).
  rewrite !drop_0. cbn [mbind option_bind].
  assert (HneX : take n xs <> []).
  { intros E. apply (f_equal length) in E. rewrite length_take in E.
    cbn in E. lia. }
  assert (HneY : take n ys <> []).
  { intros E. apply (f_equal length) in E. rewrite length_take in E.
    cbn in E. lia. }
  destruct (axis_bounds _ _ HX HneX) as (X0 & X1 & X2 & Xall & Xlo & Xhi).
  destruct (axis_bounds _ _ HY HneY) as (Y0 & Y1 & Y2 & Yall & Ylo & Yhi).
  cbn [bounds_of minX minY maxX maxY UINT_MAX] in *.
  set (lox := fold_left Z.min (take n xs) _) in *.
  set (loy := fold_left Z.min (take n ys) _) in *.
  set (hix := fold_left Z.max (map u32 (zip_with Z.add (take n xs) _)) 0) in *.
  set (hiy := fold_left Z.max (map u32 (zip_with Z.add (take n ys) _)) 0) in *.
  assert (Ex : u32 (hix - lox) = hix - lox)
    by (unfold u32; apply Z.mod_small; lia).
  assert (Ey : u32 (hiy - loy) = hiy - loy)
    by (unfold u32; apply Z.mod_small; lia).
  eexists _, lox, loy, (hix - lox), (hiy - loy).
  split; [reflexivity|].
  split; [unfold GetROI, Resize_xy; cbn; rewrite Ex, Ey; reflexivity|].
  split.
  { unfold IsMultiROISet. cbn. rewrite length_take.
    apply Z.gtb_lt. lia. }
  split.
  { unfold GetMultiROICount. cbn. rewrite length_take.
    rewrite Nat.min_l by lia. f_equal. unfold u32. apply Z.mod_small. lia. }
  split.
  { intros i x y w h Hi Exi Eyi Ewi Ehi.
    destruct (Xall i x w) as [? ?];
      [rewrite lookup_take_lt by lia; assumption
      |rewrite lookup_take_lt by lia; assumption|].
    destruct (Yall i y h) as [? ?];
      [rewrite lookup_take_lt by lia; assumption
      |rewrite lookup_take_lt by lia; assumption|].
    lia. }
  assert (Htake : forall (l : list Z) i v,
            take n l !! i = Some v -> (i < n)%nat /\ l !! i = Some v).
  { intros l i v E. assert (i < n)%nat.
    { apply lookup_lt_Some in E. rewrite length_take in E. lia. }
    rewrite lookup_take_lt in E by lia. auto. }
  split.
  { destruct Xlo as [i Ei]. apply Htake in Ei. exists i. exact Ei. }
  split.
  { destruct Ylo as [i Ei]. apply Htake in Ei. exists i. exact Ei. }
  split.
  { destruct Xhi as (i & x & w & Exi & Ewi & Es).
    apply Htake in Exi, Ewi. exists i, x, w.
    repeat split; try tauto. lia. }
  { destruct Yhi as (i & y & h & Eyi & Ehi & Es).
    apply Htake in Eyi, Ehi. exists i, y, h.
    repeat split; try tauto. lia. }
Qed.

(** X14 for the regions (10, 20, 30 x 10) and (40, 5, 10 x 50) on the
    initialised camera. *)
Lemma SetMultiROI_bounding_box_witness :
  exists s' x0 y0 xSize ySize,
    SetMultiROI [10; 40] [20; 5] [30; 10] [10; 50] 2 MH_camera_roi_initialized
    = Some (DEVICE_OK, s') /\
    GetROI s' = (DEVICE_OK, (x0, y0, xSize, ySize)) /\
    x0 <= 10 /\ 40 + 10 <= x0 + xSize /\ y0 <= 5 /\ 5 + 50 <= y0 + ySize.
Proof.
  destruct (SetMultiROI_bounding_box [10; 40] [20; 5] [30; 10] [10; 50] 2
              MH_camera_roi_initialized)
    as (s' & x0 & y0 & xSize & ySize & Hrun & Hget & _ & _ & Hin & _);
    try (cbn; lia).
  - cbn. repeat constructor; lia.
  - cbn. repeat constructor; lia.
  - exists s', x0, y0, xSize, ySize.
    split; [exact Hrun|]. split; [exact Hget|].
    pose proof (Hin 0%nat 10 20 30 10 ltac:(lia) eq_refl eq_refl eq_refl
                  eq_refl).
    pose proof (Hin 1%nat 40 5 10 50 ltac:(lia) eq_refl eq_refl eq_refl
                  eq_refl).
    lia.
Defined.

Lemma copied_step (src dst : list Z) (i n : nat) (x : Z) :
  src !! i = Some x -> (i < length dst)%nat ->
  copied (S i) n src (<[i:=x]> dst) = copied i (S n) src dst.
Proof.
  intros Ex Hi. unfold copied.
  rewrite (drop_S _ _ _ Ex). cbn [firstn].
  rewrite (take_S_r (<[i:=x]> dst) i x) by (apply list_lookup_insert_eq; lia).
  rewrite take_insert_ge by lia.
  rewrite drop_insert_lt by lia.
  rewrite <- app_assoc. cbn.
  replace (i + S n)%nat with (S (i + n)) by lia. reflexivity.
Qed.

Lemma array_set_in (a : list Z) (i : nat) (v : Z) :
  (i < length a)%nat -> array_set a (Z.of_nat i) v = Some (<[i:=v]> a).
Proof.
  intros Hi. unfold array_set. rewrite Nat2Z.id.
  replace (0 <=? Z.of_nat i) with true by (symmetry; apply Z.leb_le; lia).
  replace (Z.of_nat i <? Z.of_nat (length a)) with true
    by (symmetry; apply Z.ltb_lt; lia).
  reflexivity.
Qed.

Lemma GetMultiROI_loop_spec (s : MH_camera_roi) (n : nat) :
  forall (i : nat) (o : MultiROI_out),
    (i + n <= length (multiROIXs_ s))%nat ->
    (i + n <= length (multiROIYs_ s))%nat ->
    (i + n <= length (multiROIWidths_ s))%nat ->
    (i + n <= length (multiROIHeights_ s))%nat ->
    (i + n <= length (out_xs o))%nat ->
    (i + n <= length (out_ys o))%nat ->
    (i + n <= length (out_widths o))%nat ->
    (i + n <= length (out_heights o))%nat ->
    Z.of_nat (i + n) < 2 ^ 32 ->
    GetMultiROI_loop n (Z.of_nat i) s o
    = Some (mkMultiROI_out
              (copied i n (multiROIXs_ s) (out_xs o))
              (copied i n (multiROIYs_ s) (out_ys o))
              (copied i n (multiROIWidths_ s) (out_widths o))
              (copied i n (multiROIHeights_ s) (out_heights o))
              (out_length o)).
Proof.
  induction n as [|n IH]; intros i o Hx Hy Hw Hh Hox Hoy How Hoh Hi.
  - cbn [GetMultiROI_loop]. unfold copied.
    rewrite Nat.add_0_r, !firstn_O. cbn [app]. rewrite !take_drop. destruct o; reflexivity.
  - cbn [GetMultiROI_loop]. rewrite Nat2Z.id.
    destruct (lookup_lt_is_Some_2 (multiROIXs_ s) i ltac:(lia)) as [x Ex].
    destruct (lookup_lt_is_Some_2 (multiROIYs_ s) i ltac:(lia)) as [y Ey].
    destruct (lookup_lt_is_Some_2 (multiROIWidths_ s) i ltac:(lia))
      as [w Ew].
    destruct (lookup_lt_is_Some_2 (multiROIHeights_ s) i ltac:(lia))
      as [h Eh].
    rewrite Ex. cbn [mbind option_bind].
    rewrite (array_set_in (out_xs o)) by lia. cbn [mbind option_bind].
    rewrite Ey. cbn [mbind option_bind].
    rewrite (array_set_in (out_ys o)) by lia. cbn [mbind option_bind].
    rewrite Ew. cbn [mbind option_bind].
    rewrite (array_set_in (out_widths o)) by lia. cbn [mbind option_bind].
    rewrite Eh. cbn [mbind option_bind].
    rewrite (array_set_in (out_heights o)) by lia. cbn [mbind option_bind].
    assert (Hu : u32 (Z.of_nat i + 1) = Z.of_nat (S i)).
    { clear - Hi. unfold u32. rewrite Z.mod_small; lia. }
    rewrite Hu.
    rewrite IH by (cbn; rewrite ?length_insert; lia).
    cbn [out_xs out_ys out_widths out_heights out_length].
    rewrite !copied_step by (assumption || lia). reflexivity.
Qed.

(** X15.  [GetMultiROI] after [SetMultiROI] with [n] regions: when the caller
    announces fewer than [n] elements it returns
    [DEVICE_INTERNAL_INCONSISTENCY] and writes nothing; otherwise it returns
    [DEVICE_OK], writes the [n] regions that were set to the first [n]
    elements of the caller's arrays, leaves the other elements as they are and
    sets the length to [n]. *)
Theorem MultiROI_round_trip (xs ys widths heights : list Z) (n : nat)
    (s : MH_camera_roi) (o : MultiROI_out) :
  Z.of_nat n < 2 ^ 32 ->
  (n <= length xs)%nat -> (n <= length ys)%nat ->
  (n <= length widths)%nat -> (n <= length heights)%nat ->
  exists s',
    SetMultiROI xs ys widths heights (Z.of_nat n) s = Some (DEVICE_OK, s') /\
    (out_length o < Z.of_nat n ->
     GetMultiROI o s' = Some (DEVICE_INTERNAL_INCONSISTENCY, o)) /\
    (Z.of_nat n <= out_length o ->
     (n <= length (out_xs o))%nat -> (n <= length (out_ys o))%nat ->
     (n <= length (out_widths o))%nat -> (n <= length (out_heights o))%nat ->
     GetMultiROI o s'
     = Some (Code DEVICE_OK,
             mkMultiROI_out
               (take n xs ++ drop n (out_xs o))
               (take n ys ++ drop n (out_ys o))
               (take n widths ++ drop n (out_widths o))
               (take n heights ++ drop n (out_heights o))
               (Z.of_nat n))).
Proof.
  intros Hn Hx Hy Hw Hh. unfold SetMultiROI. rewrite Nat2Z.id.
  rewrite (SetMultiROI_loop_spec xs ys widths heights n 0) by (cbn; lia).
  rewrite !drop_0. cbn [mbind option_bind].
  eexists. split; [reflexivity|].
  assert (Hcount : u32 (Z.of_nat (length (take n xs))) = Z.of_nat n).
  { rewrite length_take, Nat.min_l by lia.
    unfold u32. apply Z.mod_small. lia. }
  split.
  - intros Hshort. unfold GetMultiROI.
    cbn [multiROIXs_ set_roi set_camera multiROI_pushed clear_multiROI app].
    rewrite Hcount.
    replace (Z.of_nat n >? out_length o) with true
      by (symmetry; apply Z.gtb_lt; lia).
    reflexivity.
  - intros Hfits Hox Hoy How Hoh. unfold GetMultiROI.
    cbn [multiROIXs_ set_roi set_camera multiROI_pushed clear_multiROI app].
    rewrite Hcount.
    replace (Z.of_nat n >? out_length o) with false
      by (symmetry; rewrite Z.gtb_ltb; apply Z.ltb_ge; lia).
    rewrite Nat2Z.id.
    rewrite (GetMultiROI_loop_spec _ n 0)
      by (cbn; rewrite ?length_take; lia).
    cbn [mbind option_bind out_xs out_ys out_widths out_heights
         multiROIXs_ multiROIYs_ multiROIWidths_ multiROIHeights_
         set_roi set_camera multiROI_pushed clear_multiROI app].
    unfold copied. cbn [firstn app Nat.add].
    rewrite !drop_0, !take_take, !Nat.min_id. reflexivity.
Qed.

(** X15 for two regions taken from arrays of three, read back into arrays of
    three zeroes, with three and with one announced element. *)
Lemma MultiROI_round_trip_witness :
  exists s',
    SetMultiROI [10; 40; 7] [20; 5; 7] [30; 10; 7] [10; 50; 7] 2
      MH_camera_roi_initialized = Some (DEVICE_OK, s') /\
    GetMultiROI (mkMultiROI_out [0; 0; 0] [0; 0; 0] [0; 0; 0] [0; 0; 0] 3) s'
    = Some (Code DEVICE_OK,
            mkMultiROI_out [10; 40; 0] [20; 5; 0] [30; 10; 0] [10; 50; 0] 2)
    /\
    GetMultiROI (mkMultiROI_out [0; 0; 0] [0; 0; 0] [0; 0; 0] [0; 0; 0] 1) s'
    = Some (DEVICE_INTERNAL_INCONSISTENCY,
            mkMultiROI_out [0; 0; 0] [0; 0; 0] [0; 0; 0] [0; 0; 0] 1).
Proof.
  destruct (MultiROI_round_trip [10; 40; 7] [20; 5; 7] [30; 10; 7]
              [10; 50; 7] 2 MH_camera_roi_initialized
              (mkMultiROI_out [0; 0; 0] [0; 0; 0] [0; 0; 0] [0; 0; 0] 3))
    as (s' & Hrun & _ & Hfits); try (cbn; lia).
  destruct (MultiROI_round_trip [10; 40; 7] [20; 5; 7] [30; 10; 7]
              [10; 50; 7] 2 MH_camera_roi_initialized
              (mkMultiROI_out [0; 0; 0] [0; 0; 0] [0; 0; 0] [0; 0; 0] 1))
    as (s'' & Hrun' & Hshort & _); try (cbn; lia).
  assert (s'' = s') by congruence. subst s''.
  exists s'. split; [exact Hrun|]. split.
  - apply Hfits; cbn; lia.
  - apply Hshort. cbn. lia.
Defined.

(** X16.  [SetMultiROI] with no region returns [DEVICE_OK] and leaves [GetROI]
    reporting the origin [UINT_MAX] in both axes and a size of 1 x 1, with no
    multiple region set: the minima are never lowered from [UINT_MAX], and the
    difference of 0 and [UINT_MAX] wraps to 1. *)
Theorem SetMultiROI_without_regions (xs ys widths heights : list Z)
    (s : MH_camera_roi) :
  exists s',
    SetMultiROI xs ys widths heights 0 s = Some (DEVICE_OK, s') /\
    GetROI s' = (DEVICE_OK, (UINT_MAX, UINT_MAX, 1, 1)) /\
    IsMultiROISet s' = false /\
    length (GetPixels (img_ (camera s')))
    = Z.to_nat (Depth (img_ (camera s))).
Proof.
  eexists. split; [reflexivity|]. cbn.
  repeat split; try reflexivity.
  rewrite length_replicate. f_equal.
  destruct (Depth (img_ (camera s))); reflexivity.
Qed.

(** X17.  [SetROI] with a size of 0 x 0 is [ClearROI], whatever the position.
    With any other size it returns [DEVICE_OK]; [GetROI] then reports the
    position and the size that were set, no multiple region is left, the
    buffer holds zeroes for the new size at the old depth, and the composite
    size is as before: the region is not checked against it. *)
Theorem SetROI_then_GetROI (x y xSize ySize : Z) (s : MH_camera_roi) :
  SetROI x y 0 0 s = ClearROI s /\
  (xSize <> 0 \/ ySize <> 0 ->
   exists s',
     SetROI x y xSize ySize s = Some (DEVICE_OK, s') /\
     GetROI s' = (DEVICE_OK, (x, y, xSize, ySize)) /\
     IsMultiROISet s' = false /\
     GetMultiROICount s' = (DEVICE_OK, 0) /\
     Depth (img_ (camera s')) = Depth (img_ (camera s)) /\
     GetPixels (img_ (camera s'))
     = replicate (Z.to_nat (xSize * ySize * Depth (img_ (camera s)))) 0 /\
     cameraCCDXSize_ (camera s') = cameraCCDXSize_ (camera s) /\
     cameraCCDYSize_ (camera s') = cameraCCDYSize_ (camera s)).
Proof.
  split.
  - unfold SetROI, ClearROI. cbn [Z.eqb andb camera clear_multiROI].
    destruct (ResizeImageBuffer (camera s)) as [[r c]|]; reflexivity.
  - intros Hsize. unfold SetROI.
    replace ((xSize =? 0) && (ySize =? 0)) with false.
    + eexists. split; [reflexivity|]. cbn. repeat split; reflexivity.
    + symmetry. apply andb_false_iff.
      destruct Hsize; [left | right]; apply Z.eqb_neq; assumption.
Qed.

(** X17 for a region of 32 x 16 at (5, 6) on the initialised camera. *)
Lemma SetROI_then_GetROI_witness :
  exists s',
    SetROI 5 6 32 16 MH_camera_roi_initialized = Some (DEVICE_OK, s') /\
    GetROI s' = (DEVICE_OK, (5, 6, 32, 16)).
Proof.
  destruct (SetROI_then_GetROI 5 6 32 16 MH_camera_roi_initialized)
    as (_ & Hset).
  destruct Hset as (s' & Hrun & Hget & _); [left; lia|].
  exists s'. split; assumption.
Defined.

(** ** Exposure sequences and the mode handlers *)

Lemma GetSequenceExposure_step {double : Type} (GetExposure : double)
    (s : MH_camera_sequence double) :
  0 < Z.of_nat (length (exposureSequence_ s)) < 2 ^ 32 ->
  0 <= sequenceIndex_ s < Z.of_nat (length (exposureSequence_ s)) ->
  exists exposure,
    exposureSequence_ s !! Z.to_nat (sequenceIndex_ s) = Some exposure /\
    GetSequenceExposure GetExposure s
    = Some (exposure,
            set_sequenceIndex_
              ((sequenceIndex_ s + 1)
                 mod Z.of_nat (length (exposureSequence_ s))) s).
Proof.
  intros Hn Hi. unfold GetSequenceExposure.
  destruct (Z.eqb_spec (Z.of_nat (length (exposureSequence_ s))) 0); [lia|].
  destruct (lookup_lt_is_Some_2 (exposureSequence_ s)
              (Z.to_nat (sequenceIndex_ s)) ltac:(lia)) as [exposure Hx].
  exists exposure. split; [exact Hx|]. rewrite Hx. cbn [mbind option_bind].
  cbv zeta. cbn [sequenceIndex_ exposureSequence_ set_sequenceIndex_].
  rewrite u32_small by (unfold in_u32; lia).
  destruct (Z.geb_spec (sequenceIndex_ s + 1)
              (Z.of_nat (length (exposureSequence_ s)))) as [Hge | Hlt].
  - replace (sequenceIndex_ s + 1)
      with (Z.of_nat (length (exposureSequence_ s))) by lia.
    rewrite Z.mod_same by lia. reflexivity.
  - rewrite Z.mod_small by lia. reflexivity.
Qed.

(** X18.  With the position inside a non-empty exposure sequence, [k] calls of
    [GetSequenceExposure] in a row are defined; they return the exposures from
    the position on, going round the sequence, and leave the position advanced
    by [k] modulo the length of the sequence. *)
Theorem sequence_exposures_cycle {double : Type} (GetExposure : double)
    (k : nat) (s : MH_camera_sequence double) :
  0 < Z.of_nat (length (exposureSequence_ s)) < 2 ^ 32 ->
  0 <= sequenceIndex_ s < Z.of_nat (length (exposureSequence_ s)) ->
  exists exposures,
    GetSequenceExposure_times k GetExposure s
    = Some (exposures,
            set_sequenceIndex_
              ((sequenceIndex_ s + Z.of_nat k)
                 mod Z.of_nat (length (exposureSequence_ s))) s) /\
    length exposures = k /\
    forall j, (j < k)%nat ->
      exposures !! j
      = exposureSequence_ s
          !! Z.to_nat ((sequenceIndex_ s + Z.of_nat j)
                         mod Z.of_nat (length (exposureSequence_ s))).
Proof.
  revert s. induction k as [|k IH]; intros s Hn Hi.
  - exists []. cbn [GetSequenceExposure_times]. rewrite Z.add_0_r.
    rewrite Z.mod_small by lia. split; [destruct s; reflexivity|].
    split; [reflexivity|]. intros j Hj. lia.
  - cbn [GetSequenceExposure_times].
    destruct (GetSequenceExposure_step GetExposure s Hn Hi)
      as (exposure & Hx & ->).
    cbn [mbind option_bind].
    set (n := Z.of_nat (length (exposureSequence_ s))) in *.
    assert (Hi1 : 0 <= (sequenceIndex_ s + 1) mod n < n)
      by (apply Z.mod_pos_bound; lia).
    destruct (IH (set_sequenceIndex_ ((sequenceIndex_ s + 1) mod n) s))
      as (exposures & Hrun & Hlen & Hall); [exact Hn | exact Hi1 |].
    cbn [sequenceIndex_ exposureSequence_ set_sequenceIndex_
         isSequenceable_ sequenceMaxLength_ sequenceRunning_] in Hrun, Hall.
    fold n in Hrun, Hall.
    assert (Hmod : forall j, ((sequenceIndex_ s + 1) mod n + Z.of_nat j) mod n
                             = (sequenceIndex_ s + Z.of_nat (S j)) mod n).
    { intros j. rewrite Z.add_mod_idemp_l by lia. f_equal. lia. }
    rewrite Hmod in Hrun. rewrite Hrun. cbn [mbind option_bind].
    exists (exposure :: exposures). split; [reflexivity|]. split.
    + cbn. lia.
    + intros [|j] Hj.
      * change ((exposure :: exposures) !! 0%nat) with (Some exposure).
        rewrite Z.add_0_r, Z.mod_small by lia. symmetry. exact Hx.
      * change ((exposure :: exposures) !! S j) with (exposures !! j).
        rewrite (Hall j) by lia. rewrite Hmod. reflexivity.
Qed.

(** X18 for five calls on a sequence of three exposures, from position 1. *)
Lemma sequence_exposures_cycle_witness :
  exists exposures : list Z,
    GetSequenceExposure_times 5 0
      (mkMH_camera_sequence true 100 true 1 [10; 20; 30])
    = Some (exposures, mkMH_camera_sequence true 100 true 0 [10; 20; 30]) /\
    exposures !! 0%nat = Some 20 /\ exposures !! 4%nat = Some 30.
Proof.
  destruct (sequence_exposures_cycle 0 5
              (mkMH_camera_sequence true 100 true 1 [10; 20; 30]))
    as (exposures & Hrun & _ & Hall); [cbn; lia | cbn; lia |].
  exists exposures. split; [exact Hrun|].
  split; [apply (Hall 0%nat) | apply (Hall 4%nat)]; lia.
Defined.

Lemma AddToExposureSequence_all_spec {double : Type}
    (exposures : list double) : forall (s : MH_camera_sequence double),
  isSequenceable_ s = true ->
  AddToExposureSequence_all exposures s
  = set_exposureSequence_ (exposureSequence_ s ++ exposures) s.
Proof.
  unfold AddToExposureSequence_all.
  induction exposures as [|exposure exposures IH]; intros s Hs.
  - cbn. rewrite app_nil_r. destruct s; reflexivity.
  - cbn [foldl]. unfold AddToExposureSequence at 2. rewrite Hs. cbn [negb snd].
    rewrite IH by exact Hs.
    cbn [exposureSequence_ set_exposureSequence_ isSequenceable_
         sequenceMaxLength_ sequenceRunning_ sequenceIndex_].
    rewrite <- app_assoc. reflexivity.
Qed.

(** X19.  [ClearExposureSequence] leaves the position in the sequence where it
    is.  After clearing a sequenceable camera and adding [exposures], the
    sequence is [exposures] and the position the old one, so the next
    [GetSequenceExposure] is undefined exactly when [exposures] is not empty
    and not longer than the old position.  After [StopExposureSequence], which
    resets the position, it is defined. *)
Theorem clear_keeps_sequence_index {double : Type} (GetExposure : double)
    (exposures : list double) (s : MH_camera_sequence double) :
  isSequenceable_ s = true -> 0 <= sequenceIndex_ s ->
  let refill s := AddToExposureSequence_all exposures
                    (ClearExposureSequence s).2 in
  exposureSequence_ (refill s) = exposures /\
  sequenceIndex_ (refill s) = sequenceIndex_ s /\
  (GetSequenceExposure GetExposure (refill s) = None <->
   exposures <> [] /\ Z.of_nat (length exposures) <= sequenceIndex_ s) /\
  is_Some (GetSequenceExposure GetExposure
             (refill (StopExposureSequence s).2)).
Proof.
  intros Hs Hi refill. subst refill. cbv beta.
  unfold ClearExposureSequence, StopExposureSequence. rewrite Hs.
  cbn [negb snd isSequenceable_ set_sequenceIndex_ set_sequenceRunning_].
  rewrite Hs. cbn [negb snd].
  rewrite !AddToExposureSequence_all_spec by exact Hs.
  cbn [exposureSequence_ set_exposureSequence_ isSequenceable_
       sequenceMaxLength_ sequenceRunning_ sequenceIndex_ app].
  split; [reflexivity|]. split; [reflexivity|].
  unfold GetSequenceExposure.
  cbn [exposureSequence_ set_exposureSequence_ isSequenceable_
       sequenceMaxLength_ sequenceRunning_ sequenceIndex_ set_sequenceIndex_].
  split.
  - destruct exposures as [|exposure exposures].
    + cbn. split; [discriminate | intros [? _]; congruence].
    + replace (Z.of_nat (length (exposure :: exposures)) =? 0) with false
        by (symmetry; apply Z.eqb_neq; cbn [length]; lia).
      destruct ((exposure :: exposures) !! Z.to_nat (sequenceIndex_ s))
        as [x|] eqn:Hx; cbn [mbind option_bind].
      * apply lookup_lt_Some in Hx.
        split; [discriminate | intros [_ ?]; lia].
      * apply lookup_ge_None in Hx.
        split; [intros _; split; [discriminate | lia] | reflexivity].
  - destruct exposures as [|exposure exposures]; cbn; eauto.
Qed.

(** X19 at position 2 of three exposures, refilled with two. *)
Lemma clear_keeps_sequence_index_witness :
  GetSequenceExposure 0
    (AddToExposureSequence_all [40; 50]
       (ClearExposureSequence
          (mkMH_camera_sequence true 100 true 2 [10; 20; 30])).2)
  = None.
Proof.
  apply (clear_keeps_sequence_index 0 [40; 50]
           (mkMH_camera_sequence true 100 true 2 [10; 20; 30])
           eq_refl ltac:(cbn; lia)).
  split; [discriminate | cbn; lia].
Defined.

(** X20.  The decay-or-rates handler reports decays as [Decays] but takes only
    [Decay] for them: setting the property to what the handler reports always
    selects rates, also when decays were selected. *)
Theorem decay_choice_is_not_restored (value : string)
    (rates_or_decays_ : bool) :
  let shown := (OnDecOrRat BeforeGet value rates_or_decays_).1.2 in
  (OnDecOrRat AfterSet shown rates_or_decays_).2 = true /\
  ((OnDecOrRat AfterSet value rates_or_decays_).2 = false <->
   value = "Decay"%string) /\
  shown <> "Decay"%string.
Proof.
  cbn. split; [|split].
  - destruct rates_or_decays_; reflexivity.
  - destruct (String.eqb_spec value "Decay"); cbn; split; congruence.
  - destruct rates_or_decays_; discriminate.
Qed.

(** X21.  After the mode property is set, the mode is one of the three modes;
    reading it back reports the name that was set when this is one of the
    three names, and the name of the test pattern otherwise; setting what is
    reported leaves the mode as it is. *)
Theorem mode_handler_round_trip (value shown : string) (mode_ : Z) :
  let mode' := (OnMode AfterSet value mode_).2 in
  let shown' := (OnMode BeforeGet shown mode').1.2 in
  (mode' = MODE_MH_TEST \/ mode' = MODE_MH_HISTO \/ mode' = MODE_MH_IMAGE) /\
  (value = g_MH_Test \/ value = g_MH_Histo \/ value = g_MH_Image ->
   shown' = value) /\
  (value <> g_MH_Test -> value <> g_MH_Histo -> value <> g_MH_Image ->
   shown' = g_MH_Test) /\
  (OnMode AfterSet shown' mode').2 = mode'.
Proof.
  cbv zeta. unfold OnMode.
  destruct (String.eqb_spec value g_MH_Test) as [-> | H1];
    [cbn; repeat split; auto; congruence|].
  destruct (String.eqb_spec value g_MH_Histo) as [-> | H2];
    [cbn; repeat split; auto; congruence|].
  destruct (String.eqb_spec value g_MH_Image) as [-> | H3];
    [cbn; repeat split; auto; congruence|].
  cbn. repeat split; auto. intros [? | [? | ?]]; congruence.
Qed.

(** X21 for the histogram mode. *)
Lemma mode_handler_round_trip_witness :
  (OnMode BeforeGet g_MH_Test (OnMode AfterSet g_MH_Histo MODE_MH_TEST).2).1.2
  = g_MH_Histo.
Proof.
  apply (mode_handler_round_trip g_MH_Histo g_MH_Test MODE_MH_TEST).
  right. left. reflexivity.
Defined.

(** X22.  After the property that makes exposures sequenceable has been set to
    [value], the property reads back as [Yes] or [No] and
    [IsExposureSequenceable] answers accordingly; each of the six sequence
    commands returns [DEVICE_OK] when [value] is [Yes], and
    [DEVICE_UNSUPPORTED_COMMAND], changing nothing, for any other value. *)
Theorem sequence_commands_need_sequenceable {double : Type} (value : string)
    (exposureTime_ms : double) (nrEvents : Z)
    (s : MH_camera_sequence double) :
  let s' := (OnIsSequenceable AfterSet value s).2 in
  (OnIsSequenceable BeforeGet value s').1.2
  = (if String.eqb value "Yes" then "Yes" else "No")%string /\
  IsExposureSequenceable s' = (DEVICE_OK, String.eqb value "Yes") /\
  (value = "Yes"%string ->
   GetExposureSequenceMaxLength nrEvents s'
   = (Code DEVICE_OK, sequenceMaxLength_ s) /\
   (StartExposureSequence s').1 = Code DEVICE_OK /\
   (StopExposureSequence s').1 = Code DEVICE_OK /\
   (ClearExposureSequence s').1 = Code DEVICE_OK /\
   (AddToExposureSequence exposureTime_ms s').1 = Code DEVICE_OK /\
   SendExposureSequence s' = Code DEVICE_OK) /\
  (value <> "Yes"%string ->
   GetExposureSequenceMaxLength nrEvents s'
   = (DEVICE_UNSUPPORTED_COMMAND, nrEvents) /\
   StartExposureSequence s' = (DEVICE_UNSUPPORTED_COMMAND, s') /\
   StopExposureSequence s' = (DEVICE_UNSUPPORTED_COMMAND, s') /\
   ClearExposureSequence s' = (DEVICE_UNSUPPORTED_COMMAND, s') /\
   AddToExposureSequence exposureTime_ms s'
   = (DEVICE_UNSUPPORTED_COMMAND, s') /\
   SendExposureSequence s' = DEVICE_UNSUPPORTED_COMMAND).
Proof.
  cbv zeta. unfold OnIsSequenceable.
  destruct (String.eqb_spec value "Yes") as [-> | Hne].
  - cbn. repeat split; congruence.
  - cbn. repeat split; congruence.
Qed.

(** X22 for [StartExposureSequence] after the property is set to [Yes]. *)
Lemma sequence_commands_need_sequenceable_witness :
  (StartExposureSequence
     (OnIsSequenceable AfterSet "Yes"
        (mkMH_camera_sequence false 100 false 0 [10; 20])).2).1
  = Code DEVICE_OK.
Proof.
  apply (sequence_commands_need_sequenceable "Yes" 30 0
           (mkMH_camera_sequence false 100 false 0 [10; 20])).
  reflexivity.
Defined.

(** ** The string utilities of [SocketGalvo] *)

Lemma index_bound (target : string) : forall (source : string) (n pos : nat),
  String.index n target source = Some pos -> (pos <= String.length source)%nat.
Proof.
  induction source as [|ch source IH]; intros n pos;
    cbn [String.index String.length].
  - destruct n; [|discriminate]. destruct target; [|discriminate].
    intros H; inversion H. lia.
  - destruct n.
    + destruct (String.prefix target (String ch source)).
      * intros H; inversion H; lia.
      * destruct (String.index 0 target source) as [m|] eqn:E;
          [|discriminate].
        intros H; inversion H; subst. apply IH in E. lia.
    + destruct (String.index n target source) as [m|] eqn:E; [|discriminate].
      intros H; inversion H; subst. apply IH in E. lia.
Qed.

Lemma string_length_append (s1 s2 : string) :
  String.length (String.append s1 s2)
  = (String.length s1 + String.length s2)%nat.
Proof.
  induction s1 as [|ch s1 IH]; simpl; [reflexivity | now rewrite IH].
Qed.

Lemma string_length_prefix (s : string) : forall (pos : nat),
  (pos <= String.length s)%nat ->
  String.length (String.substring 0 pos s) = pos.
Proof.
  induction s as [|ch s IH]; intros pos Hpos; cbn in Hpos.
  - replace pos with 0%nat by lia. reflexivity.
  - destruct pos as [|pos]; [reflexivity|].
    cbn [String.substring String.length]. rewrite IH by lia. reflexivity.
Qed.

Lemma replace_defined (pos len : nat) (replacement destination : string) :
  (pos <= String.length destination)%nat ->
  exists destination',
    replace pos len replacement destination = Some destination' /\
    (pos <= String.length destination')%nat.
Proof.
  intros Hpos. unfold replace.
  destruct (Nat.ltb_spec (String.length destination) pos); [lia|].
  eexists. split; [reflexivity|].
  rewrite string_length_append, string_length_prefix by lia. lia.
Qed.

Lemma replace_str_loop_runs (source target replacement : string) (pos : nat) :
  find source target = Some pos ->
  forall (rounds : nat) (destination : string),
    (pos <= String.length destination)%nat ->
    replace_str_loop rounds source target replacement destination
    = Some Running.
Proof.
  intros Hfind. induction rounds as [|rounds IH]; intros destination Hpos.
  - cbn. rewrite Hfind. reflexivity.
  - cbn [replace_str_loop]. rewrite Hfind.
    destruct (replace_defined pos (String.length target) replacement
                destination Hpos) as (destination' & -> & Hpos').
    cbn [mbind option_bind]. apply IH, Hpos'.
Qed.

(** X24.  [replace_str] replaces nothing: it returns [source] as it is when
    [target] does not occur in it, and when it does, it is still in its loop
    after any number of rounds, because the loop tests [source] and changes
    [destination]. *)
Theorem replace_str_never_replaces (rounds : nat)
    (source target replacement : string) :
  replace_str rounds source target replacement
  = Some (match find source target with
          | None => Returned source
          | Some _ => Running
          end).
Proof.
  unfold replace_str. destruct (find source target) as [pos|] eqn:Hfind.
  - apply (replace_str_loop_runs _ _ _ pos Hfind).
    apply (index_bound target source 0). exact Hfind.
  - destruct rounds; cbn; rewrite Hfind; reflexivity.
Qed.

Lemma prep_json_calls_spec (rounds : nat) (json_output : string)
    (calls : list (string * string)) :
  prep_json_calls rounds json_output calls
  = Some (match filter (fun target => is_Some (find json_output target))
                  calls.*1 with
          | [] => Returned json_output
          | _ :: _ => Running
          end).
Proof.
  induction calls as [|[target replacement] calls IH]; [reflexivity|].
  cbn [prep_json_calls fmap list_fmap fst].
  rewrite replace_str_never_replaces. cbn [mbind option_bind].
  rewrite filter_cons.
  destruct (find json_output target) as [pos|] eqn:Hfind.
  - rewrite decide_True by eauto. reflexivity.
  - rewrite decide_False by (intros [? ?]; discriminate). exact IH.
Qed.

(** X25.  [prep_json] substitutes nothing: it returns the template as it is
    when none of the eight placeholders occurs in it, and does not return
    otherwise; with the template that [SocketGalvo::Initialize] sets, which
    holds all eight, it does not return, whatever the values. *)
Theorem prep_json_never_substitutes (rounds : nat) (json_template : string)
    (scan_pixels_per_axis_X scan_pixels_per_axis_Y microns_per_pixel
     time_per_image n_images flyback_fraction magnification
     scans_per_image : string) :
  prep_json rounds json_template scan_pixels_per_axis_X
    scan_pixels_per_axis_Y microns_per_pixel time_per_image n_images
    flyback_fraction magnification scans_per_image
  = Some (match occurring json_template with
          | [] => Returned json_template
          | _ :: _ => Running
          end) /\
  prep_json rounds json_template_ scan_pixels_per_axis_X
    scan_pixels_per_axis_Y microns_per_pixel time_per_image n_images
    flyback_fraction magnification scans_per_image
  = Some Running.
Proof.
  unfold prep_json. cbv zeta. rewrite !prep_json_calls_spec.
  split; [reflexivity|]. vm_compute. reflexivity.
Qed.

Lemma all_from_spec (P : Z -> bool) (count : nat) : forall (start z : Z),
  all_from P start count = true ->
  start <= z < start + Z.of_nat count -> P z = true.
Proof.
  induction count as [|count IH]; intros start z Hall Hz; [lia|].
  cbn [all_from] in Hall. apply andb_prop in Hall as [H0 Hrest].
  destruct (Z.eq_dec z start) as [-> | Hne]; [exact H0|].
  apply (IH (start + 1)); [exact Hrest | lia].
Qed.

Lemma length_fields_ok :
  all_from length_field_ok 0 (Z.to_nat 10000) = true.
Proof. vm_compute. reflexivity. Qed.

Lemma lengths_five_digits :
  all_from five_digits 10000 (Z.to_nat 90000) = true.
Proof. vm_compute. reflexivity. Qed.

Lemma length_field_spec (cmd_len : Z) :
  0 <= cmd_len < 10000 ->
  String.length (length_field cmd_len) = 4%nat /\
  c_str (length_field cmd_len) = length_field cmd_len /\
  read_decimal (length_field cmd_len) = Some cmd_len.
Proof.
  intros Hn.
  pose proof (all_from_spec _ _ _ cmd_len length_fields_ok ltac:(lia)) as H.
  unfold length_field_ok in H.
  apply andb_prop in H as [H H3]. apply andb_prop in H as [H1 H2].
  apply Nat.eqb_eq in H1. apply String.eqb_eq in H2.
  apply bool_decide_eq_true in H3. auto.
Qed.

Lemma c_str_append (s1 s2 : string) :
  c_str s1 = s1 -> c_str (String.append s1 s2) = String.append s1 (c_str s2).
Proof.
  induction s1 as [|ch s1 IH]; simpl; [reflexivity|].
  destruct (Ascii.eqb ch Ascii.zero); [discriminate|].
  intros H. inversion H as [H']. rewrite H'. rewrite IH by exact H'.
  reflexivity.
Qed.

Lemma substring_append_prefix (s1 s2 : string) :
  String.substring 0 (String.length s1) (String.append s1 s2) = s1.
Proof.
  induction s1 as [|ch s1 IH]; simpl.
  - destruct s2; reflexivity.
  - rewrite IH. reflexivity.
Qed.

(** X26.  [send_on_socket] returns 0.  A message of fewer than 10000 bytes
    without a NUL is handed to [send] as four characters, the message and CR
    LF, and the four characters read as a decimal number give the length of
    the message.  A message of 10000 to 99999 bytes is not framed like this:
    the unsigned count of padding zeros wraps to 4294967295. *)
Theorem send_on_socket_frame (message_string : string) :
  (send_on_socket message_string).2 = 0 /\
  (c_str message_string = message_string ->
   Z.of_nat (String.length message_string) < 10000 ->
   exists field,
     (send_on_socket message_string).1
     = String.append field (String.append message_string CRLF) /\
     String.length field = 4%nat /\
     read_decimal field = Some (Z.of_nat (String.length message_string)) /\
     read_decimal
       (String.substring 0 4 (send_on_socket message_string).1)
     = Some (Z.of_nat (String.length message_string))) /\
  (10000 <= Z.of_nat (String.length message_string) < 100000 ->
   number_of_zeros message_string = 4294967295).
Proof.
  split; [reflexivity|]. split.
  - intros Hnul Hlen.
    set (n := Z.of_nat (String.length message_string)) in *.
    destruct (length_field_spec n ltac:(lia)) as (H4 & Hc & Hread).
    exists (length_field n).
    assert (Hsent : (send_on_socket message_string).1
                    = String.append (length_field n)
                        (String.append message_string CRLF)).
    { unfold send_on_socket, number_of_zeros. cbv zeta. cbn [fst]. fold n.
      rewrite (i32_small n) by (unfold in_i32; lia).
      fold (length_field n).
      rewrite c_str_append by exact Hc. f_equal.
      rewrite c_str_append by exact Hnul. reflexivity. }
    split; [exact Hsent|]. split; [exact H4|]. split; [exact Hread|].
    rewrite Hsent. rewrite <- H4 at 1.
    rewrite substring_append_prefix. exact Hread.
  - intros Hlen. unfold number_of_zeros. cbv zeta.
    set (n := Z.of_nat (String.length message_string)) in *. clearbody n.
    rewrite i32_small by (unfold in_i32; lia).
    pose proof (all_from_spec _ _ _ n lengths_five_digits ltac:(lia)) as H.
    apply Nat.eqb_eq in H. rewrite H. reflexivity.
Qed.


(** X26 for the command that [start_scan] sends. *)
Lemma send_on_socket_frame_witness :
  exists field,
    (send_on_socket "command1").1
    = String.append field (String.append "command1" CRLF) /\
    read_decimal field = Some 8.
Proof.
  destruct (send_on_socket_frame "command1") as (_ & Hframe & _).
  destruct Hframe as (field & Hsent & _ & Hread & _);
    [reflexivity | cbn; lia |].
  exists field. split; [exact Hsent | exact Hread].
Defined.

(** ** The scan status and the sequence thread *)

Lemma set_ScanStatus_status (value : string) (g : SocketGalvo) :
  ScanStatus_allowed value ->
  SG_Status_ (set_ScanStatus value g)
  = if String.eqb value "Idle" then SG_Status_ g else 1.
Proof.
  intros [-> | [-> | ->]]; reflexivity.
Qed.

Lemma set_ScanStatus_sent (value : string) (g : SocketGalvo) :
  sent (set_ScanStatus value g)
  = if String.eqb value "Running" then start_scan.1 :: sent g else sent g.
Proof.
  unfold set_ScanStatus, On_SG_Status.
  cbn [ScanStatus SG_Status_ sent snd].
  destruct (String.eqb_spec value "Idle") as [-> | _]; [reflexivity|].
  destruct (String.eqb_spec value "Running") as [-> | _]; [reflexivity|].
  destruct (String.eqb value "Start"); reflexivity.
Qed.

Lemma replicate_cons_end {A : Type} (n : nat) (x : A) (l : list A) :
  replicate n x ++ x :: l = replicate (S n) x ++ l.
Proof.
  induction n as [|n IH]; [reflexivity|].
  cbn [replicate app] in *. rewrite IH. reflexivity.
Qed.

(** X27.  Through the values that the scan-status property allows, the status
    never goes back to idle: once it is 1, or once a value other than [Idle]
    has been set, it is 1 and the handler reports [Running], whatever is set
    later; setting [Idle] does not change it.  One command frame is sent for
    each [Running] that is set. *)
Theorem scan_status_never_returns_to_idle (values : list string)
    (g : SocketGalvo) :
  Forall ScanStatus_allowed values ->
  let g' := foldl (fun g value => set_ScanStatus value g) g values in
  (SG_Status_ g = 1 \/ Exists (fun value => value <> "Idle"%string) values ->
   SG_Status_ g' = 1 /\
   ScanStatus (On_SG_Status BeforeGet DEVICE_OK g').2 = "Running"%string) /\
  (Forall (fun value => value = "Idle"%string) values ->
   SG_Status_ g' = SG_Status_ g) /\
  sent g'
  = replicate (length (filter (fun value => value = "Running"%string) values))
      start_scan.1 ++ sent g.
Proof.
  intros Hall. cbv zeta. revert g.
  induction Hall as [|value values Hv _ IH]; intros g.
  - cbn [foldl]. split; [|split; reflexivity].
    intros [H1 | Hex]; [|inversion Hex].
    unfold On_SG_Status. rewrite H1. cbn. auto.
  - cbn [foldl]. destruct (IH (set_ScanStatus value g)) as (IH1 & IH2 & IH3).
    pose proof (set_ScanStatus_status value g Hv) as Hs.
    split; [|split].
    + intros Hor. apply IH1.
      destruct (String.eqb_spec value "Idle") as [-> | Hne].
      * destruct Hor as [H1 | Hex]; [left; congruence|].
        inversion Hex; subst; [congruence | right; assumption].
      * left. exact Hs.
    + intros Hidle. inversion Hidle; subst.
      rewrite IH2 by assumption. exact Hs.
    + rewrite IH3, set_ScanStatus_sent, filter_cons.
      destruct (String.eqb_spec value "Running") as [-> | Hne].
      * rewrite decide_True by reflexivity. cbn [length].
        apply replicate_cons_end.
      * rewrite decide_False by exact Hne. reflexivity.
Qed.

(** X27 for [Start] followed by [Idle] twice, from the idle state. *)
Lemma scan_status_never_returns_to_idle_witness :
  ScanStatus
    (On_SG_Status BeforeGet DEVICE_OK
       (foldl (fun g value => set_ScanStatus value g)
          (mkSocketGalvo "Idle" 0 []) ["Start"; "Idle"; "Idle"]%string)).2
  = "Running"%string.
Proof.
  destruct (scan_status_never_returns_to_idle
              ["Start"; "Idle"; "Idle"]%string (mkSocketGalvo "Idle" 0 []))
    as (Hrun & _ & _).
  - repeat (constructor; [unfold ScanStatus_allowed; auto|]). constructor.
  - apply Hrun. right. constructor. discriminate.
Defined.

Lemma svc_loop_ok (k : nat) : forall (numImages_ imageCounter_ rounds : Z)
    (rest : list Frame),
  0 <= imageCounter_ ->
  imageCounter_ + Z.of_nat k <= Z.max numImages_ 1 - 1 ->
  - 2 ^ 31 < numImages_ < 2 ^ 31 ->
  svc_loop (replicate k frame_ok ++ rest) numImages_ imageCounter_ rounds
  = svc_loop rest numImages_ (imageCounter_ + Z.of_nat k)
      (rounds + Z.of_nat k).
Proof.
  induction k as [|k IH]; intros numImages_ imageCounter_ rounds rest Hc Hk Hn.
  - cbn [replicate app]. rewrite !Z.add_0_r. reflexivity.
  - cbn [replicate app svc_loop frame_ok RunSequenceOnThread_ret IsStopped
         is_DEVICE_OK andb negb]. cbv zeta.
    rewrite !i32_small by (unfold in_i32; lia).
    destruct (Z.ltb_spec imageCounter_ (numImages_ - 1)); [|lia].
    rewrite IH by lia. f_equal; lia.
Qed.

(** X23.  The loop of the sequence thread after [k] rounds that succeed while
    the thread is not stopped, [k] being less than the larger of [numImages]
    and 1: the next round is the last when it fails or finds the thread
    stopped, and also when it is round number [numImages], or the first round
    with [numImages] not positive; the thread then returns the code of that
    round, and no later round is run.  So an undisturbed sequence runs
    [numImages] rounds, but never fewer than one. *)
Theorem sequence_thread_rounds (numImages : Z) (k : nat) (last : Frame)
    (rest : list Frame) :
  - 2 ^ 31 < numImages < 2 ^ 31 ->
  Z.of_nat k < Z.max numImages 1 ->
  is_DEVICE_OK (RunSequenceOnThread_ret last) && negb (IsStopped last) = false
  \/ Z.of_nat k = Z.max numImages 1 - 1 ->
  svc numImages (replicate k frame_ok ++ last :: rest)
  = Returned (RunSequenceOnThread_ret last,
          if is_DEVICE_OK (RunSequenceOnThread_ret last)
             && negb (IsStopped last)
          then Z.of_nat k + 1 else Z.of_nat k,
          Z.of_nat k + 1).
Proof.
  intros Hn Hk Hlast. unfold svc.
  rewrite svc_loop_ok by lia. cbn [svc_loop]. cbv zeta.
  rewrite !Z.add_0_l.
  destruct (is_DEVICE_OK (RunSequenceOnThread_ret last)
            && negb (IsStopped last)); [|reflexivity].
  destruct Hlast as [Hlast | Hlast]; [discriminate|].
  rewrite !i32_small by (unfold in_i32; lia).
  destruct (Z.ltb_spec (Z.of_nat k) (numImages - 1)); [lia | reflexivity].
Qed.

(** X23 for no image asked for, for three images, and for three images with
    the thread stopped in the second round. *)
Lemma sequence_thread_rounds_witness :
  svc 0 [frame_ok; frame_ok] = Returned (DEVICE_OK, 1, 1) /\
  svc 3 [frame_ok; frame_ok; frame_ok; frame_ok]
  = Returned (DEVICE_OK, 3, 3) /\
  svc 3 [frame_ok; mkFrame DEVICE_OK true; frame_ok]
  = Returned (DEVICE_OK, 1, 2).
Proof.
  split; [|split].
  - apply (sequence_thread_rounds 0 0 frame_ok [frame_ok]); [lia | lia|].
    right. reflexivity.
  - apply (sequence_thread_rounds 3 2 frame_ok [frame_ok]); [lia | lia|].
    right. reflexivity.
  - apply (sequence_thread_rounds 3 1 (mkFrame DEVICE_OK true) [frame_ok]);
      [lia | lia|].
    left. reflexivity.
Defined.

(** ** The status and the saving handlers *)

Lemma start_acq_reset_keeps (c c0 : MH_camera) :
  start_acq_reset c = Some c0 -> same_configuration c c0.
Proof.
  unfold start_acq_reset. intros H.
  destruct (n_frame_repeats_ c =? 0); [discriminate|].
  apply (inj Some) in H. subst c0.
  destruct (Z.rem _ _ =? 0); unfold same_configuration; cbn;
    rewrite ?length_replicate; repeat split.
Qed.

Lemma start_acq_batch_keeps (buffer : list Z) (c c' : MH_camera) :
  start_acq_batch buffer c = Some c' -> same_configuration c c'.
Proof.
  revert c. induction buffer as [|val rest IH]; intros c Hrun.
  - cbn in Hrun. apply (inj Some) in Hrun. subst c'.
    apply same_configuration_refl.
  - cbn [start_acq_batch] in Hrun.
    destruct (start_acq_record val c) as [c1|] eqn:Hc1; [|discriminate].
    cbn [mbind option_bind] in Hrun.
    apply start_acq_record_Some in Hc1 as (c2 & rates & Hc2 & -> & _).
    apply TranslateRecord_keeps_configuration in Hc2 as [Hs2 _].
    eapply same_configuration_trans; [exact Hs2|].
    exact (IH _ Hrun).
Qed.

Lemma start_acq_loop_keeps (saving : bool) (polls : list Poll)
    (c c' : MH_camera) (exit : LoopExit) :
  start_acq_loop saving polls c = Some (exit, c') -> same_configuration c c'.
Proof.
  revert c. induction polls as [|p polls IH]; intros c H.
  - cbn in H. apply (inj Some) in H. inversion H. subst.
    apply same_configuration_refl.
  - cbn [start_acq_loop] in H.
    destruct (GetFlags_retcode p <? 0);
      [apply (inj Some) in H; inversion H; apply same_configuration_refl|].
    destruct (flags_FIFOFULL p);
      [apply (inj Some) in H; inversion H; apply same_configuration_refl|].
    destruct (ReadFiFo_retcode p <? 0);
      [apply (inj Some) in H; inversion H; apply same_configuration_refl|].
    destruct (negb _).
    + destruct (start_acq_batch _ c) as [c1|] eqn:Hb; [|discriminate].
      cbn [mbind option_bind] in H.
      apply start_acq_batch_keeps in Hb.
      destruct (saving && _).
      * apply (inj Some) in H. inversion H. subst. exact Hb.
      * eapply same_configuration_trans; [exact Hb|]. exact (IH _ H).
    + destruct (CTCStatus_retcode p <? 0);
        [apply (inj Some) in H; inversion H; apply same_configuration_refl|].
      destruct (negb _);
        [apply (inj Some) in H; inversion H; apply same_configuration_refl|].
      exact (IH _ H).
Qed.

(** What a return through the label [fail] leaves. *)
Lemma start_acq_fail_returned (saving : bool) (f f' : FILE_ptr)
    (c c' : MH_camera) (r : Run RetCode) :
  start_acq_fail saving f c = Some (r, f', c') ->
  r = Returned DEVICE_OK /\ c' = set_current_line_ (-99) c /\
  (if saving then f' = fpout_NULL \/ f' = fpout_closed else f' = f).
Proof.
  unfold start_acq_fail. intros H.
  destruct saving; [destruct f; try discriminate|];
    apply (inj Some) in H; inversion H; subst; auto.
Qed.

(** When [start_acq] has returned, it has returned [DEVICE_OK], the
    acquisition is over, the configuration is the one before, and no file
    is open that the call has opened. *)
Lemma start_acq_returned (StartMeas_retcode : Z) (saving fopen_ok : bool)
    (f f' : FILE_ptr) (polls : list Poll) (c c' : MH_camera)
    (r : Run RetCode) :
  start_acq StartMeas_retcode saving fopen_ok f polls c = Some (r, f', c') ->
  same_configuration c c' /\
  (r <> Running ->
   r = Returned DEVICE_OK /\ current_line_ c' = -99 /\
   (if saving then f' = fpout_NULL \/ f' = fpout_closed else f' = f)).
Proof.
  unfold start_acq. intros H.
  destruct (start_acq_reset c) as [c0|] eqn:H0; [|discriminate].
  cbn [mbind option_bind] in H. apply start_acq_reset_keeps in H0.
  assert (Hfail : forall f1 c1, same_configuration c c1 ->
            (saving = false -> f1 = f) ->
            start_acq_fail saving f1 c1 = Some (r, f', c') ->
            same_configuration c c' /\
            (r <> Running ->
             r = Returned DEVICE_OK /\ current_line_ c' = -99 /\
             (if saving then f' = fpout_NULL \/ f' = fpout_closed
              else f' = f))).
  { intros f1 c1 Hs Hf E.
    apply start_acq_fail_returned in E as (-> & -> & Hf').
    split.
    - eapply same_configuration_trans; [exact Hs|]. repeat split.
    - intros _. split; [reflexivity|]. split; [reflexivity|].
      destruct saving; [exact Hf'|]. rewrite Hf'. auto. }
  destruct (StartMeas_retcode <? 0); [exact (Hfail _ _ H0 (fun _ => eq_refl) H)|].
  cbv zeta in H.
  assert (Hf : saving = false ->
               (if saving then if fopen_ok then fpout_open else fpout_NULL
                else f) = f)
    by (intros ->; reflexivity).
  destruct (saving && negb fopen_ok); [exact (Hfail _ _ H0 Hf H)|].
  destruct (start_acq_loop saving polls c0) as [[exit c1]|] eqn:Hl;
    [|discriminate].
  cbn [mbind option_bind] in H. apply start_acq_loop_keeps in Hl.
  pose proof (same_configuration_trans _ _ _ H0 Hl) as Hs.
  destruct exit; try exact (Hfail _ _ Hs Hf H).
  apply (inj Some) in H. inversion H. subst.
  split; [exact Hs|]. intros Hr. contradiction.
Qed.

(** X28. Setting the status property. Whatever string is set,
    [On_MH_Status] returns what [OnPropertiesChanged] returns and stores 2
    for [Start] and [Running] and 0 for every other string; it never
    stores 1 or 3. Setting [Start] runs [start_acq] to its end before the
    handler returns: when that call returns, the measurement is over
    ([current_line_] is -99), the configuration of the camera is the one
    before, and with saving on the file pointer is null or a closed
    stream, yet the property and the status say [Running]. The property
    is left at [Running] after [Start], at [Idle] after [Idle], [Running]
    and [Abort], and as it was set after any other string; so after
    setting [Running] the property says [Idle] while the next read says
    [Running]. *)
Theorem status_set_then_get (value : string) (StartMeas_retcode : Z)
    (fopen_ok : bool) (polls : list Poll) (ret : RetCode) (m : MH_control)
    (c c1 : MH_camera) (f1 : FILE_ptr) (r0 : RetCode) :
  (value = "Start" ->
   start_acq StartMeas_retcode (saving_ m) fopen_ok (fpout m) polls c
   = Some (Returned r0, f1, c1)) ->
  let started := String.eqb value "Start" in
  let running := started || String.eqb value "Running" in
  let shown :=
    if started then "Running"
    else if String.eqb value "Idle" || String.eqb value "Running" ||
            String.eqb value "Abort" then "Idle"
    else value in
  let m' := set_MH_Status_ (if running then 2 else 0)
              (if started then set_fpout f1 m else m) in
  let c' := if started then c1 else c in
  On_MH_Status AfterSet value StartMeas_retcode fopen_ok polls ret m c
  = Some (Returned ret, shown, m', c') /\
  (value = "Start" ->
   current_line_ c' = -99 /\
   (saving_ m = true -> fpout m' = fpout_NULL \/ fpout m' = fpout_closed)) /\
  same_configuration c c' /\
  forall value' StartMeas_retcode' fopen_ok' polls' ret',
    On_MH_Status BeforeGet value' StartMeas_retcode' fopen_ok' polls' ret'
      m' c'
    = Some (Returned DEVICE_OK, if running then "Running" else "Idle",
            m', c').
Proof.
  intros Hstart started running shown m' c'.
  subst started running shown m' c'.
  unfold On_MH_Status.
  destruct (String.eqb_spec value "Idle") as [->|HI].
  { cbn. repeat split; discriminate. }
  destruct (String.eqb_spec value "Start") as [->|HS].
  { specialize (Hstart eq_refl).
    cbn [orb saving_ fpout set_MH_Status_ set_fpout MH_Status_ MH_Saving_].
    rewrite Hstart. cbn [mbind option_bind].
    apply start_acq_returned in Hstart as (Hs & Hr).
    destruct Hr as (_ & Hline & Hf); [discriminate|].
    split; [reflexivity|]. split.
    - intros _. split; [exact Hline|]. intros Hsav.
      rewrite Hsav in Hf. exact Hf.
    - split; [exact Hs|]. intros. reflexivity. }
  cbn [orb].
  destruct (String.eqb_spec value "Running") as [->|HR].
  { cbn. repeat split; discriminate. }
  destruct (String.eqb_spec value "Abort") as [->|HA].
  { cbn. repeat split; congruence. }
  cbn. repeat split; congruence.
Qed.

(** X28 on the initialised camera, with saving on and a file pointer that
    never got a value: [Start] with a frame start, a line start and a
    photon, then the end of the measurement time. *)
Lemma status_set_then_get_witness :
  exists c',
    On_MH_Status AfterSet "Start" 0 true
      [poll_records [0x86000000; 0x84000000; 5]; poll_done] DEVICE_OK
      (mkMH_control 0 1 true fpout_indeterminate) MH_camera_initialized
    = Some (Returned DEVICE_OK, "Running",
            mkMH_control 2 1 true fpout_closed, c') /\
    current_line_ c' = -99 /\
    On_MH_Status BeforeGet "Running" 0 false [] DEVICE_OK
      (mkMH_control 2 1 true fpout_closed) c'
    = Some (Returned DEVICE_OK, "Running",
            mkMH_control 2 1 true fpout_closed, c').
Proof.
  assert (Hfst : (fun r => r.1) <$> start_acq 0 true true fpout_indeterminate
                   [poll_records [0x86000000; 0x84000000; 5]; poll_done]
                   MH_camera_initialized
                 = Some (Returned DEVICE_OK, fpout_closed))
    by (vm_compute; reflexivity).
  destruct (start_acq 0 true true fpout_indeterminate
              [poll_records [0x86000000; 0x84000000; 5]; poll_done]
              MH_camera_initialized) as [[[r0 f1] c1]|] eqn:E;
    [|discriminate Hfst].
  cbn [fmap option_fmap option_map fst] in Hfst.
  apply (inj Some) in Hfst. inversion Hfst. subst r0 f1.
  destruct (status_set_then_get "Start" 0 true
              [poll_records [0x86000000; 0x84000000; 5]; poll_done]
              DEVICE_OK (mkMH_control 0 1 true fpout_indeterminate)
              MH_camera_initialized c1 fpout_closed DEVICE_OK
              (fun _ => E))
    as (Hset & Hline & _ & Hget).
  exists c1. split; [exact Hset|].
  split; [exact (proj1 (Hline eq_refl))|].
  exact (Hget "Running" 0 false [] DEVICE_OK).
Defined.

Lemma On_MH_Status_keeps_control (eAct : ActionType) (value : string)
    (StartMeas_retcode : Z) (fopen_ok : bool) (polls : list Poll)
    (ret : RetCode) (m m' : MH_control) (c c' : MH_camera)
    (r : Run RetCode) (shown : string) :
  On_MH_Status eAct value StartMeas_retcode fopen_ok polls ret m c
  = Some (r, shown, m', c') ->
  same_configuration c c' /\ (control_ok m -> control_ok m').
Proof.
  unfold On_MH_Status, control_ok. intros H.
  assert (Hdone : forall (r1 : Run RetCode) (s1 : string) (v : Z),
            v = 0 \/ v = 2 ->
            Some (r1, s1, set_MH_Status_ v m, c) = Some (r, shown, m', c') ->
            same_configuration c c' /\
            ((MH_Status_ m = 0 \/ MH_Status_ m = 2) /\
             (MH_Saving_ m = 0 \/ MH_Saving_ m = 1) /\
             saving_ m = (MH_Saving_ m =? 1) ->
             (MH_Status_ m' = 0 \/ MH_Status_ m' = 2) /\
             (MH_Saving_ m' = 0 \/ MH_Saving_ m' = 1) /\
             saving_ m' = (MH_Saving_ m' =? 1))).
  { intros r1 s1 v Hv E. apply (inj Some) in E. inversion E. subst.
    split; [apply same_configuration_refl|]. cbn. tauto. }
  destruct eAct.
  - apply (inj Some) in H. inversion H. subst.
    split; [apply same_configuration_refl | auto].
  - destruct (String.eqb value "Idle"); [eapply Hdone; [|exact H]; auto|].
    destruct (String.eqb value "Start").
    + cbn [saving_ fpout set_MH_Status_] in H.
      destruct (start_acq _ _ _ _ _ c) as [[[r1 f1] c1]|] eqn:E;
        [|discriminate].
      cbn [mbind option_bind] in H.
      apply start_acq_returned in E as [Hs _].
      destruct r1; apply (inj Some) in H; inversion H; subst;
        (split; [exact Hs | cbn; tauto]).
    + destruct (String.eqb value "Running");
        [eapply Hdone; [|exact H]; auto|].
      destruct (String.eqb value "Abort");
        eapply Hdone; try exact H; auto.
  - apply (inj Some) in H. inversion H. subst.
    split; [apply same_configuration_refl | auto].
Qed.

Lemma On_Save_Enable_keeps_control (eAct : ActionType) (value : string)
    (ret : RetCode) (m : MH_control) :
  control_ok m -> control_ok (On_Save_Enable eAct value ret m).2.
Proof.
  unfold On_Save_Enable, control_ok. intros (Hst & Hsv & Hs).
  destruct eAct.
  - destruct Hsv as [E|E]; rewrite E in *; cbn; rewrite E; cbn; auto.
  - destruct (String.eqb value "False"); [cbn; auto|].
    destruct (String.eqb value "True"); cbn; auto.
  - cbn. auto.
Qed.

(** X29. Whatever calls of [On_MH_Status] and [On_Save_Enable] the host
    makes, in whatever order and with whatever strings, once the status is
    0 or 2, [MH_Saving_] is 0 or 1 and [saving_] agrees with it, this
    stays so in every state that the calls reach, and the configuration
    of the camera is never changed. So a read of the status shows [Idle]
    or [Running], never [Start] or [Abort], and a read of the saving
    property changes nothing. *)
Theorem property_calls_keep_control (calls : list PropertyCall)
    (m m' : MH_control) (c c' : MH_camera) (r : Run unit) :
  control_ok m ->
  property_calls calls m c = Some (r, m', c') ->
  control_ok m' /\ same_configuration c c' /\
  (forall value StartMeas_retcode fopen_ok polls ret,
     On_MH_Status BeforeGet value StartMeas_retcode fopen_ok polls ret m' c'
     = Some (Returned DEVICE_OK,
             if MH_Status_ m' =? 0 then "Idle" else "Running", m', c')) /\
  (forall value ret,
     On_Save_Enable BeforeGet value ret m'
     = (DEVICE_OK, if saving_ m' then "True" else "False", m')).
Proof.
  intros Hm Hrun.
  assert (H : control_ok m' /\ same_configuration c c').
  { revert m c Hm Hrun. induction calls as [|call calls IH]; intros m c Hm Hrun.
    - cbn in Hrun. apply (inj Some) in Hrun. inversion Hrun. subst.
      split; [exact Hm | apply same_configuration_refl].
    - destruct call as [eAct value sm fo polls ret | eAct value ret];
        cbn [property_calls] in Hrun.
      + destruct (On_MH_Status eAct value sm fo polls ret m c)
          as [[[[r1 shown] m1] c1]|] eqn:E; [|discriminate].
        cbn [mbind option_bind] in Hrun.
        apply On_MH_Status_keeps_control in E as [Hs Hc].
        destruct r1.
        * destruct (IH _ _ (Hc Hm) Hrun) as [Hm' Hs'].
          split; [exact Hm'|].
          eapply same_configuration_trans; [exact Hs | exact Hs'].
        * apply (inj Some) in Hrun. inversion Hrun. subst.
          split; [exact (Hc Hm) | exact Hs].
      + pose proof (On_Save_Enable_keeps_control eAct value ret m Hm) as Hc.
        destruct (On_Save_Enable eAct value ret m) as [[r1 shown] m1].
        cbn [snd] in Hc.
        exact (IH _ _ Hc Hrun). }
  destruct H as [Hm' Hs]. split; [exact Hm'|]. split; [exact Hs|].
  destruct Hm' as (Hst & Hsv & Hsav).
  split.
  - intros. unfold On_MH_Status.
    destruct Hst as [E|E]; rewrite E; reflexivity.
  - intros. unfold On_Save_Enable. rewrite Hsav.
    destruct m' as [st sv sa f]. cbn in *.
    destruct Hsv as [E|E]; subst sv sa; reflexivity.
Qed.

(** X29 on the initialised camera: saving is enabled, a measurement is
    started, an unknown saving choice is set, and the measurement is
    aborted. *)
Lemma property_calls_keep_control_witness :
  exists m' c',
    property_calls
      [call_Save_Enable AfterSet "True" DEVICE_OK;
       call_MH_Status AfterSet "Start" 0 true
         [poll_records [0x86000000; 0x84000000; 5]; poll_done] DEVICE_OK;
       call_Save_Enable AfterSet "Maybe" DEVICE_OK;
       call_MH_Status AfterSet "Abort" 0 true [] DEVICE_OK]
      (mkMH_control 0 0 false fpout_indeterminate) MH_camera_initialized
    = Some (Returned (), m', c') /\
    control_ok m' /\ Width (img_ c') = 240.
Proof.
  set (calls := [call_Save_Enable AfterSet "True" DEVICE_OK;
       call_MH_Status AfterSet "Start" 0 true
         [poll_records [0x86000000; 0x84000000; 5]; poll_done] DEVICE_OK;
       call_Save_Enable AfterSet "Maybe" DEVICE_OK;
       call_MH_Status AfterSet "Abort" 0 true [] DEVICE_OK]).
  assert (Hfst : (fun x => x.1.1) <$> property_calls calls
                   (mkMH_control 0 0 false fpout_indeterminate)
                   MH_camera_initialized
                 = Some (Returned ()))
    by (vm_compute; reflexivity).
  destruct (property_calls calls (mkMH_control 0 0 false fpout_indeterminate)
              MH_camera_initialized) as [[[[[]|] m'] c']|] eqn:E;
    [|discriminate Hfst|discriminate Hfst].
  exists m', c'. split; [reflexivity|].
  destruct (property_calls_keep_control calls
              (mkMH_control 0 0 false fpout_indeterminate) m'
              MH_camera_initialized c' (Returned ()))
    as (Hm' & Hs & _).
  - unfold control_ok. cbn. auto.
  - exact E.
  - split; [exact Hm'|].
    destruct Hs as (_&_&_&_&_&_&_&_&_&_&_&_&HW&_).
    rewrite HW. apply dims_initialized.
Defined.

(** ** [SnapImage] *)

(** The test pattern on a camera: the configuration is kept and every
    sample is the one of the checkerboard. *)
Lemma GenerateMHTestPattern_samples (c : MH_camera) :
  pixel_type_consistent c -> buffer_shape c -> 0 <= bitDepth_ c < 32 ->
  exists c',
    GenerateMHTestPattern c = Some (true, c') /\
    same_configuration c c' /\
    forall x y,
      0 <= x < Width (img_ c) -> 0 <= y < Height (img_ c) ->
      sample c' (x + y * Width (img_ c)) = Some (checker (ceiling c) x y).
Proof.
  intros Hpt (Hw & Hh & Hwh & Hlen) Hbits. unfold GenerateMHTestPattern.
  rewrite (u32_small (bitDepth_ c)) by (unfold in_u32; lia).
  destruct (Z.leb_spec 32 (bitDepth_ c)); [lia|]. cbv zeta.
  destruct Hpt as [[Ept Ed] | [Ept Ed]].
  - rewrite Ept.
    cbn [String.eqb Ascii.eqb Bool.eqb g_PixelType_8bit].
    destruct (pattern_rows_all load8 write8 255 u8 1 ltac:(lia) ltac:(lia)
                (fun v Hv => Z.mod_small v (2 ^ 8) ltac:(lia)) write8_spec
                (Width (img_ c)) (Height (img_ c)) (GetPixels (img_ c)))
      as (mem' & Hrun & Hl & Hin & _); [lia | lia | lia | lia |].
    rewrite Hrun. cbn [mbind option_bind].
    eexists. split; [reflexivity|].
    split; [unfold same_configuration; cbn; repeat split; exact Hl|].
    unfold sample, ceiling. cbn [PixelType set_img_ img_ GetPixels SetPixels].
    rewrite Ept. exact Hin.
  - rewrite Ept.
    replace (String.eqb g_PixelType_16bit g_PixelType_8bit) with false
      by reflexivity.
    replace (String.eqb g_PixelType_16bit g_PixelType_16bit) with true
      by reflexivity.
    destruct (pattern_rows_all load16 write16 65535 u16 2 ltac:(lia)
                ltac:(lia)
                (fun v Hv => Z.mod_small v (2 ^ 16) ltac:(lia)) write16_spec
                (Width (img_ c)) (Height (img_ c)) (GetPixels (img_ c)))
      as (mem' & Hrun & Hl & Hin & _); [lia | lia | lia | lia |].
    rewrite Hrun. cbn [mbind option_bind].
    eexists. split; [reflexivity|].
    split; [unfold same_configuration; cbn; repeat split; exact Hl|].
    unfold sample, ceiling. cbn [PixelType set_img_ img_ GetPixels SetPixels].
    rewrite Ept.
    replace (String.eqb g_PixelType_16bit g_PixelType_8bit) with false
      by reflexivity.
    exact Hin.
Qed.

(** What the test pattern needs goes with the configuration. *)
Lemma same_configuration_shape (c c' : MH_camera) :
  same_configuration c c' ->
  pixel_type_consistent c -> buffer_shape c ->
  pixel_type_consistent c' /\ buffer_shape c' /\ ceiling c' = ceiling c.
Proof.
  intros (Hb&_&_&_&_&_&_&_&_&_&_&Hty&HW&HH&HD&Hlen) Hpt Hsh.
  unfold pixel_type_consistent, buffer_shape, ceiling in *.
  rewrite Hty, HW, HH, HD, Hlen. auto.
Qed.

(** X30. [SnapImage] on a buffer of [Width * Height] samples whose depth
    goes with the pixel type, with a bit depth below 32, when [start_acq]
    returns and the waiting for the exposure time ends. In the
    test-pattern mode the measurement runs all the same, but every sample
    of the image is the one of the checkerboard, whatever records arrived.
    In the image mode the image is exactly the one [start_acq] has left.
    With [fastImage_] set, no measurement runs and the camera and the
    file pointer are unchanged. In all three cases [DEVICE_OK] is
    returned, and the exposure sequence is the one that
    [GetSequenceExposure] leaves when a sequence is running and the camera
    is capturing, and unchanged otherwise. *)
Theorem SnapImage_shows_test_pattern {double : Type}
    (gt : double -> double -> bool)
    (GenerateMHHisto : MH_camera -> option (bool * MH_camera))
    (IsCapturing : bool) (GetExposure exp : double) (StartMeas_retcode : Z)
    (fopen_ok : bool) (polls : list Poll) (core_callback : bool)
    (elapsed : list double) (m : MH_control)
    (s s' : MH_camera_sequence double) (c c1 : MH_camera) (f1 : FILE_ptr)
    (r0 : RetCode) :
  pixel_type_consistent c -> buffer_shape c -> 0 <= bitDepth_ c < 32 ->
  (if sequenceRunning_ s && IsCapturing
   then GetSequenceExposure GetExposure s
   else Some (GetExposure, s)) = Some (exp, s') ->
  start_acq StartMeas_retcode (saving_ m) fopen_ok (fpout m) polls c
  = Some (Returned r0, f1, c1) ->
  (core_callback = true -> SnapImage_wait gt exp elapsed = Returned ()) ->
  (exists c',
     SnapImage gt GenerateMHHisto IsCapturing GetExposure StartMeas_retcode
       fopen_ok polls core_callback elapsed MODE_MH_TEST false m s c
     = Some (Returned DEVICE_OK, set_fpout f1 m, s', c') /\
     same_configuration c c' /\
     forall x y,
       0 <= x < Width (img_ c) -> 0 <= y < Height (img_ c) ->
       sample c' (x + y * Width (img_ c)) = Some (checker (ceiling c) x y)) /\
  SnapImage gt GenerateMHHisto IsCapturing GetExposure StartMeas_retcode
    fopen_ok polls core_callback elapsed MODE_MH_IMAGE false m s c
  = Some (Returned DEVICE_OK, set_fpout f1 m, s', c1) /\
  SnapImage gt GenerateMHHisto IsCapturing GetExposure StartMeas_retcode
    fopen_ok polls core_callback elapsed MODE_MH_TEST true m s c
  = Some (Returned DEVICE_OK, m, s', c).
Proof.
  intros Hpt Hsh Hbits Hexp Hacq Hwait.
  assert (Hw : (if core_callback then SnapImage_wait gt exp elapsed
                else Returned ()) = Returned ()).
  { destruct core_callback; [exact (Hwait eq_refl) | reflexivity]. }
  pose proof (start_acq_returned _ _ _ _ _ _ _ _ _ Hacq) as [Hs _].
  destruct (same_configuration_shape _ _ Hs Hpt Hsh) as (Hpt1 & Hsh1 & Hc1).
  assert (Hbits1 : 0 <= bitDepth_ c1 < 32).
  { destruct Hs as (Hb & _). rewrite Hb. exact Hbits. }
  split; [|split].
  - destruct (GenerateMHTestPattern_samples c1 Hpt1 Hsh1 Hbits1)
      as (c' & Hgen & Hs' & Hin).
    exists c'. split.
    + unfold SnapImage. rewrite Hexp. cbn [mbind option_bind negb].
      rewrite Hacq. cbn [mbind option_bind].
      unfold GenerateSyntheticImage. cbn [Z.eqb MODE_MH_TEST].
      rewrite Hgen. cbn [mbind option_bind]. rewrite Hw. reflexivity.
    + split; [eapply same_configuration_trans; eassumption|].
      destruct Hs as (_&_&_&_&_&_&_&_&_&_&_&_&HW&HH&_).
      rewrite HW, HH, Hc1 in Hin. exact Hin.
  - unfold SnapImage. rewrite Hexp. cbn [mbind option_bind negb].
    rewrite Hacq. cbn [mbind option_bind].
    unfold GenerateSyntheticImage, GenerateMHImage.
    cbn [Z.eqb MODE_MH_TEST MODE_MH_IMAGE MODE_MH_HISTO Pos.eqb].
    rewrite (u32_small (bitDepth_ c1)) by (unfold in_u32; lia).
    destruct (Z.leb_spec 32 (bitDepth_ c1)); [lia|].
    cbn [mbind option_bind]. rewrite Hw. reflexivity.
  - unfold SnapImage. rewrite Hexp. cbn [mbind option_bind negb].
    rewrite Hw. reflexivity.
Qed.

(** X30 on the initialised camera (240 x 240 samples of 16 bits) after a
    measurement with one photon: the sample at column 60 of row 10 is
    65535, the one at column 60 of row 70 is 0. *)
Lemma SnapImage_shows_test_pattern_witness :
  exists c',
    SnapImage Z.gtb (fun c => Some (true, c)) false 10 0 false
      [poll_records [0x86000000; 0x84000000; 5]; poll_done] true [3; 12]
      MODE_MH_TEST false (mkMH_control 0 0 false fpout_indeterminate)
      (mkMH_camera_sequence false 0 false 0 []) MH_camera_initialized
    = Some (Returned DEVICE_OK, mkMH_control 0 0 false fpout_indeterminate,
            mkMH_camera_sequence false 0 false 0 [], c') /\
    sample c' (60 + 10 * 240) = Some 65535 /\
    sample c' (60 + 70 * 240) = Some 0.
Proof.
  destruct dims_initialized as (HW & HH & HD & HP & HB).
  assert (Hfst : (fun r => r.1) <$> start_acq 0 false false
                   fpout_indeterminate
                   [poll_records [0x86000000; 0x84000000; 5]; poll_done]
                   MH_camera_initialized
                 = Some (Returned DEVICE_OK, fpout_indeterminate))
    by (vm_compute; reflexivity).
  destruct (start_acq 0 false false fpout_indeterminate
              [poll_records [0x86000000; 0x84000000; 5]; poll_done]
              MH_camera_initialized) as [[[r0 f1] c1]|] eqn:E;
    [|discriminate Hfst].
  cbn [fmap option_fmap option_map fst] in Hfst.
  apply (inj Some) in Hfst. inversion Hfst. subst r0 f1.
  destruct (SnapImage_shows_test_pattern Z.gtb (fun c => Some (true, c))
              false 10 10 0 false
              [poll_records [0x86000000; 0x84000000; 5]; poll_done] true
              [3; 12] (mkMH_control 0 0 false fpout_indeterminate)
              (mkMH_camera_sequence false 0 false 0 [])
              (mkMH_camera_sequence false 0 false 0 [])
              MH_camera_initialized c1 fpout_indeterminate DEVICE_OK)
    as ((c' & Hrun & _ & Hin) & _).
  - right. split; assumption.
  - exact buffer_shape_initialized.
  - rewrite HB. lia.
  - reflexivity.
  - exact E.
  - reflexivity.
  - exists c'. split; [exact Hrun|].
    unfold ceiling in Hin. rewrite HP, HW, HH in Hin.
    split; [apply (Hin 60 10) | apply (Hin 60 70)]; lia.
Defined.
